(** * Ethr: TCP traceroute probes and the measurement server

    A shallow embedding of [client/tcp/traceroute.go] and [server.go].
    Go's fixed-width integers are integers of [Z] with the wrap-around
    written out; strings are byte strings; byte slices are lists of
    byte values; pointers to tests are locations of an explicit store;
    float64 is IEEE binary64 as [SpecFloat] defines it.  What the code
    gets from the network, the clock and the resolver is an input of the
    functions below. *)

From Stdlib Require Import ZArith Lia List Permutation Sorted SpecFloat Ascii String.
From Stdlib Require Import DecimalString Reals Lra.
From stdpp Require Import gmap strings.
Import ListNotations.

Local Open Scope Z_scope.

(** ** Machine integers *)

Module GoInt.

(** Conversion to an unsigned type of [bits] bits. *)
Definition wrapU (bits z : Z) : Z := z mod 2 ^ bits.

(** Conversion to a signed (two's complement) type of [bits] bits. *)
Definition wrapS (bits z : Z) : Z :=
  (z + 2 ^ (bits - 1)) mod 2 ^ bits - 2 ^ (bits - 1).

Definition uint8 : Z -> Z := wrapU 8.
Definition uint16 : Z -> Z := wrapU 16.
Definition uint32 : Z -> Z := wrapU 32.
Definition uint64 : Z -> Z := wrapU 64.
Definition int64 : Z -> Z := wrapS 64.

Definition minInt64 : Z := - 2 ^ 63.
Definition maxInt64 : Z := 2 ^ 63 - 1.

Definition isInt64 (z : Z) : Prop := minInt64 <= z <= maxInt64.

End GoInt.

Import GoInt.

(** ** client/tcp/traceroute.go *)

Module Traceroute.

(** Modelled from the spec: [payloads.HopData], whose declaration is not
    among the sources.  The spec gives [addr], [name], [fullName]
    (strings), [sent], [rcvd], [lost] (unsigned counters) and [last],
    [best], [worst], [total] (durations, [time.Duration] is an int64 of
    nanoseconds). *)
Record HopData : Type := mkHopData {
  Addr : string;
  Name : string;
  FullName : string;
  Sent : Z;
  Rcvd : Z;
  Lost : Z;
  Last : Z;
  Best : Z;
  Worst : Z;
  Total : Z
}.

(** [var hopData payloads.HopData]: every field has its zero value. *)
Definition zeroHopData : HopData :=
  mkHopData "" "" "" 0 0 0 0 0 0 0.

Definition setNames (h : HopData) (tname name : string) : HopData :=
  mkHopData (Addr h) tname name (Sent h) (Rcvd h) (Lost h)
            (Last h) (Best h) (Worst h) (Total h).

Section Counters.

(** The width of the [Sent], [Rcvd] and [Lost] counters: the spec says
    only that they are unsigned, so the width is left open. *)
Variable counterBits : Z.

(** [x++] on a counter. *)
Definition incr (x : Z) : Z := wrapU counterBits (x + 1).

Definition incrSent (h : HopData) : HopData :=
  mkHopData (Addr h) (Name h) (FullName h) (incr (Sent h)) (Rcvd h) (Lost h)
            (Last h) (Best h) (Worst h) (Total h).

Definition incrLost (h : HopData) : HopData :=
  mkHopData (Addr h) (Name h) (FullName h) (Sent h) (Rcvd h) (incr (Lost h))
            (Last h) (Best h) (Worst h) (Total h).

(** [calcHopData], lines 183-194. *)
Definition calcHopData (h : HopData) (peerAddr : string) (elapsed : Z) : HopData :=
  let best := if Best h >? elapsed then elapsed else Best h in
  let worst := if Worst h <? elapsed then elapsed else Worst h in
  mkHopData peerAddr (Name h) (FullName h)
            (Sent h) (incr (Rcvd h)) (Lost h)
            elapsed best worst (int64 (Total h + elapsed)).

(** Aggregating a sequence of successful probe results, first to last. *)
Definition aggregate (h : HopData) (results : list (string * Z)) : HopData :=
  fold_left (fun acc r => calcHopData acc (fst r) (snd r)) results h.

(** *** The probe's local port and fingerprint, lines 126-134 *)

(** [c.NetTools]: the configured local port (a uint16) and local IP. *)
Record NetTools : Type := mkNetTools {
  LocalPort : Z;
  LocalIP : string
}.

(** The fields of [session.Test] that a probe reads. *)
Record Test : Type := mkTest {
  RemoteIP : string;
  RemotePort : string;
  DialAddr : string
}.

Definition probeLocalPort (nt : NetTools) (hop : Z) : Z :=
  let localPortNum := uint16 8888 in
  let localPortNum :=
    if negb (LocalPort nt =? 0) then LocalPort nt else localPortNum in
  uint16 (localPortNum + uint16 hop).

(** [binary.BigEndian.PutUint16]: [b[0] = byte(v >> 8)], [b[1] = byte(v)]. *)
Definition PutUint16 (v : Z) : list Z :=
  [uint8 (Z.shiftr v 8); uint8 v].

Definition digitOf (c : ascii) : option Z :=
  let n := Z.of_nat (nat_of_ascii c) in
  if (48 <=? n) && (n <=? 57) then Some (n - 48) else None.

(** [strconv.ParseUint(s, 10, 16)], value only (the caller drops the
    error): 0 on a syntax error, the largest uint16 on a range error,
    which is reported at the digit where the value first exceeds it. *)
Fixpoint parseUintFrom (n : Z) (s : string) : Z :=
  match s with
  | EmptyString => n
  | String c rest =>
      match digitOf c with
      | None => 0
      | Some d =>
          let n1 := n * 10 + d in
          if n1 >? 65535 then 65535 else parseUintFrom n1 rest
      end
  end.

Definition ParseUint16 (s : string) : Z :=
  match s with
  | EmptyString => 0
  | _ => parseUintFrom 0 s
  end.

Definition probeFingerprint (nt : NetTools) (test : Test) (hop : Z) : list Z :=
  let remotePortNum := ParseUint16 (RemotePort test) in
  PutUint16 (probeLocalPort nt hop) ++ PutUint16 (uint16 remotePortNum).

(** *** The ICMP receiver, lines 137-154 *)

Fixpoint hasPrefix (sep s : list Z) : bool :=
  match sep, s with
  | [], _ => true
  | _ :: _, [] => false
  | x :: sep', y :: s' => (x =? y) && hasPrefix sep' s'
  end.

(** [bytes.Index(s, sep)] searching from offset [i]: the index of the
    first occurrence, or -1. *)
Fixpoint indexFrom (i : Z) (s sep : list Z) : Z :=
  if hasPrefix sep s then i
  else match s with
       | [] => -1
       | _ :: s' => indexFrom (i + 1) s' sep
       end.

Definition bytesIndex (s sep : list Z) : Z := indexFrom 0 s sep.

(** [icmp.Type] is an interface over [ipv4.ICMPType] and
    [ipv6.ICMPType]. *)
Inductive IcmpType : Type :=
| ICMPv4 (t : Z)
| ICMPv6 (t : Z).

(** [ipv4.ICMPTypeTimeExceeded] is 11, [ipv6.ICMPTypeTimeExceeded] is 3. *)
Definition isTimeExceeded (t : IcmpType) : bool :=
  match t with
  | ICMPv4 n => n =? 11
  | ICMPv6 n => n =? 3
  end.

(** What one call of [ReceiveICMPFromPeer] hands back: the message type,
    the quoted packet (read only for TimeExceeded), the peer's textual
    address, and the clock at that moment. *)
Record IcmpRecv : Type := mkIcmpRecv {
  rType : IcmpType;
  rData : list Z;
  rPeer : string;
  rNow : Z
}.

Definition icmpAccepts (b : list Z) (m : IcmpRecv) : bool :=
  if isTimeExceeded (rType m)
  then let index := bytesIndex (rData m) b in index >? 0
  else false.

(** The receiving goroutine over the successive results of
    [ReceiveICMPFromPeer].  It leaves its loop only at an accepted
    message; [None]: it never sends on its channels. *)
Fixpoint icmpReceiver (b : list Z) (stream : list IcmpRecv) : option (Z * string) :=
  match stream with
  | [] => None
  | m :: rest =>
      if icmpAccepts b m then Some (rNow m, rPeer m)
      else icmpReceiver b rest
  end.

(** *** probeHop, lines 119-181 *)

(** The environment of one probe. [dial dialAddr localIP localPort ttl]
    is [Some t] when the connection is established ([t]: the clock
    after closing it) and [None] on a dial error. *)
Record ProbeEnv : Type := mkProbeEnv {
  icmpNewConnFails : bool;
  startTime : Z;
  dial : string -> string -> Z -> Z -> option Z;
  received : list IcmpRecv
}.

Inductive ProbeError : Type :=
| ErrIcmpConn
| ErrHopUnreachable.

(** [Returned err isLast]: the call returned; [Waiting]: the caller is
    blocked on the receiver's channel. *)
Inductive ProbeOutcome : Type :=
| Returned (err : option ProbeError) (isLast : bool)
| Waiting.

(** [time.Time.Sub] saturates at the ends of the Duration range. *)
Definition timeSub (t u : Z) : Z :=
  let d := t - u in
  if d <? minInt64 then minInt64
  else if d >? maxInt64 then maxInt64 else d.

(** The condition of line 175. *)
Definition probeLost (hopIP peerAddr : string) : bool :=
  (peerAddr =? "")%string
  || (negb (hopIP =? "")%string && negb (peerAddr =? hopIP)%string).

Definition finishProbe (h : HopData) (hopIP peerAddr : string)
    (elapsed : Z) (isLast : bool) : HopData * ProbeOutcome :=
  if probeLost hopIP peerAddr
  then (incrLost h, Returned (Some ErrHopUnreachable) isLast)
  else (calcHopData h peerAddr elapsed, Returned None isLast).

Definition probeHop (nt : NetTools) (test : Test) (hop : Z) (hopIP : string)
    (env : ProbeEnv) (h : HopData) : HopData * ProbeOutcome :=
  if icmpNewConnFails env then (h, Returned (Some ErrIcmpConn) false)
  else
    let localPortNum := probeLocalPort nt hop in
    let b := probeFingerprint nt test hop in
    let conn := dial env (DialAddr test) (LocalIP nt) localPortNum hop in
    let h := incrSent h in
    match conn with
    | None =>
        match icmpReceiver b (received env) with
        | Some (endTime, peerAddr) =>
            finishProbe h hopIP peerAddr (timeSub endTime (startTime env)) false
        | None => (h, Waiting)
        end
    | Some endTime =>
        finishProbe h hopIP (RemoteIP test) (timeSub endTime (startTime env)) true
    end.

(** *** probeHops, lines 52-70

    The MTR loop on one hop, one environment per iteration; the list ends
    where the loop sees [test.Done].  The second component tells whether
    the loop is stuck inside a probe. *)
Fixpoint probeHops (nt : NetTools) (test : Test) (hop : Z)
    (envs : list ProbeEnv) (h : HopData) : HopData * bool :=
  match envs with
  | [] => (h, false)
  | env :: rest =>
      match probeHop nt test (hop + 1) (Addr h) env h with
      | (h', Waiting) => (h', true)
      | (h', Returned _ _) => probeHops nt test hop rest h'
      end
  end.

(** *** lookupHopName, lines 97-117 *)

Definition lastIsDot (name : string) : bool :=
  match String.get (String.length name - 1) name with
  | Some c => Ascii.eqb c "."%char
  | None => false
  end.

(** [lookupAddr]: [net.LookupAddr], [None] on error. *)
Definition lookupHopName (lookupAddr : string -> option (list string))
    (addr : string) : string * string :=
  if (addr =? "")%string then ("", "")
  else
    match lookupAddr addr with
    | Some (name :: _) =>
        let sz := String.length name in
        let name :=
          if (0 <? sz)%nat && lastIsDot name
          then String.substring 0 (sz - 1) name else name in
        let tname :=
          if (16 <? String.length name)%nat
          then (String.substring 0 16 name ++ "...")%string else name in
        (tname, name)
    | _ => ("", "")
    end.

(** *** discoverHops, lines 72-95 *)

Inductive LoopEnd : Type :=
| Reached (hops : list HopData)
| Exhausted (hops : list HopData)
| Blocked (hops : list HopData).

(** The loop from index [i] with [remaining] iterations to go; [hops]
    is the array as filled so far. *)
Fixpoint discoverLoop (nt : NetTools) (test : Test)
    (lookupAddr : string -> option (list string)) (envs : Z -> ProbeEnv)
    (remaining : nat) (i : Z) (hops : list HopData) : LoopEnd :=
  match remaining with
  | O => Exhausted hops
  | S remaining' =>
      let '(hopData, outcome) :=
        probeHop nt test (i + 1) "" (envs (i + 1)) zeroHopData in
      match outcome with
      | Waiting => Blocked hops
      | Returned err isLast =>
          let hopData :=
            match err with
            | None =>
                let '(tname, name) := lookupHopName lookupAddr (Addr hopData) in
                setNames hopData tname name
            | Some _ => hopData
            end in
          let hops := <[Z.to_nat i := hopData]> hops in
          if isLast then Reached (take (Z.to_nat (i + 1)) hops)
          else discoverLoop nt test lookupAddr envs remaining' (i + 1) hops
      end
  end.

Inductive DiscoverError : Type :=
| ErrNotExist.

(** [DiscPanic]: [make] with a negative length; [DiscBlocked]: a probe
    never returned.  A nil slice is the empty list. *)
Inductive DiscoverResult : Type :=
| DiscPanic
| DiscBlocked
| DiscReturn (hops : list HopData) (err : option DiscoverError).

Definition runDiscoverLoop (nt : NetTools) (test : Test)
    (lookupAddr : string -> option (list string)) (envs : Z -> ProbeEnv)
    (maxHops : Z) : LoopEnd :=
  discoverLoop nt test lookupAddr envs (Z.to_nat maxHops) 0
               (replicate (Z.to_nat maxHops) zeroHopData).

Definition discoverHops (nt : NetTools) (test : Test)
    (lookupAddr : string -> option (list string)) (envs : Z -> ProbeEnv)
    (maxHops : Z) : DiscoverResult :=
  if maxHops <? 0 then DiscPanic
  else
    match runDiscoverLoop nt test lookupAddr envs maxHops with
    | Reached hops => DiscReturn hops None
    | Exhausted _ => DiscReturn [] (Some ErrNotExist)
    | Blocked _ => DiscBlocked
    end.

(** The hops the loop has gathered when it runs out of TTLs. *)
Definition gatheredHops (nt : NetTools) (test : Test)
    (lookupAddr : string -> option (list string)) (envs : Z -> ProbeEnv)
    (maxHops : Z) : option (list HopData) :=
  match runDiscoverLoop nt test lookupAddr envs maxHops with
  | Exhausted hops => Some hops
  | _ => None
  end.

(** [client.TestResult] as [TestTraceRoute] sends it, lines 22-50 (the
    MTR goroutines it starts afterwards are not part of the result). *)
Record TestResult : Type := mkTraceResult {
  Success : bool;
  HasError : bool;
  BodyHops : list HopData
}.

Definition TestTraceRoute (nt : NetTools) (test : Test)
    (lookupAddr : string -> option (list string)) (envs : Z -> ProbeEnv)
    (maxHops : Z) : option TestResult :=
  match discoverHops nt test lookupAddr envs maxHops with
  | DiscReturn hops (Some _) => Some (mkTraceResult false true hops)
  | DiscReturn hops None => Some (mkTraceResult true false hops)
  | _ => None
  end.

End Counters.

End Traceroute.

Import Traceroute.

(** ** server.go *)

Module Server.

(** *** float64 arithmetic

    IEEE 754 binary64 as the Standard Library specifies it
    ([SpecFloat], precision 53, maximal exponent 1024, rounding to
    nearest even). *)

Definition prec : Z := 53.
Definition emax : Z := 1024.

Definition float64 : Type := spec_float.

(** [float64(x)] for an integer [x]: exact below [2^53]. *)
Definition f64_of_Z (z : Z) : float64 := binary_normalize prec emax z 0 false.

Definition f64_mul : float64 -> float64 -> float64 := SFmul prec emax.
Definition f64_div : float64 -> float64 -> float64 := SFdiv prec emax.
Definition f64_sub : float64 -> float64 -> float64 := SFsub prec emax.

(** The constants [99.9] and [99.99] rounded to float64. *)
Definition f64_99_9 : float64 := S754_finite false 7029837543348634 (-46).
Definition f64_99_99 : float64 := S754_finite false 7036170730324623 (-46).

(** Rounding toward zero of a finite float. *)
Definition f64_trunc (f : float64) : option Z :=
  match f with
  | S754_zero _ => Some 0
  | S754_finite s m e =>
      let a := if 0 <=? e then Z.shiftl (Zpos m) e else Z.shiftr (Zpos m) (- e) in
      Some (if s then - a else a)
  | _ => None
  end.

(** [uint64(f)]: the truncated value when a uint64 can hold it; Go leaves
    the result open otherwise ([None]). *)
Definition f64_to_uint64 (f : float64) : option Z :=
  match f64_trunc f with
  | Some t => if (0 <=? t) && (t <? 2 ^ 64) then Some t else None
  | None => None
  end.

(** *** srvrRunTCPLatencyTest, lines 209-239: one batch *)

Record LatencyResult : Type := mkLatencyResult {
  stored : Z;
  avg : Z;
  min : Z;
  max : Z;
  p50 : Z;
  p90 : Z;
  p95 : Z;
  p99 : Z;
  p999 : Z;
  p9999 : Z
}.

(** Lines 209-212: the int64 sum of the samples' nanoseconds. *)
Definition sumNanos (latencyNumbers : list Z) : Z :=
  fold_left (fun sum d => int64 (sum + d)) latencyNumbers 0.

(** [sort.SliceStable] with [less(i, j) = a[i] < a[j]]: a stable
    insertion sort; an element goes after the elements less than it and
    before the first one that is not. *)
Fixpoint insertStable (x : Z) (l : list Z) : list Z :=
  match l with
  | [] => [x]
  | y :: l' => if y <? x then y :: insertStable x l' else x :: y :: l'
  end.

Fixpoint SliceStable (l : list Z) : list Z :=
  match l with
  | [] => []
  | x :: l' => insertStable x (SliceStable l')
  end.

(** [a[i]] for an integer index: [None] is the run-time panic on an index
    out of range. *)
Fixpoint sliceAt (a : list Z) (i : Z) : option Z :=
  match a with
  | [] => None
  | x :: a' => if i <? 0 then None else if i =? 0 then Some x else sliceAt a' (i - 1)
  end.

(** Lines 222-225. *)
Definition rttCountFixed (rttCount : Z) : Z :=
  if rttCount =? 1 then 2 else rttCount.

(** [((rttCountFixed*pct)/100)-1] in uint32 arithmetic. *)
Definition pctIndex (rttCountFixed pct : Z) : Z :=
  uint32 (uint32 (rttCountFixed * pct) / 100 - 1).

(** [uint64(((float64(rttCountFixed)*c)/100)-1)]. *)
Definition pctIndexF (rttCountFixed : Z) (c : float64) : option Z :=
  f64_to_uint64
    (f64_sub (f64_div (f64_mul (f64_of_Z rttCountFixed) c) (f64_of_Z 100))
             (f64_of_Z 1)).

(** One batch, after the [rttCount] round trips have filled
    [latencyNumbers]. [None]: the run-time panics (division by zero,
    index out of range), or a float conversion that Go leaves open. *)
Definition latencyBatch (rttCount : Z) (latencyNumbers : list Z) : option LatencyResult :=
  let sum := sumNanos latencyNumbers in
  if rttCount =? 0 then None
  else
    let elapsed := Z.quot sum rttCount in
    let latencyNumbers := SliceStable latencyNumbers in
    let fixed := rttCountFixed rttCount in
    min ← sliceAt latencyNumbers 0;
    max ← sliceAt latencyNumbers (uint32 (rttCount - 1));
    p50 ← sliceAt latencyNumbers (pctIndex fixed 50);
    p90 ← sliceAt latencyNumbers (pctIndex fixed 90);
    p95 ← sliceAt latencyNumbers (pctIndex fixed 95);
    p99 ← sliceAt latencyNumbers (pctIndex fixed 99);
    i999 ← pctIndexF fixed f64_99_9;
    p999 ← sliceAt latencyNumbers i999;
    i9999 ← pctIndexF fixed f64_99_99;
    p9999 ← sliceAt latencyNumbers i9999;
    Some (mkLatencyResult (uint64 elapsed) elapsed min max p50 p90 p95 p99 p999 p9999).

(** *** srvrRunUDPPacketHandler, lines 266-330 *)

Inductive EthrProtocol : Type := TCP | UDP | ICMP.
Inductive EthrTestType : Type := All | Bandwidth | Cps | Pps | Latency.

#[global] Instance EthrProtocol_eq_dec : EqDecision EthrProtocol.
Proof. solve_decision. Defined.

#[global] Instance EthrTestType_eq_dec : EqDecision EthrTestType.
Proof. solve_decision. Defined.

(** Modelled from the spec: [ethrTest] and its [testResult], declared
    outside the sources; the fields are those the spec lists and
    server.go reads and writes.  The four counters are uint64 (they are
    updated with [atomic.AddUint64]); [lastAccess] is a clock reading. *)
Record ethrTestResult : Type := mkTestResult {
  bw : Z;
  cps : Z;
  pps : Z;
  latency : Z
}.

Record ethrTest : Type := mkEthrTest {
  remoteIP : string;
  protocol : EthrProtocol;
  testType : EthrTestType;
  testResult : ethrTestResult;
  lastAccess : Z;
  isActive : bool
}.

(** A [*ethrTest] is a location of the store; [None] is nil. *)
Definition loc : Type := positive.

(** Lines 323-325 on the test a pointer refers to. *)
Definition touch (now n : Z) (t : ethrTest) : ethrTest :=
  let r := testResult t in
  mkEthrTest (remoteIP t) (protocol t) (testType t)
    (mkTestResult (uint64 (bw r + uint64 n)) (cps r) (uint64 (pps r + 1)) (latency r))
    now (isActive t).

Section PacketHandler.

(** The process-wide registry is outside the sources: its state and
    [createOrGetTest] are left open here. *)
Variable Registry : Type.
Variable createOrGetTest :
  string -> EthrProtocol -> EthrTestType ->
  gmap loc ethrTest * Registry -> (option loc * bool) * (gmap loc ethrTest * Registry).

(** The handler's view: its local map [tests], and the store and
    registry it shares with the rest of the server. *)
Record Worker : Type := mkWorker {
  tests : gmap string loc;
  store : gmap loc ethrTest;
  registry : Registry
}.

(** One datagram as the handler sees it: the host part of the remote
    address, the byte count [n], whether [handshakeWithClient] would
    fail on its contents, and the clock when it is processed. *)
Record Datagram : Type := mkDatagram {
  dgServer : string;
  dgN : Z;
  dgHandshakeErr : bool;
  dgNow : Z
}.

(** The body of the loop for a datagram read without error (the reaper of
    lines 278-297 runs beside it and is not part of this step).  The second
    component is [false] when the handler returns (line 316).  The
    [test] that lines 322-325 use is the one of line 306: the [test] that
    line 308 declares lives only inside the [if !found] block. *)
Definition handleDatagram (d : Datagram) (w : Worker) : Worker * bool :=
  let server := dgServer d in
  let test := tests w !! server in
  let found := bool_decide (is_Some test) in
  let '(w, returned) :=
    if negb found then
      let '(test', isNew, (st, reg)) :=
        createOrGetTest server UDP All (store w, registry w) in
      let tests' :=
        match test' with
        | Some p => <[server := p]> (tests w)
        | None => tests w
        end in
      let w := mkWorker tests' st reg in
      if isNew && dgHandshakeErr d then (w, true) else (w, false)
    else (w, false) in
  if returned then (w, false)
  else
    match test with
    | Some p =>
        (mkWorker (tests w) (alter (touch (dgNow d) (dgN d)) p (store w)) (registry w),
         true)
    | None => (w, true)
    end.

(** The packet loop alone, lines 298-329, over the successive results of
    [ReadFromUDP]: [None] is a read error, which ends the loop.  The
    reaper that the function starts beside it is [ServerTcp.reapTest];
    [ServerTcp.srvrRunUDPPacketHandlerWithReaper] runs the two together. *)
Fixpoint srvrRunUDPPacketHandler (reads : list (option Datagram)) (w : Worker) : Worker :=
  match reads with
  | [] => w
  | None :: _ => w
  | Some d :: rest =>
      let '(w, continue) := handleDatagram d w in
      if continue then srvrRunUDPPacketHandler rest w else w
  end.

End PacketHandler.

Arguments mkWorker {Registry} _ _ _.
Arguments tests {Registry} _.
Arguments store {Registry} _.
Arguments registry {Registry} _.
Arguments handleDatagram {Registry} _ _ _.
Arguments srvrRunUDPPacketHandler {Registry} _ _ _.

(** Modelled from the spec: the registry and [createOrGetTest], which the
    sources only call: "returns the existing Test if present, else
    creates, inserts, and returns with isNew=true", keyed by
    [(remoteIP, protocol, testType)].  A new test has zero counters. *)
Definition TestKey : Type := string * (EthrProtocol * EthrTestType).

Definition keyEqb (a b : TestKey) : bool := bool_decide (a = b).

Definition SpecRegistry : Type := list (TestKey * loc).

Fixpoint findTest (k : TestKey) (r : SpecRegistry) : option loc :=
  match r with
  | [] => None
  | (k', p) :: r' => if keyEqb k k' then Some p else findTest k r'
  end.

Definition freshLoc (st : gmap loc ethrTest) : loc := fresh (dom st).

Definition specCreateOrGetTest (server : string) (proto : EthrProtocol)
    (ty : EthrTestType) (s : gmap loc ethrTest * SpecRegistry)
    : (option loc * bool) * (gmap loc ethrTest * SpecRegistry) :=
  let '(st, reg) := s in
  let k : TestKey := (server, (proto, ty)) in
  match findTest k reg with
  | Some p => ((Some p, false), (st, reg))
  | None =>
      let p := freshLoc st in
      let t := mkEthrTest server proto ty (mkTestResult 0 0 0 0) 0 true in
      ((Some p, true), (<[p := t]> st, (k, p) :: reg))
  end.

End Server.

Import Server.

(** ** Derived notions and sample inputs *)

(** The part of a [HopData] that the aggregation laws speak about. *)
Definition stats (h : HopData) : Z * Z * Z * Z :=
  (Best h, Worst h, Total h, Rcvd h).

(** The peer address a probe ends up with, when it gets one: the
    destination when the dial succeeds, else the source of the first
    accepted ICMP message. *)
Definition probePeer (nt : NetTools) (test : Test) (hop : Z) (env : ProbeEnv)
    : option string :=
  match dial env (DialAddr test) (LocalIP nt) (probeLocalPort nt hop) hop with
  | Some _ => Some (RemoteIP test)
  | None =>
      match icmpReceiver (probeFingerprint nt test hop) (received env) with
      | Some (_, peerAddr) => Some peerAddr
      | None => None
      end
  end.

(** The decimal numeral of a port number, as [test.RemotePort] holds it. *)
Definition decimal (n : Z) : string := NilZero.string_of_uint (N.to_uint (Z.to_N n)).

Definition sampleNetTools : NetTools := mkNetTools 0 "192.168.1.5".
Definition sampleTest : Test := mkTest "93.184.216.34" "443" "93.184.216.34:443".

(** A TimeExceeded from 10.0.0.1 quoting a 20-byte IP header and then the
    TCP ports of the TTL-1 probe: 8889 = 0x22B9, 443 = 0x01BB. *)
Definition sampleQuoted : list Z := repeat 0 20 ++ [34; 185; 1; 187; 0; 0; 0; 0].
Definition sampleReply : IcmpRecv := mkIcmpRecv (ICMPv4 11) sampleQuoted "10.0.0.1" 7000000.

Definition sampleEnv : ProbeEnv :=
  mkProbeEnv false 2000000 (fun _ _ _ _ => None) [sampleReply].

(** The probe at TTL [i] returns without having reached the destination. *)
Definition notLast (counterBits : Z) (nt : NetTools) (test : Test)
    (envs : Z -> ProbeEnv) (i : Z) : Prop :=
  exists h err,
    probeHop counterBits nt test i "" (envs i) zeroHopData = (h, Returned err false).

Definition sampleEnvs : Z -> ProbeEnv := fun _ => sampleEnv.
Definition noNames : string -> option (list string) := fun _ => None.

(** The hop that the TTL-1 probe of the sample environment gathers. *)
Definition sampleHop : HopData :=
  mkHopData "10.0.0.1" "" "" 1 1 0 5000000 0 5000000 5000000.

(** A three-hop trace: routers at 10.0.0.1 and 10.0.0.2 answer the probes
    of TTL 1 and 2 (local ports 8889 and 8890), the destination accepts the
    connection at TTL 3. *)
Definition replyFrom (peer : string) (portLow : Z) : IcmpRecv :=
  mkIcmpRecv (ICMPv4 11) (repeat 0 20 ++ [34; portLow; 1; 187; 0; 0; 0; 0]) peer 7000000.

Definition threeHopEnvs (ttl : Z) : ProbeEnv :=
  if ttl =? 1 then mkProbeEnv false 2000000 (fun _ _ _ _ => None) [replyFrom "10.0.0.1" 185]
  else if ttl =? 2
       then mkProbeEnv false 2000000 (fun _ _ _ _ => None)
                       [replyFrom "10.0.0.1" 185; replyFrom "10.0.0.2" 186]
       else mkProbeEnv false 2000000 (fun _ _ _ _ => Some 9000000) [].

Definition reverseNames (addr : string) : option (list string) :=
  if (addr =? "10.0.0.1")%string then Some ["gateway-of-the-first-network.example.net."%string]
  else None.

Definition ms (n : Z) : Z := n * 1000000.

(** Fifty million samples, already in ascending order: ten million of
    1 ms, then forty million of 2 ms. *)
Definition skewedSamples : list Z :=
  repeat (ms 1) (Z.to_nat 10000000) ++ repeat (ms 2) (Z.to_nat 40000000).

Fixpoint checkFrom (f : Z -> bool) (k : nat) (s : Z) : bool :=
  match k with
  | O => true
  | S k' => f s && checkFrom f k' (s + 1)
  end.

Definition chain (r : LatencyResult) : Prop :=
  min r <= p50 r /\ p50 r <= p90 r /\ p90 r <= p95 r /\ p95 r <= p99 r
  /\ p99 r <= p999 r /\ p999 r <= p9999 r /\ p9999 r <= max r.

Definition freshWorker : Worker SpecRegistry := mkWorker ∅ ∅ [].

(** A 100-byte handshake datagram from 10.0.0.7, processed at clock 5000. *)
Definition firstDatagram : Datagram := mkDatagram "10.0.0.7" 100 false 5000.

(** A second datagram of 100 bytes from the same host at clock 6000. *)
Definition secondDatagram : Datagram := mkDatagram "10.0.0.7" 100 false 6000.

(** The real value of a float and the numbers a float can hold, for the
    reasoning on the float-derived indices. *)

Fixpoint iterN {A : Type} (f : A -> A) (n : nat) (x : A) : A :=
  match n with
  | O => x
  | S n' => f (iterN f n' x)
  end.

Definition bpow (e : Z) : R := powerRZ 2 e.

(** The value of a positive finite float; 0 for everything else. *)
Definition B2R (f : spec_float) : R :=
  match f with
  | S754_finite false m e => (IZR (Zpos m) * bpow e)%R
  | _ => 0%R
  end.

(** The numbers with a mantissa of at most 53 bits. *)
Definition dyadic (k : R) : Prop :=
  exists A E, 0 <= A < 2 ^ 53 /\ k = (IZR A * bpow E)%R.

(** [r] is a faithful rounding of [v]: no 53-bit number lies strictly
    between them. *)
Definition faithful (v r : R) : Prop :=
  forall k, dyadic k -> ((k <= v)%R -> (k <= r)%R) /\ ((v <= k)%R -> (r <= k)%R).

(** [f] is the positive float of mantissa [m], of exactly 53 bits, and
    exponent [e]. *)
Definition pnormal (f : spec_float) (m : positive) (e : Z) : Prop :=
  f = S754_finite false m e /\ 2 ^ 52 <= Zpos m < 2 ^ 53.

(** ** client/tcp/traceroute.go: the MTR probers *)

(** [TestTraceRoute], lines 40-44: the indices [i] for which a
    [probeHops] goroutine is started, in the order of the loop. *)
Fixpoint mtrProbersFrom (i : Z) (hops : list HopData) : list Z :=
  match hops with
  | [] => []
  | h :: rest =>
      if negb (Addr h =? "")%string
      then i :: mtrProbersFrom (i + 1) rest
      else mtrProbersFrom (i + 1) rest
  end.

(** Lines 23-44: the probers that a call starts; [None] when
    [discoverHops] does not return. *)
Definition startedProbers (counterBits : Z) (nt : NetTools) (test : Test)
    (lookupAddr : string -> option (list string)) (envs : Z -> ProbeEnv)
    (mtrMode : bool) (maxHops : Z) : option (list Z) :=
  match discoverHops counterBits nt test lookupAddr envs maxHops with
  | DiscReturn hops (Some _) => Some []
  | DiscReturn hops None =>
      if negb mtrMode then Some [] else Some (mtrProbersFrom 0 hops)
  | _ => None
  end.

(** ** server.go: the TCP tests, the connection handler and the reaper *)

Module ServerTcp.

(** Modelled from the spec: [EthrClientParam] ("buffer size, reverse flag,
    RTT-batch size") and [EthrTestID], declared outside the sources, with
    the fields server.go reads.  [BufferSize] and [RttCount] are compared
    with a uint32 loop variable, so they are uint32. *)
Record EthrClientParam : Type := mkClientParam {
  BufferSize : Z;
  RttCount : Z;
  Reverse : bool
}.

Record EthrTestID : Type := mkTestID {
  Protocol : EthrProtocol;
  Type_ : EthrTestType
}.

(** [atomic.AddUint64(&test.testResult.bw, n)],
    [atomic.AddUint64(&test.testResult.cps, n)],
    [atomic.SwapUint64(&test.testResult.latency, v)] and
    [v.isActive = false] on the test a pointer refers to. *)
Definition addBw (n : Z) (t : ethrTest) : ethrTest :=
  let r := testResult t in
  mkEthrTest (remoteIP t) (protocol t) (testType t)
    (mkTestResult (uint64 (bw r + n)) (cps r) (pps r) (latency r))
    (lastAccess t) (isActive t).

Definition addCps (n : Z) (t : ethrTest) : ethrTest :=
  let r := testResult t in
  mkEthrTest (remoteIP t) (protocol t) (testType t)
    (mkTestResult (bw r) (uint64 (cps r + n)) (pps r) (latency r))
    (lastAccess t) (isActive t).

Definition swapLatency (v : Z) (t : ethrTest) : ethrTest :=
  let r := testResult t in
  mkEthrTest (remoteIP t) (protocol t) (testType t)
    (mkTestResult (bw r) (cps r) (pps r) v)
    (lastAccess t) (isActive t).

Definition setInactive (t : ethrTest) : ethrTest :=
  mkEthrTest (remoteIP t) (protocol t) (testType t) (testResult t)
    (lastAccess t) false.

(** What a connection handler does that is visible from outside, in
    order: the calls on the connection, the lines it hands to the UI,
    and the steps of its deferred clean-up. *)
Inductive SrvEvent : Type :=
| EvRead
| EvReadFull (n : Z)
| EvWrite (data : list Z)
| EvEmitTestHdr
| EvEmitLatencyHdr
| EvEmitLatencyResults (r : LatencyResult)
| EvSleep (d : Z)
| EvSafeDeleteTest (p : loc)
| EvClose.

(** How far a routine got: it returned, it panicked, or it is still
    inside a call when the inputs end. *)
Inductive TestEnd : Type :=
| TestReturned
| TestPanicked
| TestRunning.

(** *** srvrRunTCPBandwidthTest, lines 163-182 *)

(** Lines 166-168: [buff[i] = byte(i)] for [i] from 0 while
    [i < BufferSize], over [n] remaining iterations. *)
Fixpoint fillBuffer (n : nat) (i : Z) (buff : list Z) : list Z :=
  match n with
  | O => buff
  | S n' => fillBuffer n' (uint32 (i + 1)) (<[Z.to_nat i := uint8 i]> buff)
  end.

(** Lines 164-168. *)
Definition bandwidthBuffer (size : Z) : list Z :=
  fillBuffer (Z.to_nat size) 0 (replicate (Z.to_nat size) 0).

(** The loop of lines 169-181, one element of [ios] per call of
    [conn.Write] or [io.ReadFull]: [true] when the call returned no
    error.  What [io.ReadFull] stores in [buff] is never read again. *)
Fixpoint bandwidthLoop (p : loc) (reverse : bool) (buff : list Z) (size : Z)
    (ios : list bool) (st : gmap loc ethrTest)
    : gmap loc ethrTest * list SrvEvent * TestEnd :=
  match ios with
  | [] => (st, [], TestRunning)
  | ok :: rest =>
      let ev := if reverse then EvWrite buff
                else EvReadFull (Z.of_nat (length buff)) in
      if ok then
        let '(st', evs, e) :=
          bandwidthLoop p reverse buff size rest (alter (addBw (uint64 size)) p st) in
        (st', ev :: evs, e)
      else (st, [ev], TestReturned)
  end.

Definition srvrRunTCPBandwidthTest (p : loc) (clientParam : EthrClientParam)
    (ios : list bool) (st : gmap loc ethrTest)
    : gmap loc ethrTest * list SrvEvent * TestEnd :=
  let size := BufferSize clientParam in
  let buff := bandwidthBuffer size in
  bandwidthLoop p (Reverse clientParam) buff size ios st.

(** *** srvrRunTCPLatencyTest, lines 184-241 *)

(** One iteration of the loop of lines 194-208 as the connection and the
    clock decide it: the write fails, the read fails, or the read
    delivers [payload] and [time.Since(s1)] is [e2]. *)
Inductive RoundTrip : Type :=
| RtWriteErr
| RtReadErr
| RtOk (payload : list Z) (e2 : Z).

(** One iteration of the outer loop: the [io.ReadFull] of line 189
    ([None]: an error) and the round trips that follow. *)
Record LatencyBatchIO : Type := mkBatchIO {
  syncRead : option (list Z);
  roundTrips : list RoundTrip
}.

Inductive RoundsEnd : Type :=
| RoundsDone (bytes : list Z) (latencyNumbers : list Z)
| RoundsErr
| RoundsRunning.

(** Lines 194-208 from index [i], with [n] iterations to go. *)
Fixpoint latencyRounds (n : nat) (i : Z) (rts : list RoundTrip)
    (bytes latencyNumbers : list Z) : list SrvEvent * RoundsEnd :=
  match n with
  | O => ([], RoundsDone bytes latencyNumbers)
  | S n' =>
      match rts with
      | [] => ([], RoundsRunning)
      | RtWriteErr :: _ => ([EvWrite bytes], RoundsErr)
      | RtReadErr :: _ =>
          ([EvWrite bytes; EvReadFull (Z.of_nat (length bytes))], RoundsErr)
      | RtOk payload e2 :: rest =>
          let '(evs, e) :=
            latencyRounds n' (uint32 (i + 1)) rest payload
                          (<[Z.to_nat i := e2]> latencyNumbers) in
          (EvWrite bytes :: EvReadFull (Z.of_nat (length bytes)) :: evs, e)
      end
  end.

(** The loop of lines 188-240, one element of [script] per iteration.
    A batch that panics does so before line 226 when [rttCount] is 0
    (the division of line 213) and after it otherwise (an index). *)
Fixpoint latencyLoop (p : loc) (rttCount : Z) (script : list LatencyBatchIO)
    (bytes latencyNumbers : list Z) (st : gmap loc ethrTest)
    : gmap loc ethrTest * list SrvEvent * TestEnd :=
  match script with
  | [] => (st, [], TestRunning)
  | b :: rest =>
      let sync := EvReadFull (Z.of_nat (length bytes)) in
      match syncRead b with
      | None => (st, [sync], TestReturned)
      | Some payload =>
          match latencyRounds (Z.to_nat rttCount) 0 (roundTrips b) payload latencyNumbers with
          | (evs, RoundsErr) => (st, sync :: evs, TestReturned)
          | (evs, RoundsRunning) => (st, sync :: evs, TestRunning)
          | (evs, RoundsDone bytes' numbers) =>
              match latencyBatch rttCount numbers with
              | None =>
                  let st' :=
                    if rttCount =? 0 then st
                    else alter (swapLatency
                                  (uint64 (Z.quot (sumNanos numbers) rttCount))) p st in
                  (st', sync :: evs, TestPanicked)
              | Some r =>
                  let '(st', evs', e) :=
                    latencyLoop p rttCount rest bytes' (SliceStable numbers)
                                (alter (swapLatency (stored r)) p st) in
                  (st', sync :: evs ++ EvEmitLatencyResults r :: evs', e)
              end
          end
      end
  end.

Definition srvrRunTCPLatencyTest (p : loc) (clientParam : EthrClientParam)
    (script : list LatencyBatchIO) (st : gmap loc ethrTest)
    : gmap loc ethrTest * list SrvEvent * TestEnd :=
  let bytes := replicate (Z.to_nat (BufferSize clientParam)) 0 in
  let rttCount := RttCount clientParam in
  let latencyNumbers := replicate (Z.to_nat rttCount) 0 in
  latencyLoop p rttCount script bytes latencyNumbers st.

(** *** handshakeWithClient, lines 58-82 *)

(** Modelled from the spec: the "sync/ack record", declared outside the
    sources; [msgType] is compared with the constant [EthrSyn]. *)
Record EthrMsg : Type := mkEthrMsg {
  msgType : Z;
  synTestID : EthrTestID;
  synClientParam : EthrClientParam
}.

Inductive HandshakeError : Type :=
| ErrInvalid
| ErrAckWrite.

(** [decoded]: what [decoder.Decode] made of the buffer ([None]: an
    error); [ack]: the bytes the encoder left in [writeBuffer];
    [writeErr]: whether [conn.Write] fails.  The result of
    [encoder.Encode] is overwritten at line 76.  On the error path the
    named results have their zero values ([None] here). *)
Definition handshakeWithClient (EthrSyn : Z) (decoded : option EthrMsg)
    (ack : list Z) (writeErr : bool)
    : option (EthrTestID * EthrClientParam) * option HandshakeError * list SrvEvent :=
  match decoded with
  | None => (None, Some ErrInvalid, [])
  | Some ethrMsg =>
      if negb (msgType ethrMsg =? EthrSyn) then (None, Some ErrInvalid, [])
      else
        (Some (synTestID ethrMsg, synClientParam ethrMsg),
         (if writeErr then Some ErrAckWrite else None),
         [EvWrite ack])
  end.

(** *** srvrHandleNewTcpConn, lines 100-161 *)

(** What the connection and the client decide. *)
Record TcpConn : Type := mkTcpConn {
  connRemote : option string;
  connLocalOk : bool;
  connRead : option (list Z);
  connAck : list Z;
  connAckWriteErr : bool;
  connBandwidthIos : list bool;
  connLatencyScript : list LatencyBatchIO
}.

Section TcpHandler.

(** Outside the sources: the registry with [createOrGetTest] and
    [safeDeleteTest], the gob decoder, the constant [EthrSyn], and
    [testParam], the identifier that lines 155 and 158 pass to the
    tests. *)
Variable Registry : Type.
Variable createOrGetTest :
  string -> EthrProtocol -> EthrTestType ->
  gmap loc ethrTest * Registry -> (option loc * bool) * (gmap loc ethrTest * Registry).
Variable safeDeleteTest :
  loc -> gmap loc ethrTest * Registry -> gmap loc ethrTest * Registry.
Variable gobDecode : list Z -> option EthrMsg.
Variable EthrSyn : Z.
Variable testParam : EthrClientParam.

(** Lines 139-160 for the test [p]: what runs between the registration of
    the deferred clean-up and the return. *)
Definition tcpConnBody (c : TcpConn) (p : loc) (st : gmap loc ethrTest)
    : gmap loc ethrTest * list SrvEvent * TestEnd :=
  let st := alter (addCps 1) p st in
  match connRead c with
  | None => (st, [EvRead], TestReturned)
  | Some buffer =>
      let '(res, err, hs) :=
        handshakeWithClient EthrSyn (gobDecode buffer) (connAck c) (connAckWriteErr c) in
      match err, res with
      | None, Some (testID, clientParam) =>
          match Protocol testID, Type_ testID with
          | TCP, Bandwidth =>
              let '(st', evs, e) :=
                srvrRunTCPBandwidthTest p testParam (connBandwidthIos c) st in
              (st', EvRead :: hs ++ evs, e)
          | TCP, Latency =>
              let '(st', evs, e) :=
                srvrRunTCPLatencyTest p testParam (connLatencyScript c) st in
              (st', EvRead :: hs ++ EvEmitLatencyHdr :: evs, e)
          | _, _ => (st, EvRead :: hs, TestReturned)
          end
      | _, _ => (st, EvRead :: hs, TestReturned)
      end
  end.

(** The deferred calls, last registered first: the function of lines
    132-135, then [conn.Close].  They run when the function returns and
    when it panics, not while it is still running. *)
Definition runDeferred (test : option loc) (e : TestEnd)
    (s : gmap loc ethrTest * Registry)
    : (gmap loc ethrTest * Registry) * list SrvEvent :=
  match e with
  | TestRunning => (s, [])
  | _ =>
      match test with
      | Some p =>
          (safeDeleteTest p s, [EvSleep 2000000000; EvSafeDeleteTest p; EvClose])
      | None => (s, [EvClose])
      end
  end.

Definition srvrHandleNewTcpConn (c : TcpConn) (s : gmap loc ethrTest * Registry)
    : (gmap loc ethrTest * Registry) * list SrvEvent * TestEnd :=
  match connRemote c with
  | None => (runDeferred None TestReturned s, TestReturned)
  | Some server =>
      if negb (connLocalOk c) then (runDeferred None TestReturned s, TestReturned)
      else
        let '(test, isNew, s) := createOrGetTest server TCP All s in
        match test with
        | None => (runDeferred None TestReturned s, TestReturned)
        | Some p =>
            let hdr := if isNew then [EvEmitTestHdr] else [] in
            let '(st, evs, e) := tcpConnBody c p (fst s) in
            let '(s', dfr) := runDeferred (Some p) e (st, snd s) in
            (s', hdr ++ evs ++ dfr, e)
        end
  end.

(** *** The reaper of srvrRunUDPPacketHandler, lines 278-297 *)

(** Lines 282-294 for the key [k] and the test [p] it maps to; [now1] and
    [now2] are the clock at the two calls of [time.Since]. *)
Definition reapTest (k : string) (p : loc) (now1 now2 : Z) (w : Worker Registry)
    : Worker Registry :=
  match store w !! p with
  | None => w
  | Some v =>
      let st :=
        if timeSub now1 (lastAccess v) >? 200 * 1000000
        then <[p := setInactive v]> (store w) else store w in
      if timeSub now2 (lastAccess v) >? 2 * 1000000000 then
        let '(st', reg') := safeDeleteTest p (st, registry w) in
        mkWorker (delete k (tests w)) st' reg'
      else mkWorker (tests w) st (registry w)
  end.

(** One pass of the [range] loop, lines 281-295, over the keys in the
    order the runtime yields them, each with its two clock readings; a
    key that is no longer in the map is not visited. *)
Fixpoint reapSweep (visits : list (string * (Z * Z))) (w : Worker Registry)
    : Worker Registry :=
  match visits with
  | [] => w
  | (k, (now1, now2)) :: rest =>
      match tests w !! k with
      | Some p => reapSweep rest (reapTest k p now1 now2 w)
      | None => reapSweep rest w
      end
  end.

End TcpHandler.

Arguments runDeferred {Registry} _ _ _ _.
Arguments srvrHandleNewTcpConn {Registry} _ _ _ _ _ _ _.
Arguments reapTest {Registry} _ _ _ _ _ _.
Arguments reapSweep {Registry} _ _ _.

Section WholeHandler.

Variable Registry : Type.
Variable createOrGetTest :
  string -> EthrProtocol -> EthrTestType ->
  gmap loc ethrTest * Registry -> (option loc * bool) * (gmap loc ethrTest * Registry).
Variable safeDeleteTest :
  loc -> gmap loc ethrTest * Registry -> gmap loc ethrTest * Registry.

(** *** srvrRunUDPPacketHandler as a whole, lines 266-330

    The packet loop and the reaper that the function starts run side by
    side on the same local map and the same tests.  A run is the order in
    which the scheduler lets them take their steps: an iteration of the
    packet loop with the result of its read, or an iteration of the
    reaper's [range] loop with its key and its two clock readings. *)
Inductive HandlerStep : Type :=
| StepRead (r : option Datagram)
| StepReap (k : string) (now1 now2 : Z).

(** The condition of line 290 for the test [p]: whether lines 291-293
    run. *)
Definition reapDeletes (p : loc) (now2 : Z) (w : Worker Registry) : bool :=
  match store w !! p with
  | Some v => timeSub now2 (lastAccess v) >? 2 * 1000000000
  | None => false
  end.

(** The worker after the steps, whether the packet loop is still running
    (the reaper outlives it), and the tests handed to [safeDeleteTest], in
    order. *)
Fixpoint srvrRunUDPPacketHandlerWithReaper (steps : list HandlerStep)
    (loopRunning : bool) (w : Worker Registry)
    : Worker Registry * bool * list loc :=
  match steps with
  | [] => (w, loopRunning, [])
  | StepRead r :: rest =>
      if loopRunning then
        match r with
        | None => srvrRunUDPPacketHandlerWithReaper rest false w
        | Some d =>
            let '(w', continue) := handleDatagram createOrGetTest d w in
            srvrRunUDPPacketHandlerWithReaper rest continue w'
        end
      else srvrRunUDPPacketHandlerWithReaper rest false w
  | StepReap k now1 now2 :: rest =>
      match tests w !! k with
      | Some p =>
          let '(w', running, deleted) :=
            srvrRunUDPPacketHandlerWithReaper rest loopRunning
              (reapTest safeDeleteTest k p now1 now2 w) in
          (w', running, if reapDeletes p now2 w then p :: deleted else deleted)
      | None => srvrRunUDPPacketHandlerWithReaper rest loopRunning w
      end
  end.

End WholeHandler.

Arguments reapDeletes {Registry} _ _ _.
Arguments srvrRunUDPPacketHandlerWithReaper {Registry} _ _ _ _ _.

End ServerTcp.

Import ServerTcp.

(** ** Further derived notions and sample inputs *)

(** The entry that the loop of [discoverHops] stores for TTL [ttl]
    (lines 75-89): the data of that probe, with the names when the probe
    returned no error. *)
Definition hopEntry (counterBits : Z) (nt : NetTools) (test : Test)
    (lookupAddr : string -> option (list string)) (envs : Z -> ProbeEnv)
    (ttl : Z) : HopData :=
  let '(hopData, outcome) :=
    probeHop counterBits nt test ttl "" (envs ttl) zeroHopData in
  match outcome with
  | Returned None _ =>
      let '(tname, name) := lookupHopName lookupAddr (Addr hopData) in
      setNames hopData tname name
  | _ => hopData
  end.

(** The probe at TTL [i] returns having reached the destination. *)
Definition reaches (counterBits : Z) (nt : NetTools) (test : Test)
    (envs : Z -> ProbeEnv) (i : Z) : Prop :=
  exists h err,
    probeHop counterBits nt test i "" (envs i) zeroHopData = (h, Returned err true).

(** The probe at TTL [i] never returns. *)
Definition hangs (counterBits : Z) (nt : NetTools) (test : Test)
    (envs : Z -> ProbeEnv) (i : Z) : Prop :=
  exists h,
    probeHop counterBits nt test i "" (envs i) zeroHopData = (h, Waiting).

(** The largest of a list of durations and 0. *)
Definition maxElapsed (rs : list (string * Z)) : Z :=
  fold_right (fun r m => Z.max (snd r) m) 0 rs.

Definition sumElapsed (rs : list (string * Z)) : Z :=
  fold_right (fun r s => snd r + s) 0 rs.

(** The measurements of a hop: everything but the three counters. *)
Definition sameMeasurements (h h' : HopData) : Prop :=
  Addr h' = Addr h /\ Name h' = Name h /\ FullName h' = FullName h
  /\ Last h' = Last h /\ Best h' = Best h /\ Worst h' = Worst h
  /\ Total h' = Total h.

(** The sum of a list of durations, in unbounded integers. *)
Definition sumZ (l : list Z) : Z := fold_right Z.add 0 l.

(** The values a latency result reports, besides the average. *)
Definition reported (r : LatencyResult) : list Z :=
  [min r; max r; p50 r; p90 r; p95 r; p99 r; p999 r; p9999 r].

(** The number of calls that succeed before the first failure. *)
Fixpoint successes (ios : list bool) : Z :=
  match ios with
  | true :: rest => 1 + successes rest
  | _ => 0
  end.

(** The samples of one batch of the latency test: the elapsed times of its
    first [rttCount] round trips. *)
Fixpoint roundTripTimes (n : nat) (rts : list RoundTrip) : list Z :=
  match n, rts with
  | S n', RtOk _ e2 :: rest => e2 :: roundTripTimes n' rest
  | _, _ => []
  end.

Definition batchSamples (rttCount : Z) (b : LatencyBatchIO) : list Z :=
  roundTripTimes (Z.to_nat rttCount) (roundTrips b).

(** Two tests that differ at most in a given part. *)
Definition sameButBw (t t' : ethrTest) : Prop :=
  remoteIP t' = remoteIP t /\ protocol t' = protocol t /\ testType t' = testType t
  /\ cps (testResult t') = cps (testResult t)
  /\ pps (testResult t') = pps (testResult t)
  /\ latency (testResult t') = latency (testResult t)
  /\ lastAccess t' = lastAccess t /\ isActive t' = isActive t.

(** The identity of a test and the fields that only its creator and the
    reaper write. *)
Definition sameIdentity (t t' : ethrTest) : Prop :=
  remoteIP t' = remoteIP t /\ protocol t' = protocol t /\ testType t' = testType t
  /\ isActive t' = isActive t.

(** The events of the deferred clean-up. *)
Definition isCleanup (ev : SrvEvent) : bool :=
  match ev with
  | EvSleep _ | EvSafeDeleteTest _ | EvClose => true
  | _ => false
  end.

(** A registry for the examples: [safeDeleteTest] removes the test from
    the store and from the registry. *)
Definition sampleSafeDeleteTest (p : loc) (s : gmap loc ethrTest * SpecRegistry)
    : gmap loc ethrTest * SpecRegistry :=
  (delete p (fst s), filter (fun e => negb (Pos.eqb (snd e) p)) (snd s)).

Definition sampleSyn : EthrMsg :=
  mkEthrMsg 1 (mkTestID TCP Bandwidth) (mkClientParam 4 3 false).

(** A decoder for the examples: a buffer that starts with byte 1 is a SYN
    for a TCP bandwidth test, everything else does not decode. *)
Definition sampleDecode (buffer : list Z) : option EthrMsg :=
  match buffer with
  | 1 :: _ => Some sampleSyn
  | _ => None
  end.

Definition sampleConn : TcpConn :=
  mkTcpConn (Some "10.0.0.7"%string) true (Some [1; 0; 0]) [2; 0] false
            [true; true; false] [].

(** A connection whose first message does not decode. *)
Definition garbageConn : TcpConn :=
  mkTcpConn (Some "10.0.0.7"%string) true (Some [9; 9]) [2; 0] false [] [].

(** What a test routine may do to the store: it leaves every other test
    alone and changes at most [bw] and [latency] of its own. *)
Definition onlyResults (p : loc) (st st' : gmap loc ethrTest) : Prop :=
  (forall q, q <> p -> st' !! q = st !! q)
  /\ forall t, st !! p = Some t ->
       exists t', st' !! p = Some t'
                  /\ sameIdentity t t' /\ lastAccess t' = lastAccess t
                  /\ cps (testResult t') = cps (testResult t)
                  /\ pps (testResult t') = pps (testResult t).

(** A run of events without any step of the clean-up. *)
Definition noCleanup (evs : list SrvEvent) : Prop :=
  Forall (fun ev => isCleanup ev = false) evs.

(** The test a connection gets from the registry, lines 103-120. *)
Definition obtainedTest {Registry : Type}
    (createOrGetTest :
       string -> EthrProtocol -> EthrTestType ->
       gmap loc ethrTest * Registry -> (option loc * bool) * (gmap loc ethrTest * Registry))
    (c : TcpConn) (s : gmap loc ethrTest * Registry) : option loc :=
  match connRemote c with
  | Some server =>
      if connLocalOk c then fst (fst (createOrGetTest server TCP All s)) else None
  | None => None
  end.

(** The datagrams that the packet loop reads in a run, in order. *)
Fixpoint datagramsOf (steps : list HandlerStep) : list Datagram :=
  match steps with
  | [] => []
  | StepRead (Some d) :: rest => d :: datagramsOf rest
  | _ :: rest => datagramsOf rest
  end.

(** A step that is not the packet loop reading anything but a datagram
    from the remote [k]. *)
Definition readsFrom (k : string) (s : HandlerStep) : Prop :=
  match s with
  | StepRead r => exists d, r = Some d /\ dgServer d = k
  | StepReap _ _ _ => True
  end.

(** Two datagrams from 10.0.0.7 with a pause of 300 ms between them, in
    which the reaper visits the remote's entry. *)
Definition pausedTraffic : list HandlerStep :=
  [StepRead (Some secondDatagram);
   StepReap "10.0.0.7" 300006000 300006100;
   StepRead (Some (mkDatagram "10.0.0.7" 60 false 400000000))].

(** A hop that does not answer the TTL-1 probe: the dial fails, and the
    listener gets an echo reply, a TimeExceeded that quotes the ports of the
    TTL-2 probe (local port 8890), and then [more]. *)
Definition echoReply : IcmpRecv := mkIcmpRecv (ICMPv4 0) [0; 0; 0; 1] "10.0.0.9" 3000000.

Definition silentHopEnv (more : list IcmpRecv) : ProbeEnv :=
  mkProbeEnv false 2000000 (fun _ _ _ _ => None)
             ([echoReply; replyFrom "10.0.0.1" 186] ++ more).

(** A message that answers the probe with fingerprint [b]: a TimeExceeded
    (type 11 of ICMPv4, type 3 of ICMPv6) whose quoted packet holds [b]
    after at least one other byte and does not start with [b]. *)
Definition answersProbe (b : list Z) (m : IcmpRecv) : Prop :=
  (rType m = ICMPv4 11 \/ rType m = ICMPv6 3)
  /\ (exists pre post, pre <> [] /\ rData m = pre ++ b ++ post)
  /\ ~ (exists post, rData m = b ++ post).

(** * Properties *)

Example f64_99_9_is_nearest : f64_div (f64_of_Z 999) (f64_of_Z 10) = f64_99_9.
Proof. vm_compute. reflexivity. Qed.

Example f64_99_99_is_nearest : f64_div (f64_of_Z 9999) (f64_of_Z 100) = f64_99_99.
Proof. vm_compute. reflexivity. Qed.

(** ** Machine integers *)

Section GoIntFacts.

Lemma wrapU_small bits z : 0 <= z < 2 ^ bits -> wrapU bits z = z.
Proof. intros H. unfold wrapU. apply Z.mod_small. exact H. Qed.

Lemma wrapU_add_l bits x y : wrapU bits (wrapU bits x + y) = wrapU bits (x + y).
Proof. unfold wrapU. apply Zplus_mod_idemp_l. Qed.

Lemma int64_small z : isInt64 z -> int64 z = z.
Proof.
  unfold isInt64, minInt64, maxInt64, int64, wrapS. intros H.
  rewrite Z.mod_small; lia.
Qed.

Lemma int64_range z : isInt64 (int64 z).
Proof.
  unfold isInt64, minInt64, maxInt64, int64, wrapS.
  pose proof (Z.mod_pos_bound (z + 2 ^ (64 - 1)) (2 ^ 64) ltac:(lia)). lia.
Qed.

Lemma int64_add_l x y : int64 (int64 x + y) = int64 (x + y).
Proof.
  unfold int64, wrapS. f_equal.
  replace ((x + 2 ^ (64 - 1)) mod 2 ^ 64 - 2 ^ (64 - 1) + y + 2 ^ (64 - 1))
    with ((x + 2 ^ (64 - 1)) mod 2 ^ 64 + y) by lia.
  rewrite Zplus_mod_idemp_l. f_equal. lia.
Qed.

End GoIntFacts.

(** A check over a range of integers. *)
Lemma checkFrom_spec f k : forall s,
  checkFrom f k s = true -> forall n, s <= n < s + Z.of_nat k -> f n = true.
Proof.
  induction k as [|k IH]; intros s H n Hn; [lia|].
  cbn [checkFrom] in H. apply andb_prop in H as [Hs Hrest].
  destruct (Z.eq_dec n s) as [->|Hne]; [exact Hs|].
  apply (IH (s + 1) Hrest). lia.
Qed.

(** Case analysis on every integer comparison of the goal. *)
Ltac case_cmp_step :=
  repeat first
    [ rewrite Z.gtb_ltb
    | match goal with
      | |- context [?a <? ?b] => destruct (Z.ltb_spec a b)
      | |- context [?a <=? ?b] => destruct (Z.leb_spec a b)
      | |- context [?a =? ?b] => destruct (Z.eqb_spec a b)
      | H : context [?a <? ?b] |- _ => destruct (Z.ltb_spec a b)
      | H : context [?a <=? ?b] |- _ => destruct (Z.leb_spec a b)
      | H : context [?a =? ?b] |- _ => destruct (Z.eqb_spec a b)
      end ];
  cbn [andb orb negb] in *.

Ltac case_cmp :=
  repeat (progress case_cmp_step); try reflexivity; try lia.

(** ** calcHopData *)

Section CalcHopData.

Variable counterBits : Z.

Lemma aggregate_cons h r rs :
  aggregate counterBits h (r :: rs)
  = aggregate counterBits (calcHopData counterBits h (fst r) (snd r)) rs.
Proof. reflexivity. Qed.

Lemma calcHopData_stats h h' peer peer' e :
  stats h = stats h' ->
  stats (calcHopData counterBits h peer e) = stats (calcHopData counterBits h' peer' e).
Proof.
  unfold stats. intros H. injection H as Hb Hw Ht Hr.
  cbn [calcHopData Best Worst Total Rcvd]. rewrite Hb, Hw, Ht, Hr. reflexivity.
Qed.

Lemma calcHopData_swap h p1 e1 p2 e2 :
  stats (calcHopData counterBits (calcHopData counterBits h p1 e1) p2 e2)
  = stats (calcHopData counterBits (calcHopData counterBits h p2 e2) p1 e1).
Proof.
  unfold stats. cbn [calcHopData Best Worst Total Rcvd].
  rewrite !int64_add_l.
  replace (Total h + e2 + e1) with (Total h + e1 + e2) by lia.
  repeat match goal with |- (_, _) = (_, _) => f_equal end.
  - case_cmp.
  - case_cmp.
Qed.

Lemma aggregate_stats_perm (l1 l2 : list (string * Z)) :
  Permutation l1 l2 ->
  forall h h', stats h = stats h' ->
    stats (aggregate counterBits h l1) = stats (aggregate counterBits h' l2).
Proof.
  induction 1 as [|x l1 l2 _ IH|x y l|l1 l2 l3 _ IH1 _ IH2]; intros h h' Hs.
  - exact Hs.
  - cbn [aggregate fold_left]. apply IH. apply calcHopData_stats, Hs.
  - cbn [aggregate fold_left].
    assert (Hrest : forall a b, stats a = stats b ->
              stats (aggregate counterBits a l) = stats (aggregate counterBits b l)).
    { induction l as [|z l IHl]; intros a b Hab; [exact Hab|].
      cbn [aggregate fold_left]. apply IHl, calcHopData_stats, Hab. }
    apply Hrest. rewrite calcHopData_swap.
    apply calcHopData_stats, calcHopData_stats, Hs.
  - rewrite (IH1 h h' Hs). apply IH2. reflexivity.
Qed.

(** With a zero-initialised [Best], no non-negative observation is ever
    below it: the test of line 186 never fires. *)
Lemma aggregate_zero_best (rs : list (string * Z)) :
  Forall (fun r => 0 <= snd r) rs ->
  forall h, Best h = 0 -> Best (aggregate counterBits h rs) = 0.
Proof.
  induction 1 as [|r rs Hr _ IH]; intros h Hb; [exact Hb|].
  cbn [aggregate fold_left]. apply IH.
  cbn [calcHopData Best]. rewrite Hb. cbn beta in Hr. case_cmp.
Qed.

(** What line 186-188 computes in general: the minimum of the initial
    [Best] and the observations. *)
Lemma aggregate_best_min (rs : list (string * Z)) (h : HopData) :
  Best (aggregate counterBits h rs) = fold_left Z.min (map snd rs) (Best h).
Proof.
  revert h. induction rs as [|r rs IH]; intros h; [reflexivity|].
  rewrite aggregate_cons, IH. cbn [map fold_left]. f_equal.
  cbn [calcHopData Best]. case_cmp.
Qed.

End CalcHopData.

(** C3. The claim: from a zero-initialised HopData the first successful
    probe with elapsed time [e > 0] leaves [best = e].  The code at the
    input [zeroHopData], peer 10.0.0.1, elapsed 5 ms: [best] is still 0
    after the probe, and still 0 after a second probe of 3 ms, where the
    minimum of the observations is 3 ms. *)
Theorem calcHopData_zero_init_best_stuck :
  Best (calcHopData 32 zeroHopData "10.0.0.1" 5000000) = 0
  /\ Best (calcHopData 32 zeroHopData "10.0.0.1" 5000000) <> 5000000
  /\ Best (aggregate 32 zeroHopData [("10.0.0.1", 5000000); ("10.0.0.1", 3000000)]) = 0
  /\ Worst (calcHopData 32 zeroHopData "10.0.0.1" 5000000) = 5000000.
Proof. repeat split; try reflexivity. discriminate. Qed.

(** C8. Folding [calcHopData] over two orderings of the same probe results,
    from the same initial HopData, gives the same [best], [worst], [total]
    and [rcvd]. *)
Theorem aggregate_permutation_invariant (counterBits : Z) (h : HopData)
    (l1 l2 : list (string * Z)) :
  Permutation l1 l2 ->
  Best (aggregate counterBits h l1) = Best (aggregate counterBits h l2)
  /\ Worst (aggregate counterBits h l1) = Worst (aggregate counterBits h l2)
  /\ Total (aggregate counterBits h l1) = Total (aggregate counterBits h l2)
  /\ Rcvd (aggregate counterBits h l1) = Rcvd (aggregate counterBits h l2).
Proof.
  intros Hp.
  pose proof (aggregate_stats_perm counterBits l1 l2 Hp h h eq_refl) as H.
  unfold stats in H. injection H as Hb Hw Ht Hr. auto.
Qed.

Lemma aggregate_permutation_invariant_witness :
  Permutation [("10.0.0.1"%string, 7); ("10.0.0.2"%string, 3)]
              [("10.0.0.2"%string, 3); ("10.0.0.1"%string, 7)]
  /\ Total (aggregate 32 zeroHopData [("10.0.0.1"%string, 7); ("10.0.0.2"%string, 3)])
     = Total (aggregate 32 zeroHopData [("10.0.0.2"%string, 3); ("10.0.0.1"%string, 7)]).
Proof.
  split; [apply perm_swap|].
  apply (aggregate_permutation_invariant 32 zeroHopData
           [("10.0.0.1"%string, 7); ("10.0.0.2"%string, 3)]
           [("10.0.0.2"%string, 3); ("10.0.0.1"%string, 7)]).
  apply perm_swap.
Defined.

(** ** The probe: local port, fingerprint, receiver *)

Example ParseUint16_port : ParseUint16 "8080" = 8080.
Proof. reflexivity. Qed.

Example ParseUint16_empty : ParseUint16 "" = 0.
Proof. reflexivity. Qed.

Example ParseUint16_syntax : ParseUint16 "80a" = 0.
Proof. reflexivity. Qed.

Example ParseUint16_range : ParseUint16 "70000" = 65535.
Proof. reflexivity. Qed.

Lemma parseUintFrom_range s : forall n, 0 <= n <= 65535 -> 0 <= parseUintFrom n s <= 65535.
Proof.
  induction s as [|c s IH]; intros n Hn; cbn [parseUintFrom]; [exact Hn|].
  unfold digitOf. case_cmp; apply IH; lia.
Qed.

Lemma ParseUint16_range_bound s : 0 <= ParseUint16 s <= 65535.
Proof.
  destruct s as [|c s]; [cbn; lia|].
  unfold ParseUint16. apply parseUintFrom_range. lia.
Qed.

Lemma ParseUint16_all_ports :
  checkFrom (fun n => ParseUint16 (decimal n) =? n) (Z.to_nat 65536) 0 = true.
Proof. vm_compute. reflexivity. Qed.

(** Every port number is read back from its decimal numeral. *)
Lemma ParseUint16_decimal n : 0 <= n <= 65535 -> ParseUint16 (decimal n) = n.
Proof.
  intros Hn. apply Z.eqb_eq.
  apply (checkFrom_spec _ _ _ ParseUint16_all_ports n). lia.
Qed.

Lemma PutUint16_big_endian v :
  0 <= v < 2 ^ 16 -> PutUint16 v = [v / 256; v mod 256].
Proof.
  intros Hv. unfold PutUint16, uint8, wrapU.
  rewrite Z.shiftr_div_pow2 by lia.
  change (2 ^ 8) with 256.
  rewrite (Z.mod_small (v / 256)); [reflexivity|].
  split; [apply Z.div_pos; lia|apply Z.div_lt_upper_bound; lia].
Qed.

Lemma probeLocalPort_mod nt hop :
  probeLocalPort nt hop
  = ((if LocalPort nt =? 0 then 8888 else LocalPort nt) + hop) mod 2 ^ 16.
Proof.
  unfold probeLocalPort, uint16, wrapU.
  rewrite Zplus_mod_idemp_r.
  destruct (LocalPort nt =? 0); reflexivity.
Qed.

Lemma hasPrefix_firstn sep : forall s,
  hasPrefix sep s = true -> firstn (length sep) s = sep.
Proof.
  induction sep as [|x sep IH]; intros s H; [reflexivity|].
  destruct s as [|y s]; [discriminate|].
  cbn [hasPrefix] in H. apply andb_prop in H as [Hxy Hrest].
  apply Z.eqb_eq in Hxy. subst y. cbn [length firstn]. f_equal. apply IH, Hrest.
Qed.

(** [bytes.Index] returns the first occurrence. *)
Lemma indexFrom_found sep : forall s i k,
  indexFrom i s sep = k -> 0 <= i <= k ->
  hasPrefix sep (skipn (Z.to_nat (k - i)) s) = true
  /\ forall j, (j < Z.to_nat (k - i))%nat -> hasPrefix sep (skipn j s) = false.
Proof.
  induction s as [|y s IH]; intros i k H Hk.
  - cbn [indexFrom] in H. destruct (hasPrefix sep []) eqn:E.
    + subst k. rewrite Z.sub_diag. split; [exact E|]. intros j Hj. cbn in Hj. lia.
    + lia.
  - cbn [indexFrom] in H. destruct (hasPrefix sep (y :: s)) eqn:E.
    + subst k. rewrite Z.sub_diag. split; [exact E|]. intros j Hj. cbn in Hj. lia.
    + assert (Hik : i + 1 <= k).
      { destruct (Z.le_gt_cases (i + 1) k) as [Hle|Hgt]; [exact Hle|].
        exfalso. clear IH E. revert i k H Hk Hgt.
        assert (G : forall s i, i <= indexFrom i s sep \/ indexFrom i s sep = -1).
        { clear. induction s as [|z s IHs]; intros i; cbn [indexFrom].
          - destruct (hasPrefix sep []); [left; lia|right; reflexivity].
          - destruct (hasPrefix sep (z :: s)); [left; lia|].
            destruct (IHs (i + 1)) as [Hl|Hr]; [left; lia|right; exact Hr]. }
        intros i k H Hk Hgt. destruct (G s (i + 1)) as [Hl|Hr]; lia. }
      destruct (IH (i + 1) k H ltac:(lia)) as [Hocc Hnone].
      replace (Z.to_nat (k - i)) with (S (Z.to_nat (k - (i + 1)))) by lia.
      split; [exact Hocc|].
      intros [|j] Hj; [exact E|]. cbn [skipn]. apply Hnone. lia.
Qed.

Lemma probeLost_spec hopIP peerAddr :
  probeLost hopIP peerAddr = true
  <-> peerAddr = ""%string \/ (hopIP <> ""%string /\ peerAddr <> hopIP).
Proof.
  unfold probeLost.
  destruct (String.eqb_spec peerAddr ""); destruct (String.eqb_spec hopIP "");
    destruct (String.eqb_spec peerAddr hopIP); cbn; intuition congruence.
Qed.

Lemma hasPrefix_iff sep : forall s,
  hasPrefix sep s = true <-> exists post, s = sep ++ post.
Proof.
  induction sep as [|x sep IH]; intros s.
  - split; [intros _; exists s; reflexivity|reflexivity].
  - destruct s as [|y s]; cbn [hasPrefix].
    + split; [discriminate|intros [post H]; discriminate H].
    + rewrite andb_true_iff, Z.eqb_eq, IH. split.
      * intros [-> [post ->]]. exists post. reflexivity.
      * intros [post H]. cbn in H. injection H as -> ->. split; [reflexivity|].
        exists post. reflexivity.
Qed.

Lemma indexFrom_lower sep : forall s i,
  indexFrom i s sep = -1 \/ i <= indexFrom i s sep.
Proof.
  induction s as [|z s IHs]; intros i; cbn [indexFrom].
  - destruct (hasPrefix sep []); [right; lia|left; reflexivity].
  - destruct (hasPrefix sep (z :: s)); [right; lia|].
    destruct (IHs (i + 1)) as [Hl|Hr]; [left; exact Hl|right; lia].
Qed.

Lemma indexFrom_none sep : forall s i,
  0 <= i -> indexFrom i s sep = -1 -> forall j, hasPrefix sep (skipn j s) = false.
Proof.
  induction s as [|z s IHs]; intros i Hi H j; cbn [indexFrom] in H.
  - destruct (hasPrefix sep []) eqn:E; [lia|]. destruct j; exact E.
  - destruct (hasPrefix sep (z :: s)) eqn:E; [lia|].
    destruct j as [|j]; [exact E|]. cbn [skipn]. apply (IHs (i + 1)); [lia|exact H].
Qed.

(** [bytes.Index(s, sep) > 0]: [sep] occurs in [s], and not at the
    start. *)
Lemma bytesIndex_positive s sep :
  (bytesIndex s sep >? 0) = true
  <-> (exists pre post, s = pre ++ sep ++ post) /\ ~ (exists post, s = sep ++ post).
Proof.
  unfold bytesIndex. rewrite Z.gtb_ltb, Z.ltb_lt. split.
  - intros Hpos.
    destruct (indexFrom_found sep s 0 (indexFrom 0 s sep) eq_refl ltac:(lia))
      as [Hocc Hnone].
    rewrite Z.sub_0_r in Hocc, Hnone. split.
    + apply hasPrefix_iff in Hocc as [post Hpost].
      exists (firstn (Z.to_nat (indexFrom 0 s sep)) s), post.
      rewrite <- Hpost. symmetry. apply firstn_skipn.
    + intros Hstart. apply hasPrefix_iff in Hstart.
      pose proof (Hnone O ltac:(lia)) as H0.
      change (hasPrefix sep s = false) in H0. congruence.
  - intros [(pre & post & Hs) Hstart].
    destruct (indexFrom_lower sep s 0) as [Hm|Hge].
    + pose proof (indexFrom_none sep s 0 ltac:(lia) Hm (length pre)) as Hn.
      assert (Ht : hasPrefix sep (skipn (length pre) s) = true).
      { apply hasPrefix_iff. exists post. rewrite Hs.
        rewrite skipn_app, skipn_all, Nat.sub_diag. reflexivity. }
      rewrite Ht in Hn. discriminate.
    + destruct (Z.eq_dec (indexFrom 0 s sep) 0) as [E0|]; [|lia].
      destruct (indexFrom_found sep s 0 0 E0 ltac:(lia)) as [Hocc _].
      cbn in Hocc. apply hasPrefix_iff in Hocc. contradiction.
Qed.

Lemma icmpAccepts_answers (b : list Z) (m : IcmpRecv) :
  icmpAccepts b m = true <-> answersProbe b m.
Proof.
  unfold icmpAccepts, answersProbe.
  assert (Ht : isTimeExceeded (rType m) = true
               <-> rType m = ICMPv4 11 \/ rType m = ICMPv6 3).
  { destruct (rType m) as [n|n]; cbn [isTimeExceeded]; rewrite Z.eqb_eq; split.
    - intros ->. left. reflexivity.
    - intros [H|H]; [injection H as ->; reflexivity|discriminate H].
    - intros ->. right. reflexivity.
    - intros [H|H]; [discriminate H|injection H as ->; reflexivity]. }
  destruct (isTimeExceeded (rType m)).
  - cbv zeta. rewrite bytesIndex_positive. split.
    + intros [(pre & post & Hd) Hnp]. split; [apply Ht; reflexivity|]. split; [|exact Hnp].
      exists pre, post. split; [|exact Hd]. intros ->. apply Hnp. exists post. exact Hd.
    + intros (_ & (pre & post & _ & Hd) & Hnp). split; [|exact Hnp].
      exists pre, post. exact Hd.
  - split; [discriminate|]. intros (H & _). apply Ht in H. discriminate H.
Qed.

Lemma answersProbe_rejected (b : list Z) (l : list IcmpRecv) :
  Forall (fun x => ~ answersProbe b x) l <-> Forall (fun x => icmpAccepts b x = false) l.
Proof.
  split; intros H; (eapply Forall_impl; [exact H|]); intros x Hx; cbn beta in *.
  - destruct (icmpAccepts b x) eqn:E; [|reflexivity].
    exfalso. apply Hx, icmpAccepts_answers, E.
  - intros Ha. apply icmpAccepts_answers in Ha. congruence.
Qed.

(** The receiver passes over the messages it rejects. *)
Lemma icmpReceiver_skips (b : list Z) (pre rest : list IcmpRecv) :
  Forall (fun x => icmpAccepts b x = false) pre ->
  icmpReceiver b (pre ++ rest) = icmpReceiver b rest.
Proof.
  induction 1 as [|m pre Hm _ IH]; [reflexivity|].
  cbn [app icmpReceiver]. rewrite Hm. exact IH.
Qed.

(** What the receiver hands over comes from the first message it
    accepts. *)
Lemma icmpReceiver_found (b : list Z) (stream : list IcmpRecv) (t : Z) (p : string) :
  icmpReceiver b stream = Some (t, p) ->
  exists pre m post,
    stream = pre ++ m :: post
    /\ Forall (fun x => icmpAccepts b x = false) pre
    /\ icmpAccepts b m = true /\ t = rNow m /\ p = rPeer m.
Proof.
  induction stream as [|m0 rest IH]; [discriminate|].
  cbn [icmpReceiver]. destruct (icmpAccepts b m0) eqn:Ea.
  - intros H. injection H as <- <-. exists [], m0, rest.
    repeat split; [constructor|exact Ea].
  - intros H. destruct (IH H) as (pre & m & post & -> & Hpre & Hm & Ht & Hp).
    exists (m0 :: pre), m, post. repeat split; try assumption.
    constructor; assumption.
Qed.

(** C9. At TTL [hop] the probe's local port is the configured port, or
    8888 when that is zero, plus [hop] modulo 2^16, and the fingerprint is
    the big-endian local port followed by the big-endian remote port (the
    number that [test.RemotePort] spells).  The receiver accepts a
    message exactly when it is a TimeExceeded whose quoted packet holds
    this fingerprint at an index greater than 0 and not at index 0, where
    [bytes.Index] would have stopped; what it hands over is the clock and
    the peer of the first such message.  [probeHop] uses both: it dials
    from this port with this TTL, and when the dial succeeds it ends with
    the destination as peer; when the dial fails it ends with the first
    message that answers this fingerprint, whatever other messages come
    before it, and it waits as long as there is none. *)
Theorem probe_port_fingerprint_receiver (counterBits : Z) (nt : NetTools)
    (test : Test) (hop : Z) (hopIP : string) (env : ProbeEnv) (h : HopData) :
  let base := if LocalPort nt =? 0 then 8888 else LocalPort nt in
  let lp := (base + hop) mod 2 ^ 16 in
  let rp := ParseUint16 (RemotePort test) in
  let b := [lp / 256; lp mod 256; rp / 256; rp mod 256] in
  let run := probeHop counterBits nt test hop hopIP env h in
  let sent := incrSent counterBits h in
  probeLocalPort nt hop = lp
  /\ probeFingerprint nt test hop = b
  /\ (forall port, 0 <= port <= 65535 -> RemotePort test = decimal port -> rp = port)
  /\ (forall m, icmpAccepts b m = true <-> answersProbe b m)
  /\ (forall stream t p,
        icmpReceiver b stream = Some (t, p)
        <-> exists pre m post,
              stream = pre ++ m :: post
              /\ Forall (fun x => ~ answersProbe b x) pre
              /\ answersProbe b m /\ t = rNow m /\ p = rPeer m)
  /\ (icmpNewConnFails env = false ->
      (forall endTime,
         dial env (DialAddr test) (LocalIP nt) lp hop = Some endTime ->
         run = finishProbe counterBits sent hopIP (RemoteIP test)
                           (timeSub endTime (startTime env)) true)
      /\ (dial env (DialAddr test) (LocalIP nt) lp hop = None ->
          (forall pre m post,
             received env = pre ++ m :: post ->
             Forall (fun x => ~ answersProbe b x) pre -> answersProbe b m ->
             run = finishProbe counterBits sent hopIP (rPeer m)
                               (timeSub (rNow m) (startTime env)) false)
          /\ (Forall (fun x => ~ answersProbe b x) (received env) ->
              run = (sent, Waiting)))).
Proof.
  intros base lp rp b run sent.
  assert (Hlp : probeLocalPort nt hop = lp) by apply probeLocalPort_mod.
  assert (Hb : probeFingerprint nt test hop = b).
  { unfold probeFingerprint. rewrite Hlp.
    pose proof (ParseUint16_range_bound (RemotePort test)) as Hr. fold rp in Hr |- *.
    assert (Hl : 0 <= lp < 2 ^ 16) by (apply Z.mod_pos_bound; lia).
    unfold uint16. rewrite (wrapU_small 16 rp) by lia.
    rewrite !PutUint16_big_endian by lia. reflexivity. }
  assert (Hfirst : forall pre m post,
            Forall (fun x => ~ answersProbe b x) pre -> answersProbe b m ->
            icmpReceiver b (pre ++ m :: post) = Some (rNow m, rPeer m)).
  { intros pre m post Hpre Hm.
    rewrite icmpReceiver_skips by (apply answersProbe_rejected; exact Hpre).
    cbn [icmpReceiver]. apply icmpAccepts_answers in Hm. rewrite Hm. reflexivity. }
  split; [exact Hlp|]. split; [exact Hb|]. split; [|split; [|split]].
  - intros port Hport Hstr. unfold rp. rewrite Hstr. apply ParseUint16_decimal, Hport.
  - intros m. apply icmpAccepts_answers.
  - intros stream t p. split.
    + intros H. destruct (icmpReceiver_found b stream t p H)
        as (pre & m & post & Hs & Hpre & Hm & Ht & Hp).
      exists pre, m, post. split; [exact Hs|].
      split; [apply answersProbe_rejected; exact Hpre|].
      split; [apply icmpAccepts_answers; exact Hm|]. split; assumption.
    + intros (pre & m & post & -> & Hpre & Hm & -> & ->). apply Hfirst; assumption.
  - intros Hconn. subst run sent. unfold probeHop. rewrite Hconn, Hlp, Hb. cbv zeta.
    split.
    + intros endTime Hdial. rewrite Hdial. reflexivity.
    + intros Hdial. rewrite Hdial. split.
      * intros pre m post Hrecv Hpre Hm. rewrite Hrecv, (Hfirst pre m post Hpre Hm).
        reflexivity.
      * intros Hnone.
        rewrite <- (app_nil_r (received env)), icmpReceiver_skips
          by (apply answersProbe_rejected; exact Hnone).
        reflexivity.
Qed.

Lemma probe_port_fingerprint_receiver_witness :
  probeLocalPort sampleNetTools 1 = 8889
  /\ probeFingerprint sampleNetTools sampleTest 1 = [34; 185; 1; 187]
  /\ answersProbe [34; 185; 1; 187] sampleReply
  /\ probeHop 32 sampleNetTools sampleTest 1 "" sampleEnv zeroHopData
     = finishProbe 32 (incrSent 32 zeroHopData) "" "10.0.0.1"
                   (timeSub 7000000 2000000) false.
Proof.
  pose proof (probe_port_fingerprint_receiver 32 sampleNetTools sampleTest 1 ""
                sampleEnv zeroHopData) as H.
  cbv zeta in H. destruct H as (Hp & Hf & _ & Hacc & _ & Hrun).
  assert (Ha : answersProbe [34; 185; 1; 187] sampleReply)
    by exact (proj1 (Hacc sampleReply) eq_refl).
  split; [exact Hp|]. split; [exact Hf|]. split; [exact Ha|].
  exact (proj1 (proj2 (Hrun eq_refl) eq_refl) [] sampleReply [] eq_refl (List.Forall_nil _) Ha).
Defined.

(** ** probeHop: the counters *)

Section ProbeCounters.

Variable counterBits : Z.

Lemma finishProbe_lost h hopIP peerAddr elapsed isLast :
  probeLost hopIP peerAddr = true ->
  finishProbe counterBits h hopIP peerAddr elapsed isLast
  = (incrLost counterBits h, Returned (Some ErrHopUnreachable) isLast).
Proof. intros H. unfold finishProbe. rewrite H. reflexivity. Qed.

Lemma finishProbe_rcvd h hopIP peerAddr elapsed isLast :
  probeLost hopIP peerAddr = false ->
  finishProbe counterBits h hopIP peerAddr elapsed isLast
  = (calcHopData counterBits h peerAddr elapsed, Returned None isLast).
Proof. intros H. unfold finishProbe. rewrite H. reflexivity. Qed.

(** The three ways a probe that has its ICMP listener can go. *)
Lemma probeHop_cases nt test hop hopIP env h :
  icmpNewConnFails env = false ->
  match probePeer nt test hop env with
  | None =>
      probeHop counterBits nt test hop hopIP env h
      = (incrSent counterBits h, Waiting)
  | Some peerAddr =>
      exists elapsed isLast,
        probeHop counterBits nt test hop hopIP env h
        = if probeLost hopIP peerAddr
          then (incrLost counterBits (incrSent counterBits h),
                Returned (Some ErrHopUnreachable) isLast)
          else (calcHopData counterBits (incrSent counterBits h) peerAddr elapsed,
                Returned None isLast)
  end.
Proof.
  intros Hconn. unfold probePeer, probeHop. rewrite Hconn. cbv zeta.
  destruct (dial env (DialAddr test) (LocalIP nt) (probeLocalPort nt hop) hop)
    as [endTime|].
  - exists (timeSub endTime (startTime env)), true.
    unfold finishProbe. destruct (probeLost hopIP (RemoteIP test)); reflexivity.
  - destruct (icmpReceiver (probeFingerprint nt test hop) (received env))
      as [[endTime peerAddr]|]; [|reflexivity].
    exists (timeSub endTime (startTime env)), false.
    unfold finishProbe. destruct (probeLost hopIP peerAddr); reflexivity.
Qed.

Lemma incr_no_overflow x : 0 <= x -> x + 1 < 2 ^ counterBits -> incr counterBits x = x + 1.
Proof. intros H0 H1. unfold incr. apply wrapU_small. lia. Qed.

End ProbeCounters.

(** The counters case by case.  A probe that has its ICMP listener
    increments [sent] by one.  When it returns it has incremented exactly
    one of [rcvd] (through [calcHopData], when it has a peer that is not
    empty and does not disagree with a non-empty expected peer) and [lost]
    (with the HopUnreachable error otherwise); while it waits for the
    receiver neither has moved.  So [rcvd + lost <= sent] is kept, with
    equality once the probe has returned, as long as [sent] does not wrap
    around. *)
Lemma probeHop_counters (counterBits : Z) (nt : NetTools) (test : Test)
    (hop : Z) (hopIP : string) (env : ProbeEnv) (h : HopData) :
  icmpNewConnFails env = false ->
  let r := probeHop counterBits nt test hop hopIP env h in
  Sent (fst r) = incr counterBits (Sent h)
  /\ match probePeer nt test hop env with
     | None =>
         snd r = Waiting /\ Rcvd (fst r) = Rcvd h /\ Lost (fst r) = Lost h
     | Some peerAddr =>
         if probeLost hopIP peerAddr
         then (exists isLast, snd r = Returned (Some ErrHopUnreachable) isLast)
              /\ Lost (fst r) = incr counterBits (Lost h)
              /\ Rcvd (fst r) = Rcvd h
         else (exists isLast, snd r = Returned None isLast)
              /\ (exists elapsed,
                    fst r = calcHopData counterBits (incrSent counterBits h) peerAddr elapsed)
              /\ Rcvd (fst r) = incr counterBits (Rcvd h)
              /\ Lost (fst r) = Lost h
     end
  /\ (0 <= Rcvd h -> 0 <= Lost h -> Rcvd h + Lost h <= Sent h ->
      Sent h + 1 < 2 ^ counterBits ->
      Rcvd (fst r) + Lost (fst r) <= Sent (fst r)
      /\ (snd r <> Waiting -> Rcvd h + Lost h = Sent h ->
          Rcvd (fst r) + Lost (fst r) = Sent (fst r))).
Proof.
  intros Hconn r.
  pose proof (probeHop_cases counterBits nt test hop hopIP env h Hconn) as Hc.
  fold r in Hc.
  destruct (probePeer nt test hop env) as [peerAddr|].
  - destruct Hc as (elapsed & isLast & Hr).
    destruct (probeLost hopIP peerAddr); rewrite Hr; cbn [fst snd].
    + split; [reflexivity|]. split.
      * split; [exists isLast; reflexivity|]. split; reflexivity.
      * intros H0 H1 H2 H3. cbn [incrLost incrSent Sent Rcvd Lost].
        rewrite (incr_no_overflow counterBits (Sent h)) by lia.
        rewrite (incr_no_overflow counterBits (Lost h)) by lia. lia.
    + split; [reflexivity|]. split.
      * split; [exists isLast; reflexivity|].
        split; [exists elapsed; reflexivity|]. split; reflexivity.
      * intros H0 H1 H2 H3. cbn [calcHopData incrSent Sent Rcvd Lost].
        rewrite (incr_no_overflow counterBits (Sent h)) by lia.
        rewrite (incr_no_overflow counterBits (Rcvd h)) by lia. lia.
  - rewrite Hc. cbn [fst snd]. split; [reflexivity|]. split.
    + repeat split.
    + intros H0 H1 H2 H3. cbn [incrSent Sent Rcvd Lost].
      rewrite (incr_no_overflow counterBits (Sent h)) by lia.
      split; [lia|]. intros Hw. contradiction Hw. reflexivity.
Qed.

(** C4. The claim: a probe that gets past the creation of the ICMP
    listener increments [sent] and then exactly one of [rcvd] and [lost],
    [lost] when no peer matched.  The code at a hop that does not answer
    (the dial fails; the listener gets an echo reply and a TimeExceeded
    that quotes the ports of another probe): the receiver passes over both
    and stays in its loop, so the probe waits on the receiver's channel
    with [sent = 1], [rcvd = 0] and [lost = 0], and nothing changes that
    as long as the further messages do not answer this probe.  Lines
    175-177 are there to count such a probe as lost: they do so for the
    empty peer address that the receiver starts with and never hands
    over. *)
Theorem probeHop_silent_hop_not_lost :
  let fingerprint := probeFingerprint sampleNetTools sampleTest 1 in
  let run more :=
    probeHop 32 sampleNetTools sampleTest 1 "" (silentHopEnv more) zeroHopData in
  Forall (fun m => ~ answersProbe fingerprint m) (received (silentHopEnv []))
  /\ snd (run []) = Waiting
  /\ Sent (fst (run [])) = 1 /\ Rcvd (fst (run [])) = 0 /\ Lost (fst (run [])) = 0
  /\ (forall more,
        Forall (fun m => ~ answersProbe fingerprint m) more -> run more = run [])
  /\ (forall elapsed,
        finishProbe 32 (fst (run [])) "" "" elapsed false
        = (incrLost 32 (fst (run [])), Returned (Some ErrHopUnreachable) false)).
Proof.
  intros fingerprint run.
  assert (Hown : Forall (fun m => icmpAccepts fingerprint m = false)
                   (received (silentHopEnv [])))
    by (repeat constructor).
  split; [apply answersProbe_rejected; exact Hown|].
  split; [reflexivity|]. split; [reflexivity|]. split; [reflexivity|].
  split; [reflexivity|]. split.
  - intros more Hmore. apply answersProbe_rejected in Hmore.
    assert (Hwait : forall l, Forall (fun m => icmpAccepts fingerprint m = false) l ->
              probeHop 32 sampleNetTools sampleTest 1 ""
                (mkProbeEnv false 2000000 (fun _ _ _ _ => None) l) zeroHopData
              = (incrSent 32 zeroHopData, Waiting)).
    { intros l Hl. unfold probeHop. cbn [icmpNewConnFails dial received startTime].
      fold fingerprint.
      rewrite <- (app_nil_r l), icmpReceiver_skips by exact Hl. reflexivity. }
    unfold run, silentHopEnv. rewrite !Hwait; [reflexivity| |].
    + rewrite app_nil_r. exact Hown.
    + apply Forall_app. split; [|exact Hmore].
      unfold silentHopEnv in Hown. cbn [received] in Hown.
      rewrite app_nil_r in Hown. exact Hown.
  - intros elapsed. reflexivity.
Qed.

Lemma probeHop_step (counterBits : Z) (nt : NetTools) (test : Test) (hop : Z)
    (hopIP : string) (env : ProbeEnv) (h : HopData) :
  icmpNewConnFails env = false ->
  0 <= Rcvd h -> 0 <= Lost h -> Rcvd h + Lost h = Sent h ->
  Sent h + 1 < 2 ^ counterBits ->
  let r := probeHop counterBits nt test hop hopIP env h in
  0 <= Rcvd (fst r) /\ 0 <= Lost (fst r) /\ Sent (fst r) = Sent h + 1
  /\ Sent (fst r)
     = Rcvd (fst r) + Lost (fst r)
       + match snd r with Waiting => 1 | Returned _ _ => 0 end.
Proof.
  intros Hconn H0 H1 H2 H3 r.
  pose proof (probeHop_cases counterBits nt test hop hopIP env h Hconn) as Hc.
  fold r in Hc.
  destruct (probePeer nt test hop env) as [peerAddr|].
  - destruct Hc as (elapsed & isLast & Hr).
    destruct (probeLost hopIP peerAddr); rewrite Hr;
      cbn [fst snd calcHopData incrLost incrSent Sent Rcvd Lost];
      rewrite !incr_no_overflow by lia; lia.
  - rewrite Hc. cbn [fst snd incrSent Sent Rcvd Lost].
    rewrite !incr_no_overflow by lia. lia.
Qed.

(** Over a whole run of the loop: [sent = rcvd + lost] whenever no probe is
    in flight, and [sent = rcvd + lost + 1] while one is. *)
Lemma probeHops_accounting (counterBits : Z) (nt : NetTools) (test : Test) (hop : Z)
    (envs : list ProbeEnv) :
  forall h,
    0 <= Rcvd h -> 0 <= Lost h -> Rcvd h + Lost h = Sent h ->
    Sent h + Z.of_nat (length envs) < 2 ^ counterBits ->
    let r := probeHops counterBits nt test hop envs h in
    Sent (fst r) = Rcvd (fst r) + Lost (fst r) + (if snd r then 1 else 0).
Proof.
  induction envs as [|env rest IH]; intros h H0 H1 H2 H3; cbn [probeHops].
  - cbn [fst snd]. lia.
  - cbn [length] in H3.
    destruct (icmpNewConnFails env) eqn:Hconn.
    + unfold probeHop. rewrite Hconn. apply IH; try assumption. lia.
    + pose proof (probeHop_step counterBits nt test (hop + 1) (Addr h) env h
                    Hconn H0 H1 H2 ltac:(lia)) as Hstep.
      cbv zeta in Hstep.
      destruct (probeHop counterBits nt test (hop + 1) (Addr h) env h) as [h' out].
      cbn [fst snd] in Hstep. destruct Hstep as (Hr & Hl & Hs & Heq).
      destruct out as [err isLast|].
      * apply IH; lia.
      * cbn [fst snd]. lia.
Qed.

(** ** discoverHops *)

Section DiscoverHops.

Variable counterBits : Z.
Variable nt : NetTools.
Variable test : Test.
Variable lookupAddr : string -> option (list string).
Variable envs : Z -> ProbeEnv.

Lemma discoverLoop_exhausts (remaining : nat) :
  forall (i : Z) (hops : list HopData),
    (forall j, i < j <= i + Z.of_nat remaining -> notLast counterBits nt test envs j) ->
    exists hops',
      discoverLoop counterBits nt test lookupAddr envs remaining i hops = Exhausted hops'
      /\ length hops' = length hops.
Proof.
  induction remaining as [|remaining IH]; intros i hops Hall.
  - exists hops. split; reflexivity.
  - cbn [discoverLoop].
    destruct (Hall (i + 1) ltac:(lia)) as (h & err & Hp). rewrite Hp.
    match goal with
    | |- context [discoverLoop _ _ _ _ _ remaining (i + 1) ?hs] =>
        destruct (IH (i + 1) hs) as (hops' & Hloop & Hlen)
    end.
    + intros j Hj. apply Hall. lia.
    + exists hops'. split; [exact Hloop|].
      rewrite Hlen. apply length_insert.
Qed.

End DiscoverHops.

(** C2, as amended. When every TTL from 1 to [maxHops] is probed and none
    reaches the destination, [discoverHops] returns the error with a nil
    hop list: the [maxHops] entries the loop has gathered are dropped, and
    [TestTraceRoute] reports the failure with an empty body. *)
Theorem discoverHops_exhausted_returns_nil (counterBits : Z) (nt : NetTools)
    (test : Test) (lookupAddr : string -> option (list string))
    (envs : Z -> ProbeEnv) (maxHops : Z) :
  0 <= maxHops ->
  (forall i, 1 <= i <= maxHops -> notLast counterBits nt test envs i) ->
  discoverHops counterBits nt test lookupAddr envs maxHops
  = DiscReturn [] (Some ErrNotExist)
  /\ (exists hops,
        gatheredHops counterBits nt test lookupAddr envs maxHops = Some hops
        /\ length hops = Z.to_nat maxHops)
  /\ TestTraceRoute counterBits nt test lookupAddr envs maxHops
     = Some (mkTraceResult false true []).
Proof.
  intros Hmax Hall.
  destruct (discoverLoop_exhausts counterBits nt test lookupAddr envs
              (Z.to_nat maxHops) 0 (replicate (Z.to_nat maxHops) zeroHopData))
    as (hops & Hloop & Hlen).
  { intros j Hj. apply Hall. lia. }
  assert (Hd : discoverHops counterBits nt test lookupAddr envs maxHops
               = DiscReturn [] (Some ErrNotExist)).
  { unfold discoverHops, runDiscoverLoop.
    destruct (Z.ltb_spec maxHops 0); [lia|]. rewrite Hloop. reflexivity. }
  split; [exact Hd|]. split.
  - exists hops. unfold gatheredHops, runDiscoverLoop. rewrite Hloop.
    split; [reflexivity|]. rewrite Hlen. apply length_replicate.
  - unfold TestTraceRoute. rewrite Hd. reflexivity.
Qed.

Lemma discoverHops_exhausted_returns_nil_witness :
  discoverHops 32 sampleNetTools sampleTest noNames sampleEnvs 1
  = DiscReturn [] (Some ErrNotExist)
  /\ gatheredHops 32 sampleNetTools sampleTest noNames sampleEnvs 1 = Some [sampleHop].
Proof.
  split; [|reflexivity].
  apply (discoverHops_exhausted_returns_nil 32 sampleNetTools sampleTest noNames
           sampleEnvs 1); [lia|].
  intros i Hi. assert (i = 1) as -> by lia.
  exists sampleHop, None. reflexivity.
Defined.

Example discoverHops_three_hops :
  match discoverHops 32 sampleNetTools sampleTest reverseNames threeHopEnvs 30 with
  | DiscReturn hops None =>
      map Addr hops = ["10.0.0.1"; "10.0.0.2"; "93.184.216.34"]%string
      /\ map Name hops = ["gateway-of-the-f..."; ""; ""]%string
      /\ map FullName hops = ["gateway-of-the-first-network.example.net"; ""; ""]%string
      /\ map Sent hops = [1; 1; 1] /\ map Rcvd hops = [1; 1; 1]
  | _ => False
  end.
Proof. vm_compute. repeat split. Qed.

(** A router that never answers: the receiver has nothing to accept, the
    TTL-2 probe does not return, and neither does the discovery. *)
Example discoverHops_silent_router :
  discoverHops 32 sampleNetTools sampleTest noNames
    (fun ttl => if ttl =? 2
                then mkProbeEnv false 2000000 (fun _ _ _ _ => None) []
                else threeHopEnvs ttl) 30
  = DiscBlocked.
Proof. vm_compute. reflexivity. Qed.

(** C2, as claimed: on exhaustion [discoverHops] would return the error
    together with the hops gathered by the loop.  With [maxHops = 1] and a
    router at 10.0.0.1 answering the TTL-1 probe, the loop has gathered one
    hop and [discoverHops] returns none. *)
Lemma discoverHops_partial_list_counterexample :
  ~ (forall (counterBits : Z) (nt : NetTools) (test : Test)
       (lookupAddr : string -> option (list string)) (envs : Z -> ProbeEnv)
       (maxHops : Z) (hops : list HopData),
       0 <= maxHops ->
       gatheredHops counterBits nt test lookupAddr envs maxHops = Some hops ->
       discoverHops counterBits nt test lookupAddr envs maxHops
       = DiscReturn hops (Some ErrNotExist)).
Proof.
  intros H.
  specialize (H 32 sampleNetTools sampleTest noNames sampleEnvs 1 [sampleHop]
                ltac:(lia) eq_refl).
  discriminate H.
Qed.

(** ** float64 arithmetic *)

(** *** Integer facts on the rounding of SpecFloat *)

Lemma pow2_succ (d : Z) : 0 < d -> 2 ^ d = 2 * 2 ^ (d - 1).
Proof. intros Hd. rewrite <- Z.pow_succ_r by lia. f_equal. lia. Qed.

Lemma digits2_pos_bounds (p : positive) :
  2 ^ (Zpos (digits2_pos p) - 1) <= Zpos p < 2 ^ Zpos (digits2_pos p).
Proof.
  induction p as [p IH|p IH|]; cbn [digits2_pos].
  - rewrite Pos2Z.inj_succ, (Pos2Z.inj_xI p).
    pose proof (pow2_succ (Z.succ (Zpos (digits2_pos p))) ltac:(lia)) as H.
    replace (Z.succ (Zpos (digits2_pos p)) - 1) with (Zpos (digits2_pos p)) in * by lia.
    pose proof (pow2_succ (Zpos (digits2_pos p)) ltac:(lia)) as H0.
    revert IH H H0.
    generalize (2 ^ Z.succ (Zpos (digits2_pos p))) (2 ^ Zpos (digits2_pos p))
               (2 ^ (Zpos (digits2_pos p) - 1)).
    intros a b c. lia.
  - rewrite Pos2Z.inj_succ, (Pos2Z.inj_xO p).
    pose proof (pow2_succ (Z.succ (Zpos (digits2_pos p))) ltac:(lia)) as H.
    replace (Z.succ (Zpos (digits2_pos p)) - 1) with (Zpos (digits2_pos p)) in * by lia.
    pose proof (pow2_succ (Zpos (digits2_pos p)) ltac:(lia)) as H0.
    revert IH H H0.
    generalize (2 ^ Z.succ (Zpos (digits2_pos p))) (2 ^ Zpos (digits2_pos p))
               (2 ^ (Zpos (digits2_pos p) - 1)).
    intros a b c. lia.
  - change (1 <= 1 < 2). lia.
Qed.

(** The digits of a number between two powers of two. *)
Lemma digits2_pos_unique (p : positive) (d : Z) :
  2 ^ (d - 1) <= Zpos p < 2 ^ d -> Zpos (digits2_pos p) = d.
Proof.
  intros [Hlo Hhi]. pose proof (digits2_pos_bounds p) as [Hlo' Hhi'].
  assert (Hd : 0 < d).
  { destruct (Z.le_gt_cases d 0) as [Hle|]; [|assumption].
    assert (2 ^ d <= 2 ^ 0) by (apply Z.pow_le_mono_r; lia). simpl in *. lia. }
  destruct (Z.lt_trichotomy (Zpos (digits2_pos p)) d) as [Hlt|[Heq|Hgt]]; [|exact Heq|].
  - assert (2 ^ Zpos (digits2_pos p) <= 2 ^ (d - 1)) by (apply Z.pow_le_mono_r; lia). lia.
  - assert (2 ^ d <= 2 ^ (Zpos (digits2_pos p) - 1)) by (apply Z.pow_le_mono_r; lia). lia.
Qed.

Lemma iterN_add {A : Type} (f : A -> A) (a b : nat) (x : A) :
  iterN f (a + b) x = iterN f a (iterN f b x).
Proof. induction a as [|a IH]; cbn [iterN Nat.add]; [reflexivity|]. rewrite IH. reflexivity. Qed.

Lemma iterN_comm {A : Type} (f : A -> A) (n : nat) (x : A) :
  iterN f n (f x) = f (iterN f n x).
Proof. induction n as [|n IH]; cbn [iterN]; [reflexivity|]. rewrite IH. reflexivity. Qed.

Lemma iter_pos_iterN {A : Type} (f : A -> A) (p : positive) :
  forall x, SpecFloat.iter_pos f p x = iterN f (Pos.to_nat p) x.
Proof.
  induction p as [p IH|p IH|]; intros x; cbn [SpecFloat.iter_pos].
  - rewrite !IH. rewrite Pos2Nat.inj_xI.
    replace (S (2 * Pos.to_nat p))%nat with (Pos.to_nat p + Pos.to_nat p + 1)%nat by lia.
    rewrite !iterN_add. reflexivity.
  - rewrite !IH. rewrite Pos2Nat.inj_xO.
    replace (2 * Pos.to_nat p)%nat with (Pos.to_nat p + Pos.to_nat p)%nat by lia.
    rewrite iterN_add. reflexivity.
  - reflexivity.
Qed.

Lemma shr_1_nonneg m r s :
  0 <= m ->
  shr_1 (Build_shr_record m r s) = Build_shr_record (m / 2) (Z.odd m) (r || s).
Proof.
  intros Hm. destruct m as [|p|p]; [reflexivity| |lia].
  destruct p as [p|p|]; cbn [shr_1].
  - f_equal. rewrite Pos2Z.inj_xI. symmetry.
    rewrite Z.mul_comm, Z.add_comm. rewrite Z.div_add by lia. reflexivity.
  - f_equal. rewrite Pos2Z.inj_xO. symmetry.
    rewrite Z.mul_comm. rewrite Z.div_mul by lia. reflexivity.
  - reflexivity.
Qed.

(** [k] right shifts: the quotient, and whether anything was lost. *)
Lemma shr_iter (k : nat) : forall m r s,
  0 <= m ->
  let mrs := iterN shr_1 k (Build_shr_record m r s) in
  shr_m mrs = m / 2 ^ Z.of_nat k
  /\ (shr_r mrs || shr_s mrs = false <-> (r || s = false /\ m mod 2 ^ Z.of_nat k = 0)).
Proof.
  induction k as [|k IH]; intros m r s Hm.
  - cbn [iterN shr_m shr_r shr_s Z.of_nat]. rewrite Z.pow_0_r, Z.div_1_r, Z.mod_1_r.
    split; [reflexivity|]. tauto.
  - cbn [iterN]. specialize (IH m r s Hm). cbv zeta in IH.
    destruct (iterN shr_1 k (Build_shr_record m r s)) as [mk rk sk].
    cbn [shr_m shr_r shr_s] in IH. destruct IH as [Hmk Hex].
    assert (Hmk0 : 0 <= mk) by (subst mk; apply Z.div_pos; lia).
    rewrite (shr_1_nonneg mk rk sk Hmk0). cbn [shr_m shr_r shr_s].
    rewrite Nat2Z.inj_succ, Z.pow_succ_r by lia.
    assert (Hpow : 0 < 2 ^ Z.of_nat k) by (apply Z.pow_pos_nonneg; lia).
    split.
    + subst mk. rewrite Z.div_div by lia. f_equal. lia.
    + rewrite Bool.orb_false_iff, Hex.
      assert (Hodd : Z.odd mk = false <-> mk mod 2 = 0).
      { rewrite Zmod_odd. destruct (Z.odd mk); split; intros; try reflexivity; try discriminate; lia. }
      rewrite Hodd.
      assert (Hsplit : m mod (2 * 2 ^ Z.of_nat k)
                       = m mod 2 ^ Z.of_nat k + 2 ^ Z.of_nat k * (mk mod 2)).
      { subst mk. rewrite (Z.mul_comm 2). rewrite Z.rem_mul_r by lia. reflexivity. }
      rewrite Hsplit.
      pose proof (Z.mod_pos_bound m (2 ^ Z.of_nat k) Hpow).
      pose proof (Z.mod_pos_bound mk 2 ltac:(lia)).
      split.
      * intros [H1 [H2 H3]]. split; [exact H2|]. rewrite H1, H3. lia.
      * intros [H2 H3]. assert (mk mod 2 = 0) by nia.
        split; [assumption|]. split; [assumption|nia].
Qed.

Lemma shr_spec (m : Z) (r s : bool) (e n : Z) :
  0 <= m -> 0 <= n ->
  exists mrs,
    shr (Build_shr_record m r s) e n = (mrs, e + n)
    /\ shr_m mrs = m / 2 ^ n
    /\ (shr_r mrs || shr_s mrs = false <-> (r || s = false /\ m mod 2 ^ n = 0)).
Proof.
  intros Hm Hn. destruct n as [|q|q]; [| |lia].
  - exists (Build_shr_record m r s). cbn [shr shr_m shr_r shr_s].
    rewrite Z.add_0_r, Z.pow_0_r, Z.div_1_r, Z.mod_1_r. repeat split; tauto.
  - exists (SpecFloat.iter_pos shr_1 q (Build_shr_record m r s)).
    cbn [shr]. split; [reflexivity|].
    rewrite iter_pos_iterN.
    pose proof (shr_iter (Pos.to_nat q) m r s Hm) as H. cbv zeta in H.
    rewrite positive_nat_Z in H. exact H.
Qed.

Lemma loc_of_shr_record_exact mrs :
  loc_of_shr_record mrs = loc_Exact <-> shr_r mrs || shr_s mrs = false.
Proof. destruct mrs as [m [|] [|]]; cbn; split; intros H; congruence. Qed.

Lemma shr_record_of_loc_fields m l :
  shr_m (shr_record_of_loc m l) = m
  /\ (shr_r (shr_record_of_loc m l) || shr_s (shr_record_of_loc m l) = false
      <-> l = loc_Exact).
Proof. destruct l as [|[| |]]; cbn; split; try reflexivity; split; intros H; congruence. Qed.

Lemma fexp_normal (x : Z) : -1074 <= x - 53 -> fexp 53 1024 x = x - 53.
Proof. intros H. unfold fexp, emin. lia. Qed.

(** One shift to the canonical exponent, for a positive mantissa of at
    least 53 bits in the normal range. *)
Lemma shr_fexp_spec (p : positive) (e : Z) (l : location) :
  let s := Zpos (digits2_pos p) - 53 in
  0 <= s -> -1074 <= e + s ->
  exists mrs,
    shr_fexp 53 1024 (Zpos p) e l = (mrs, e + s)
    /\ shr_m mrs = Zpos p / 2 ^ s
    /\ (loc_of_shr_record mrs = loc_Exact <-> (l = loc_Exact /\ Zpos p mod 2 ^ s = 0)).
Proof.
  intros s Hs Hn. unfold shr_fexp. cbn [Zdigits2].
  rewrite fexp_normal by (unfold s in *; lia).
  replace (Zpos (digits2_pos p) + e - 53 - e) with s by (unfold s; lia).
  destruct (shr_record_of_loc_fields (Zpos p) l) as [Hm Hl].
  destruct (shr_record_of_loc (Zpos p) l) as [m0 r0 s0] eqn:E0.
  cbn [shr_m shr_r shr_s] in Hm, Hl. subst m0.
  destruct (shr_spec (Zpos p) r0 s0 e s ltac:(lia) Hs) as (mrs & Hshr & Hq & Hex).
  exists mrs. split; [exact Hshr|]. split; [exact Hq|].
  rewrite loc_of_shr_record_exact, Hex, Hl. reflexivity.
Qed.

Lemma round_nearest_even_cases m l :
  round_nearest_even m l = m
  \/ (round_nearest_even m l = m + 1 /\ l <> loc_Exact).
Proof.
  destruct l as [|[| |]]; cbn [round_nearest_even].
  - left. reflexivity.
  - destruct (Z.even m); [left; reflexivity|right; split; [reflexivity|discriminate]].
  - left. reflexivity.
  - right. split; [reflexivity|discriminate].
Qed.

(** The rounding of [binary_round_aux] for a positive mantissa of at least
    53 bits, in the normal range and below the overflow threshold: the
    result is the truncated mantissa or its successor, and the successor
    only when something was cut off. *)
Lemma binary_round_aux_spec (p : positive) (e : Z) (l : location) :
  let s := Zpos (digits2_pos p) - 53 in
  0 <= s -> -1074 <= e + s -> e + s + 1 <= 971 ->
  exists (M : positive) (t : Z),
    binary_round_aux 53 1024 false (Zpos p) e l = S754_finite false M (e + s + t)
    /\ 2 ^ 52 <= Zpos M < 2 ^ 53
    /\ 0 <= t <= 1
    /\ (Zpos M * 2 ^ t = Zpos p / 2 ^ s
        \/ (Zpos M * 2 ^ t = Zpos p / 2 ^ s + 1
            /\ (l <> loc_Exact \/ Zpos p mod 2 ^ s <> 0))).
Proof.
  intros s Hs Hn Ho.
  destruct (shr_fexp_spec p e l Hs Hn) as (mrs & Hshr & Hq & Hex). fold s in Hshr, Hq, Hex.
  unfold binary_round_aux. rewrite Hshr.
  pose proof (digits2_pos_bounds p) as Hd.
  replace (Zpos (digits2_pos p)) with (s + 53) in Hd by (unfold s; lia).
  replace (s + 53 - 1) with (52 + s) in Hd by lia.
  rewrite (Z.add_comm s 53) in Hd.
  rewrite !Z.pow_add_r in Hd by lia.
  assert (Hpow : 0 < 2 ^ s) by (apply Z.pow_pos_nonneg; lia).
  assert (Hm1 : 2 ^ 52 <= Zpos p / 2 ^ s < 2 ^ 53).
  { split; [apply Z.div_le_lower_bound; lia|apply Z.div_lt_upper_bound; lia]. }
  set (m1 := Zpos p / 2 ^ s) in *.
  assert (Hcase : round_nearest_even (shr_m mrs) (loc_of_shr_record mrs) = m1
                  \/ (round_nearest_even (shr_m mrs) (loc_of_shr_record mrs) = m1 + 1
                      /\ (l <> loc_Exact \/ Zpos p mod 2 ^ s <> 0))).
  { rewrite Hq. destruct (round_nearest_even_cases m1 (loc_of_shr_record mrs)) as [H|[H Hne]];
      [left; exact H|right; split; [exact H|]].
    destruct l as [|c]; [|left; discriminate].
    right. intros Hz. apply Hne, Hex. split; [reflexivity|exact Hz]. }
  set (M' := round_nearest_even (shr_m mrs) (loc_of_shr_record mrs)) in *.
  assert (HM' : 2 ^ 52 <= M' <= 2 ^ 53) by (destruct Hcase as [->|[-> _]]; lia).
  destruct M' as [|q|q] eqn:EM; [lia| |lia].
  destruct (Z.eq_dec (Zpos q) (2 ^ 53)) as [Hcarry|Hnc].
  - assert (Hdq : Zpos (digits2_pos q) = 54).
    { apply digits2_pos_unique. rewrite Hcarry. change (54 - 1) with 53. lia. }
    destruct (shr_fexp_spec q (e + s) loc_Exact) as (mrs2 & Hshr2 & Hq2 & _);
      [rewrite Hdq; lia|rewrite Hdq; lia|].
    rewrite Hdq in Hshr2, Hq2. change (54 - 53) with 1 in Hshr2, Hq2.
    rewrite Hshr2, Hq2, Hcarry. change (2 ^ 53 / 2 ^ 1) with (Zpos (2 ^ 52)%positive).
    destruct (Z.leb_spec (e + s + 1) (1024 - 53)) as [_|Hbad]; [|lia].
    exists (2 ^ 52)%positive, 1. split; [reflexivity|].
    split; [change (Zpos (2 ^ 52)%positive) with (2 ^ 52); lia|]. split; [lia|].
    change (Zpos (2 ^ 52)%positive * 2 ^ 1) with (2 ^ 53). rewrite <- Hcarry.
    exact Hcase.
  - assert (Hdq : Zpos (digits2_pos q) = 53).
    { apply digits2_pos_unique. change (53 - 1) with 52. lia. }
    destruct (shr_fexp_spec q (e + s) loc_Exact) as (mrs2 & Hshr2 & Hq2 & _);
      [rewrite Hdq; lia|rewrite Hdq; lia|].
    rewrite Hdq in Hshr2, Hq2. change (53 - 53) with 0 in Hshr2, Hq2.
    rewrite Z.pow_0_r, Z.div_1_r in Hq2.
    rewrite Hshr2, Hq2.
    destruct (Z.leb_spec (e + s + 0) (1024 - 53)) as [_|Hbad]; [|lia].
    exists q, 0. split; [reflexivity|].
    split; [lia|]. split; [lia|].
    rewrite Z.pow_0_r, Z.mul_1_r. exact Hcase.
Qed.

(** *** Real values *)

Lemma bpow_pos e : (0 < bpow e)%R.
Proof. unfold bpow. apply powerRZ_lt. lra. Qed.

Lemma bpow_add a b : bpow (a + b) = (bpow a * bpow b)%R.
Proof. unfold bpow. apply powerRZ_add. lra. Qed.

Lemma bpow_IZR e : 0 <= e -> bpow e = IZR (2 ^ e).
Proof.
  intros He. unfold bpow. rewrite <- (Z2Nat.id e He) at 1.
  rewrite <- pow_powerRZ. rewrite pow_IZR. rewrite Z2Nat.id by exact He. reflexivity.
Qed.

Lemma IZR_mul_lt_reg (a b : Z) (u : R) :
  (0 < u)%R -> (IZR a * u < IZR b * u)%R -> a < b.
Proof. intros Hu H. apply lt_IZR. apply (Rmult_lt_reg_r u); assumption. Qed.

Lemma IZR_mul_le_compat (a b : Z) (u : R) :
  (0 < u)%R -> a <= b -> (IZR a * u <= IZR b * u)%R.
Proof. intros Hu H. apply Rmult_le_compat_r; [lra|]. apply IZR_le, H. Qed.

Lemma IZR_mul_lt_compat (a b : Z) (u : R) :
  (0 < u)%R -> a < b -> (IZR a * u < IZR b * u)%R.
Proof. intros Hu H. apply Rmult_lt_compat_r; [lra|]. apply IZR_lt, H. Qed.

Lemma round_faithful (p M : positive) (e s t : Z) (inexact : Prop) (v : R) :
  0 <= s -> 0 <= t ->
  2 ^ 52 <= Zpos p / 2 ^ s ->
  (Zpos M * 2 ^ t = Zpos p / 2 ^ s
   \/ (Zpos M * 2 ^ t = Zpos p / 2 ^ s + 1 /\ (inexact \/ Zpos p mod 2 ^ s <> 0))) ->
  (IZR (Zpos p) * bpow e <= v < IZR (Zpos p + 1) * bpow e)%R ->
  (inexact -> (IZR (Zpos p) * bpow e < v)%R) ->
  faithful v (IZR (Zpos M) * bpow (e + s + t))%R.
Proof.
  intros Hs Ht Hm1 Hcase [Hlo Hhi] Hstrict.
  set (m1 := Zpos p / 2 ^ s) in *.
  set (u := bpow (e + s)).
  assert (Hu : (0 < u)%R) by apply bpow_pos.
  assert (Hpow : 0 < 2 ^ s) by (apply Z.pow_pos_nonneg; lia).
  assert (Hdiv : m1 * 2 ^ s <= Zpos p < (m1 + 1) * 2 ^ s).
  { unfold m1. pose proof (Z.div_mod (Zpos p) (2 ^ s) ltac:(lia)).
    pose proof (Z.mod_pos_bound (Zpos p) (2 ^ s) Hpow). nia. }
  assert (Hscale : forall a : Z, (IZR (a * 2 ^ s) * bpow e = IZR a * u)%R).
  { intros a. unfold u. rewrite (Z.add_comm e s), bpow_add, (bpow_IZR s Hs), mult_IZR. ring. }
  assert (Hr : (IZR (Zpos M) * bpow (e + s + t) = IZR (Zpos M * 2 ^ t) * u)%R).
  { rewrite bpow_add, (bpow_IZR t Ht), mult_IZR. unfold u. ring. }
  assert (Hvlo : (IZR m1 * u <= v)%R).
  { rewrite <- Hscale. eapply Rle_trans; [|exact Hlo].
    apply IZR_mul_le_compat; [apply bpow_pos|lia]. }
  assert (Hvhi : (v < IZR (m1 + 1) * u)%R).
  { rewrite <- Hscale. eapply Rlt_le_trans; [exact Hhi|].
    apply IZR_mul_le_compat; [apply bpow_pos|lia]. }
  assert (Hup : Zpos M * 2 ^ t = m1 + 1 -> (IZR m1 * u < v)%R).
  { intros HM. destruct Hcase as [Hc|[_ [Hi|Hi]]]; [lia| |].
    - eapply Rle_lt_trans; [|apply Hstrict, Hi].
      rewrite <- Hscale. apply IZR_mul_le_compat; [apply bpow_pos|lia].
    - eapply Rlt_le_trans; [|exact Hlo].
      rewrite <- Hscale. apply IZR_mul_lt_compat; [apply bpow_pos|].
      unfold m1. pose proof (Z.div_mod (Zpos p) (2 ^ s) ltac:(lia)).
      pose proof (Z.mod_pos_bound (Zpos p) (2 ^ s) Hpow). nia. }
  assert (HMge : m1 <= Zpos M * 2 ^ t <= m1 + 1) by (destruct Hcase as [->|[-> _]]; lia).
  rewrite Hr. clear Hr Hcase Hlo Hhi Hstrict Hscale.
  intros k (A & Ek & HA & ->).
  destruct (Z.le_gt_cases (e + s) Ek) as [Hge|Hlt].
  - (* the bound is a multiple of the unit in the last place *)
    assert (Hk : (IZR A * bpow Ek = IZR (A * 2 ^ (Ek - (e + s))) * u)%R).
    { replace Ek with (e + s + (Ek - (e + s))) at 1 by lia.
      rewrite bpow_add, (bpow_IZR (Ek - (e + s))) by lia. rewrite mult_IZR. unfold u. ring. }
    rewrite Hk. set (N := A * 2 ^ (Ek - (e + s))).
    split; intros H.
    + assert (N < m1 + 1) by (apply (IZR_mul_lt_reg _ _ u Hu); lra).
      apply IZR_mul_le_compat; [exact Hu|lia].
    + destruct (Z.eq_dec (Zpos M * 2 ^ t) m1) as [E|NE].
      * rewrite E. lra.
      * assert (E : Zpos M * 2 ^ t = m1 + 1) by lia.
        assert (m1 < N) by (apply (IZR_mul_lt_reg _ _ u Hu); specialize (Hup E); lra).
        apply IZR_mul_le_compat; [exact Hu|lia].
  - (* the bound is below every number of this binade *)
    set (g := 2 ^ (e + s - Ek)).
    assert (Hg : 2 <= g).
    { unfold g. change 2 with (2 ^ 1) at 1. apply Z.pow_le_mono_r; lia. }
    assert (Hu0 : (0 < bpow Ek)%R) by apply bpow_pos.
    assert (Hug : u = (IZR g * bpow Ek)%R).
    { unfold u, g. replace (e + s) with (e + s - Ek + Ek) at 1 by lia.
      rewrite bpow_add, (bpow_IZR (e + s - Ek)) by lia. reflexivity. }
    assert (Hbig : (IZR A * bpow Ek < IZR m1 * u)%R).
    { rewrite Hug, <- Rmult_assoc, <- mult_IZR.
      apply IZR_mul_lt_compat; [exact Hu0|]. change (2 ^ 52) with 4503599627370496 in *.
      change (2 ^ 53) with 9007199254740992 in *. nia. }
    split; intros H.
    + eapply Rle_trans; [apply Rlt_le, Hbig|].
      apply IZR_mul_le_compat; [exact Hu|lia].
    + lra.
Qed.

(** *** The operations on positive normal floats *)

Lemma pnormal_B2R f m e : pnormal f m e -> B2R f = (IZR (Zpos m) * bpow e)%R.
Proof. intros [-> _]. reflexivity. Qed.

Lemma pnormal_digits f m e : pnormal f m e -> Zpos (digits2_pos m) = 53.
Proof. intros [_ H]. apply digits2_pos_unique. change (53 - 1) with 52. exact H. Qed.

Lemma iter_xO (p k : positive) : Zpos (Pos.iter xO p k) = Zpos p * 2 ^ Zpos k.
Proof.
  induction k as [|k IH] using Pos.peano_ind.
  - cbn [Pos.iter]. rewrite (Pos2Z.inj_xO p). change (2 ^ 1) with 2. lia.
  - rewrite Pos.iter_succ, (Pos2Z.inj_xO (Pos.iter xO p k)), IH, Pos2Z.inj_succ.
    rewrite Z.pow_succ_r by lia. lia.
Qed.

(** [binary_round] of a positive integer mantissa: a faithful rounding,
    exact when the mantissa has at most 53 bits. *)
Lemma binary_round_spec (p : positive) (e : Z) :
  let d := Zpos (digits2_pos p) in
  -1074 <= d + e - 53 -> d + e - 52 <= 971 ->
  exists M E,
    pnormal (binary_round 53 1024 false p e) M E
    /\ d + e - 53 <= E <= d + e - 52
    /\ faithful (IZR (Zpos p) * bpow e) (IZR (Zpos M) * bpow E)
    /\ (d <= 53 -> (IZR (Zpos M) * bpow E = IZR (Zpos p) * bpow e)%R).
Proof.
  intros d Hlo Hhi. unfold binary_round. cbn [Zdigits2]. fold d.
  rewrite fexp_normal by lia. unfold shl_align.
  pose proof (digits2_pos_bounds p) as Hd. fold d in Hd.
  assert (Hd1 : 1 <= d) by (unfold d; lia).
  destruct (d + e - 53 - e) as [|k|k] eqn:Ek.
  - (* exactly 53 bits *)
    assert (Hd53 : d = 53) by lia.
    destruct (binary_round_aux_spec p e loc_Exact) as (M & t & Hr & HM & Ht & Hcase);
      fold d; try lia.
    fold d in Hr, Hcase. replace (d - 53) with 0 in Hr, Hcase by lia.
    rewrite Z.pow_0_r, Z.div_1_r, Z.mod_1_r in Hcase.
    assert (HMp : Zpos M * 2 ^ t = Zpos p) by (destruct Hcase as [H|[_ [H|H]]]; congruence).
    exists M, (e + 0 + t). split; [split; assumption|]. split; [lia|].
    assert (Hex : (IZR (Zpos M) * bpow (e + 0 + t) = IZR (Zpos p) * bpow e)%R).
    { rewrite <- HMp, mult_IZR, <- (bpow_IZR t) by lia.
      rewrite (Z.add_0_r e), bpow_add. ring. }
    split; [|intros _; exact Hex].
    rewrite Hex. intros k' _. split; intros H; exact H.
  - (* more than 53 bits: rounding *)
    destruct (binary_round_aux_spec p e loc_Exact) as (M & t & Hr & HM & Ht & Hcase);
      fold d; try lia.
    fold d in Hr, Hcase.
    exists M, (e + (d - 53) + t). split; [split; assumption|]. split; [lia|].
    split; [|intros Hc; lia].
    assert (Hpow : 0 < 2 ^ (d - 53)) by (apply Z.pow_pos_nonneg; lia).
    assert (Hm1 : 2 ^ 52 <= Zpos p / 2 ^ (d - 53)).
    { replace d with (52 + (d - 53) + 1) in Hd at 1 by lia.
      replace (52 + (d - 53) + 1 - 1) with (52 + (d - 53)) in Hd by lia.
      rewrite Z.pow_add_r in Hd by lia.
      apply Z.div_le_lower_bound; lia. }
    assert (Hcase' : Zpos M * 2 ^ t = Zpos p / 2 ^ (d - 53)
                     \/ (Zpos M * 2 ^ t = Zpos p / 2 ^ (d - 53) + 1
                         /\ (False \/ Zpos p mod 2 ^ (d - 53) <> 0))).
    { destruct Hcase as [H|[H [Hc|Hc]]]; [left; exact H|contradiction Hc; reflexivity|].
      right. split; [exact H|right; exact Hc]. }
    assert (Hs : 0 <= d - 53) by lia.
    assert (Ht0 : 0 <= t) by lia.
    apply (round_faithful p M e (d - 53) t False _ Hs Ht0 Hm1 Hcase').
    + split; [lra|]. apply IZR_mul_lt_compat; [apply bpow_pos|lia].
    + contradiction.
  - (* fewer than 53 bits: the mantissa is shifted left, nothing is lost *)
    assert (Hk : Zpos k = 53 - d) by lia.
    pose proof (iter_xO p k) as Hmz. rewrite Hk in Hmz.
    set (mz := Pos.iter xO p k) in *.
    assert (Hpow : 2 ^ d * 2 ^ (53 - d) = 2 ^ 53) by (rewrite <- Z.pow_add_r by lia; f_equal; lia).
    assert (Hpow' : 2 ^ (d - 1) * 2 ^ (53 - d) = 2 ^ 52)
      by (rewrite <- Z.pow_add_r by lia; f_equal; lia).
    assert (Hp2 : 0 < 2 ^ (53 - d)) by (apply Z.pow_pos_nonneg; lia).
    assert (Hmzr : 2 ^ 52 <= Zpos mz < 2 ^ 53) by nia.
    assert (Hdz : Zpos (digits2_pos mz) = 53)
      by (apply digits2_pos_unique; change (53 - 1) with 52; exact Hmzr).
    destruct (binary_round_aux_spec mz (d + e - 53) loc_Exact)
      as (M & t & Hr & HM & Ht & Hcase); rewrite ?Hdz; try lia.
    rewrite Hdz in Hr, Hcase. change (53 - 53) with 0 in Hr, Hcase.
    rewrite Z.pow_0_r, Z.div_1_r, Z.mod_1_r in Hcase.
    assert (HMp : Zpos M * 2 ^ t = Zpos mz) by (destruct Hcase as [H|[_ [H|H]]]; congruence).
    exists M, (d + e - 53 + 0 + t). split; [split; assumption|]. split; [lia|].
    assert (Hex : (IZR (Zpos M) * bpow (d + e - 53 + 0 + t) = IZR (Zpos p) * bpow e)%R).
    { replace (d + e - 53 + 0 + t) with (t + (d + e - 53)) by lia.
      rewrite bpow_add, (bpow_IZR t) by lia.
      rewrite <- Rmult_assoc, <- mult_IZR, HMp, Hmz, mult_IZR.
      rewrite <- (bpow_IZR (53 - d)) by lia.
      rewrite Rmult_assoc, <- bpow_add. f_equal. f_equal. lia. }
    split; [|intros _; exact Hex].
    rewrite Hex. intros k' _. split; intros H; exact H.
Qed.

Lemma binary_round_long (p : positive) (e : Z) :
  53 <= Zpos (digits2_pos p) -> -1074 <= Zpos (digits2_pos p) + e - 53 ->
  binary_round 53 1024 false p e = binary_round_aux 53 1024 false (Zpos p) e loc_Exact.
Proof.
  intros Hd Hn. unfold binary_round, shl_align. rewrite fexp_normal by lia.
  destruct (Zpos (digits2_pos p) + e - 53 - e) as [|k|k] eqn:E; [reflexivity|reflexivity|lia].
Qed.

Lemma pow2_lt_inv (a b : Z) : 0 <= b -> 2 ^ a < 2 ^ b -> a < b.
Proof. intros Hb H. apply (Z.pow_lt_mono_r_iff 2); [lia|exact Hb|exact H]. Qed.

(** Multiplication. *)
Lemma SFmul_spec (x y : spec_float) (mx my : positive) (ex ey : Z) :
  pnormal x mx ex -> pnormal y my ey -> -500 <= ex + ey <= 800 ->
  exists M E,
    pnormal (SFmul 53 1024 x y) M E
    /\ ex + ey + 52 <= E <= ex + ey + 54
    /\ faithful (B2R x * B2R y) (IZR (Zpos M) * bpow E).
Proof.
  intros [-> Hx] [-> Hy] He. cbn [SFmul xorb B2R].
  pose proof (digits2_pos_bounds (mx * my)) as Hd.
  set (d := Zpos (digits2_pos (mx * my))) in *.
  assert (HP : 2 ^ 104 <= Zpos (mx * my) < 2 ^ 106).
  { rewrite Pos2Z.inj_mul. change (2 ^ 104) with (2 ^ 52 * 2 ^ 52).
    change (2 ^ 106) with (2 ^ 53 * 2 ^ 53). nia. }
  assert (Hd1 : 1 <= d) by (unfold d; lia).
  assert (Hdlo : 104 < d) by (apply pow2_lt_inv; lia).
  assert (Hdhi : d - 1 < 106) by (apply pow2_lt_inv; lia).
  rewrite <- binary_round_long by (fold d; lia).
  destruct (binary_round_spec (mx * my) (ex + ey)) as (M & E & Hn & HE & Hf & _);
    fold d; try lia.
  fold d in HE.
  exists M, E. split; [exact Hn|]. split; [lia|].
  replace (IZR (Zpos mx) * bpow ex * (IZR (Zpos my) * bpow ey))%R
    with (IZR (Zpos (mx * my)) * bpow (ex + ey))%R; [exact Hf|].
  rewrite Pos2Z.inj_mul, mult_IZR, bpow_add. ring.
Qed.

(** Subtraction, when the difference is positive. *)
Lemma SFsub_spec (x y : spec_float) (mx my : positive) (ex ey : Z) :
  pnormal x mx ex -> pnormal y my ey ->
  -500 <= ex <= 500 -> -500 <= ey <= 500 ->
  (B2R y < B2R x)%R ->
  exists M E,
    pnormal (SFsub 53 1024 x y) M E
    /\ Z.min ex ey - 52 <= E <= Z.max ex ey + 1
    /\ faithful (B2R x - B2R y) (IZR (Zpos M) * bpow E).
Proof.
  intros [-> Hx] [-> Hy] Hex Hey Hlt. cbn [SFsub cond_Zopp B2R] in *.
  set (ez := Z.min ex ey).
  assert (Hal : forall m e, ez <= e ->
            Zpos (fst (shl_align m e ez)) = Zpos m * 2 ^ (e - ez)).
  { intros m e Hle. unfold shl_align.
    destruct (ez - e) as [|k|k] eqn:E; cbn [fst].
    - replace (e - ez) with 0 by lia. rewrite Z.pow_0_r. lia.
    - lia.
    - rewrite iter_xO. f_equal. f_equal. lia. }
  rewrite (Hal mx ex) by (unfold ez; lia). rewrite (Hal my ey) by (unfold ez; lia).
  set (X := Zpos mx * 2 ^ (ex - ez)). set (Y := Zpos my * 2 ^ (ey - ez)).
  assert (HX : (IZR X * bpow ez = IZR (Zpos mx) * bpow ex)%R).
  { unfold X. rewrite mult_IZR, <- (bpow_IZR (ex - ez)) by (unfold ez; lia).
    rewrite Rmult_assoc, <- bpow_add. f_equal. f_equal. lia. }
  assert (HY : (IZR Y * bpow ez = IZR (Zpos my) * bpow ey)%R).
  { unfold Y. rewrite mult_IZR, <- (bpow_IZR (ey - ez)) by (unfold ez; lia).
    rewrite Rmult_assoc, <- bpow_add. f_equal. f_equal. lia. }
  assert (HXY : Y < X).
  { apply (IZR_mul_lt_reg _ _ (bpow ez) (bpow_pos ez)). lra. }
  assert (HXhi : X < 2 ^ (53 + (ex - ez))).
  { unfold X. rewrite Z.pow_add_r by (unfold ez; lia).
    assert (0 < 2 ^ (ex - ez)) by (apply Z.pow_pos_nonneg; unfold ez; lia). nia. }
  assert (HYpos : 0 < Y).
  { unfold Y. assert (0 < 2 ^ (ey - ez)) by (apply Z.pow_pos_nonneg; unfold ez; lia). nia. }
  destruct (X - Y) as [|pD|pD] eqn:ED; [lia| |lia].
  cbn [binary_normalize].
  pose proof (digits2_pos_bounds pD) as Hd.
  set (d := Zpos (digits2_pos pD)) in *.
  assert (Hd1 : 1 <= d) by (unfold d; lia).
  assert (Hdhi : d - 1 < 53 + (ex - ez)) by (apply pow2_lt_inv; [unfold ez|]; lia).
  destruct (binary_round_spec pD ez) as (M & E & Hn & HE & Hf & _);
    fold d; try (unfold ez; lia).
  fold d in HE.
  exists M, E. split; [exact Hn|]. split; [unfold ez in *; lia|].
  replace (IZR (Zpos mx) * bpow ex - IZR (Zpos my) * bpow ey)%R
    with (IZR (Zpos pD) * bpow ez)%R; [exact Hf|].
  rewrite <- ED, minus_IZR. lra.
Qed.

(** The conversion of a positive integer below [2^53] is exact. *)
Lemma f64_of_Z_spec (n : Z) :
  0 < n < 2 ^ 53 ->
  exists M E,
    pnormal (binary_normalize 53 1024 n 0 false) M E
    /\ -52 <= E <= 1
    /\ B2R (binary_normalize 53 1024 n 0 false) = IZR n.
Proof.
  intros Hn. destruct n as [|p|p]; [lia| |lia]. cbn [binary_normalize].
  pose proof (digits2_pos_bounds p) as Hd.
  set (d := Zpos (digits2_pos p)) in *.
  assert (Hd1 : 1 <= d) by (unfold d; lia).
  assert (Hdhi : d - 1 < 53) by (apply pow2_lt_inv; lia).
  destruct (binary_round_spec p 0) as (M & E & Hnorm & HE & _ & Hex); fold d; try lia.
  fold d in HE, Hex.
  exists M, E. split; [exact Hnorm|]. split; [lia|].
  rewrite (pnormal_B2R _ M E Hnorm), Hex by lia.
  unfold bpow. cbn [powerRZ]. ring.
Qed.

Lemma new_location_exact nb k : new_location nb k = loc_Exact <-> k = 0.
Proof.
  unfold new_location, new_location_even, new_location_odd.
  destruct (Z.even nb); destruct (Z.eqb_spec k 0); split; intros H;
    try reflexivity; try assumption; try discriminate; try contradiction.
Qed.

(** Division. *)
Lemma SFdiv_spec (x y : spec_float) (mx my : positive) (ex ey : Z) :
  pnormal x mx ex -> pnormal y my ey -> -500 <= ex - ey <= 500 ->
  exists M E,
    pnormal (SFdiv 53 1024 x y) M E
    /\ ex - ey - 53 <= E <= ex - ey - 51
    /\ faithful (B2R x / B2R y) (IZR (Zpos M) * bpow E).
Proof.
  intros Hx Hy He.
  pose proof (pnormal_digits _ _ _ Hx) as Hdx. pose proof (pnormal_digits _ _ _ Hy) as Hdy.
  destruct Hx as [-> Hx]. destruct Hy as [-> Hy].
  cbn [SFdiv xorb B2R]. unfold SFdiv_core_binary. cbn [Zdigits2].
  rewrite Hdx, Hdy. rewrite fexp_normal by lia.
  replace (Z.min (53 + ex - (53 + ey) - 53) (ex - ey)) with (ex - ey - 53) by lia.
  replace (ex - ey - (ex - ey - 53)) with 53 by lia.
  set (e' := ex - ey - 53).
  rewrite Z.shiftl_mul_pow2 by lia.
  pose proof (Z_div_mod (Zpos mx * 2 ^ 53) (Zpos my) ltac:(lia)) as Hdm.
  destruct (Z.div_eucl (Zpos mx * 2 ^ 53) (Zpos my)) as [q r].
  destruct Hdm as [Hq Hr].
  assert (Hqr : 2 ^ 52 <= q < 2 ^ 54).
  { change (2 ^ 54) with (2 * 2 ^ 53). change (2 ^ 53) with (2 * 2 ^ 52) in *.
    generalize dependent (2 ^ 52). intros a. intros. nia. }
  destruct q as [|pq|pq]; [lia| |lia].
  pose proof (digits2_pos_bounds pq) as Hd.
  set (d := Zpos (digits2_pos pq)) in *.
  assert (Hd1 : 1 <= d) by (unfold d; lia).
  assert (Hdlo : 52 < d) by (apply pow2_lt_inv; lia).
  assert (Hdhi : d - 1 < 54) by (apply pow2_lt_inv; lia).
  destruct (binary_round_aux_spec pq e' (new_location (Zpos my) r))
    as (M & t & Hres & HM & Ht & Hcase); fold d; try (unfold e'; lia).
  fold d in Hres, Hcase. rewrite Hres.
  exists M, (e' + (d - 53) + t). split; [split; [reflexivity|exact HM]|].
  split; [unfold e'; lia|].
  assert (Hpow : 0 < 2 ^ (d - 53)) by (apply Z.pow_pos_nonneg; lia).
  assert (Hm1 : 2 ^ 52 <= Zpos pq / 2 ^ (d - 53)).
  { replace (d - 1) with (52 + (d - 53)) in Hd by lia.
    rewrite Z.pow_add_r in Hd by lia.
    apply Z.div_le_lower_bound; lia. }
  assert (Hs : 0 <= d - 53) by lia.
  assert (Ht0 : 0 <= t) by lia.
  (* the exact quotient lies between [q] and [q + 1] units *)
  assert (Hmy : (0 < IZR (Zpos my))%R) by (apply IZR_lt; lia).
  assert (Hv : (IZR (Zpos mx) * bpow ex / (IZR (Zpos my) * bpow ey)
                = (IZR (Zpos pq) + IZR r / IZR (Zpos my)) * bpow e')%R).
  { assert (Hex : bpow ex = (IZR (2 ^ 53) * bpow e' * bpow ey)%R).
    { rewrite <- (bpow_IZR 53) by lia. rewrite <- !bpow_add. f_equal. unfold e'. lia. }
    assert (Hmx : (IZR (Zpos mx) * IZR (2 ^ 53) = IZR (Zpos my) * IZR (Zpos pq) + IZR r)%R).
    { rewrite <- !mult_IZR, <- plus_IZR. f_equal. exact Hq. }
    rewrite Hex. pose proof (bpow_pos ey). pose proof (bpow_pos e').
    field_simplify; [|lra|lra]. rewrite Hmx. field. lra. }
  rewrite Hv.
  assert (Hfrac : (0 <= IZR r / IZR (Zpos my) < 1)%R).
  { split.
    - apply Rmult_le_pos; [apply IZR_le; lia|]. apply Rlt_le, Rinv_0_lt_compat, Hmy.
    - apply (Rmult_lt_reg_r (IZR (Zpos my))); [exact Hmy|].
      unfold Rdiv. rewrite Rmult_assoc, Rinv_l, Rmult_1_r, Rmult_1_l by lra.
      apply IZR_lt. lia. }
  pose proof (bpow_pos e') as Hu.
  apply (round_faithful pq M e' (d - 53) t (new_location (Zpos my) r <> loc_Exact)
           _ Hs Ht0 Hm1 Hcase).
  - rewrite plus_IZR. split; nra.
  - intros Hne. rewrite new_location_exact in Hne.
    assert (0 < r) by lia.
    assert (0 < IZR r / IZR (Zpos my))%R.
    { apply Rmult_lt_0_compat; [apply IZR_lt; lia|]. apply Rinv_0_lt_compat, Hmy. }
    nra.
Qed.


(** Truncation to an integer. *)
Lemma f64_to_uint64_spec (f : spec_float) (M : positive) (E : Z) :
  pnormal f M E -> E <= 11 ->
  exists t, f64_to_uint64 f = Some t /\ (IZR t <= B2R f < IZR t + 1)%R.
Proof.
  intros [-> HM] HE. unfold f64_to_uint64, f64_trunc. cbn [B2R].
  destruct (Z.leb_spec 0 E) as [Hpos|Hneg].
  - rewrite Z.shiftl_mul_pow2 by lia.
    assert (Hp : 0 < 2 ^ E <= 2 ^ 11).
    { split; [apply Z.pow_pos_nonneg; lia|apply Z.pow_le_mono_r; lia]. }
    assert (Hr : 0 <= Zpos M * 2 ^ E < 2 ^ 64).
    { change (2 ^ 64) with (2 ^ 53 * 2 ^ 11). change (2 ^ 11) with 2048 in *. nia. }
    destruct (Z.leb_spec 0 (Zpos M * 2 ^ E)); [|lia].
    destruct (Z.ltb_spec (Zpos M * 2 ^ E) (2 ^ 64)); [|lia].
    cbn [andb]. eexists. split; [reflexivity|].
    rewrite mult_IZR, <- (bpow_IZR E) by lia. lra.
  - rewrite Z.shiftr_div_pow2 by lia.
    assert (Hp : 0 < 2 ^ (- E)) by (apply Z.pow_pos_nonneg; lia).
    pose proof (Z.div_mod (Zpos M) (2 ^ (- E)) ltac:(lia)) as Hdm.
    pose proof (Z.mod_pos_bound (Zpos M) (2 ^ (- E)) Hp) as Hmod.
    set (a := Zpos M / 2 ^ (- E)) in *.
    assert (Ha : 0 <= a < 2 ^ 53).
    { split; [apply Z.div_pos; lia|]. apply Z.div_lt_upper_bound; [lia|]. nia. }
    destruct (Z.leb_spec 0 a); [|lia].
    destruct (Z.ltb_spec a (2 ^ 64)); [|change (2 ^ 64) with (2 ^ 53 * 2048) in *; lia].
    cbn [andb]. exists a. split; [reflexivity|].
    pose proof (bpow_pos E) as Hu.
    assert (Hinv : (IZR (2 ^ (- E)) * bpow E = 1)%R).
    { rewrite <- (bpow_IZR (- E)) by lia. rewrite <- bpow_add.
      replace (- E + E) with 0 by lia. reflexivity. }
    assert (Hlo : (IZR (a * 2 ^ (- E)) * bpow E <= IZR (Zpos M) * bpow E)%R)
      by (apply IZR_mul_le_compat; [exact Hu|lia]).
    assert (Hhi : (IZR (Zpos M) * bpow E < IZR ((a + 1) * 2 ^ (- E)) * bpow E)%R)
      by (apply IZR_mul_lt_compat; [exact Hu|lia]).
    rewrite mult_IZR, Rmult_assoc, Hinv in Hlo, Hhi. rewrite plus_IZR in Hhi. lra.
Qed.


(** *** The float-derived percentile index *)

Lemma bpow_neg (k : Z) : 0 <= k -> bpow (- k) = (/ IZR (2 ^ k))%R.
Proof.
  intros Hk. pose proof (bpow_pos k) as Hp.
  apply (Rmult_eq_reg_l (bpow k)); [|lra].
  rewrite <- bpow_add, (bpow_IZR k Hk) in *.
  replace (k + - k) with 0 by lia. rewrite Rinv_r by lra. reflexivity.
Qed.

Lemma dyadic_intro (A E : Z) (k : R) :
  0 <= A < 2 ^ 53 -> k = (IZR A * bpow E)%R -> dyadic k.
Proof. intros HA Hk. exists A, E. split; assumption. Qed.

(** The index [uint64(((float64(n)*c)/100)-1)] for a constant [c] between
    99 and 100: it is the integer part of a number [W] that every pair of
    53-bit bounds on the product and on the quotient encloses. *)
Lemma pctIndexF_sandwich (n : Z) (c : spec_float) (mc : positive) :
  2 <= n < 2 ^ 32 ->
  pnormal c mc (-46) ->
  (99 <= B2R c <= 100)%R ->
  exists idx W,
    pctIndexF n c = Some idx
    /\ (IZR idx <= W < IZR idx + 1)%R
    /\ (forall a b, dyadic a -> dyadic b -> dyadic (b - 1) ->
          (a <= IZR n * B2R c)%R -> (b * 100 <= a)%R -> (b - 1 <= W)%R)
    /\ (forall a b, dyadic a -> dyadic b -> dyadic (b - 1) ->
          (IZR n * B2R c <= a)%R -> (a <= b * 100)%R -> (W <= b - 1)%R).
Proof.
  intros Hn Hc HC.
  unfold pctIndexF, f64_mul, f64_div, f64_sub, f64_of_Z, prec, emax.
  destruct (f64_of_Z_spec n) as (Mx & Ex & Hx & HEx & Vx);
    [change (2 ^ 53) with (2 ^ 32 * 2097152); lia|].
  destruct (f64_of_Z_spec 100) as (Mh & Eh & Hh & HEh & Vh); [lia|].
  destruct (f64_of_Z_spec 1) as (Mo & Eo & Ho & HEo & Vo); [lia|].
  set (x := binary_normalize 53 1024 n 0 false) in *.
  set (h := binary_normalize 53 1024 100 0 false) in *.
  set (o := binary_normalize 53 1024 1 0 false) in *.
  destruct (SFmul_spec x c Mx mc Ex (-46) Hx Hc ltac:(lia)) as (My & Ey & Hy & HEy & Fy).
  set (y := SFmul 53 1024 x c) in *.
  destruct (SFdiv_spec y h My Mh Ey Eh Hy Hh ltac:(lia)) as (Mz & Ez & Hz & HEz & Fz).
  set (z := SFdiv 53 1024 y h) in *.
  rewrite Vx in Fy. rewrite Vh in Fz.
  assert (Hn2 : (2 <= IZR n)%R) by (apply IZR_le; lia).
  (* the quotient is above 3/2, so the difference is positive *)
  assert (Hy198 : (198 <= B2R y)%R).
  { rewrite (pnormal_B2R _ _ _ Hy).
    apply (Fy 198%R); [apply (dyadic_intro 198 0); [lia|unfold bpow; cbn; lra]|nra]. }
  assert (Hz32 : (3 / 2 <= B2R z)%R).
  { rewrite (pnormal_B2R _ _ _ Hz).
    apply (Fz (3 / 2)%R); [apply (dyadic_intro 3 (-1)); [lia|]|lra].
    change (-1) with (- (1)). rewrite (bpow_neg 1) by lia. change (2 ^ 1) with 2. lra. }
  destruct (SFsub_spec z o Mz Mo Ez Eo Hz Ho ltac:(lia) ltac:(lia) ltac:(lra))
    as (Mw & Ew & Hw & HEw & Fw).
  set (w := SFsub 53 1024 z o) in *.
  rewrite Vo in Fw.
  destruct (f64_to_uint64_spec w Mw Ew Hw ltac:(lia)) as (idx & Hidx & Hfloor).
  exists idx, (B2R w). split; [exact Hidx|]. split; [exact Hfloor|].
  rewrite (pnormal_B2R _ _ _ Hy) in *. rewrite (pnormal_B2R _ _ _ Hz) in *.
  rewrite (pnormal_B2R _ _ _ Hw) in *.
  split; intros a b Ha Hb Hb1 H1 H2.
  - assert (Ya : (a <= IZR (Zpos My) * bpow Ey)%R) by (apply (Fy a Ha); exact H1).
    assert (Zb : (b <= IZR (Zpos Mz) * bpow Ez)%R) by (apply (Fz b Hb); lra).
    apply (Fw (b - 1)%R Hb1). lra.
  - assert (Ya : (IZR (Zpos My) * bpow Ey <= a)%R) by (apply (Fy a Ha); exact H1).
    assert (Zb : (IZR (Zpos Mz) * bpow Ez <= b)%R) by (apply (Fz b Hb); lra).
    apply (Fw (b - 1)%R Hb1). lra.
Qed.

Lemma f64_99_9_normal :
  pnormal f64_99_9 7029837543348634 (-46)
  /\ B2R f64_99_9 = (7029837543348634 / 70368744177664)%R.
Proof.
  split; [split; [reflexivity|]|].
  - change (2 ^ 52) with 4503599627370496. change (2 ^ 53) with 9007199254740992. lia.
  - unfold f64_99_9, B2R. change (-46) with (- (46)). rewrite (bpow_neg 46) by lia.
    change (2 ^ 46) with 70368744177664. reflexivity.
Qed.

Lemma f64_99_99_normal :
  pnormal f64_99_99 7036170730324623 (-46)
  /\ B2R f64_99_99 = (7036170730324623 / 70368744177664)%R.
Proof.
  split; [split; [reflexivity|]|].
  - change (2 ^ 52) with 4503599627370496. change (2 ^ 53) with 9007199254740992. lia.
  - unfold f64_99_99, B2R. change (-46) with (- (46)). rewrite (bpow_neg 46) by lia.
    change (2 ^ 46) with 70368744177664. reflexivity.
Qed.

Lemma bpow_0 : bpow 0 = 1%R.
Proof. reflexivity. Qed.

(** For every count that a uint32 holds, the two float-derived indices
    exist, continue the chain of the p99 index, and stay below the count. *)
Theorem pctIndexF_chain (n : Z) :
  2 <= n < 2 ^ 32 ->
  exists a b,
    pctIndexF n f64_99_9 = Some a
    /\ pctIndexF n f64_99_99 = Some b
    /\ n * 99 / 100 - 1 <= a /\ a <= b /\ b <= n - 1.
Proof.
  intros Hn.
  destruct f64_99_9_normal as [N1 V1]. destruct f64_99_99_normal as [N2 V2].
  destruct (pctIndexF_sandwich n f64_99_9 _ Hn N1) as (a & W1 & Ha & F1 & L1 & U1);
    [rewrite V1; lra|].
  destruct (pctIndexF_sandwich n f64_99_99 _ Hn N2) as (b & W2 & Hb & F2 & L2 & U2);
    [rewrite V2; lra|].
  rewrite V1 in L1, U1. rewrite V2 in L2, U2.
  exists a, b. split; [exact Ha|]. split; [exact Hb|].
  assert (Hn2 : (2 <= IZR n)%R) by (apply IZR_le; lia).
  assert (H32 : 2 ^ 32 = 4294967296) by reflexivity.
  assert (H53 : 2 ^ 53 = 9007199254740992) by reflexivity.
  split; [|split].
  - (* p99 <= p999 *)
    set (q := n * 99 / 100).
    assert (Hq : q * 100 <= n * 99 < (q + 1) * 100).
    { unfold q. pose proof (Z.div_mod (n * 99) 100 ltac:(lia)).
      pose proof (Z.mod_pos_bound (n * 99) 100 ltac:(lia)). lia. }
    assert (Hq1 : 1 <= q <= n) by lia.
    assert (Hlow : (IZR q - 1 <= W1)%R).
    { apply (L1 (IZR (99 * n)) (IZR q)).
      - apply (dyadic_intro (99 * n) 0); [lia|rewrite bpow_0; ring].
      - apply (dyadic_intro q 0); [lia|rewrite bpow_0; ring].
      - apply (dyadic_intro (q - 1) 0); [lia|rewrite bpow_0, minus_IZR; ring].
      - rewrite mult_IZR. lra.
      - rewrite <- mult_IZR. apply IZR_le. lia. }
    assert (q - 1 < a + 1); [|lia].
    apply lt_IZR. rewrite minus_IZR, plus_IZR. lra.
  - (* p999 <= p9999 *)
    set (A := n * 1599 * 64 / 25).
    assert (HA : A * 25 <= n * 1599 * 64 < (A + 1) * 25).
    { unfold A. pose proof (Z.div_mod (n * 1599 * 64) 25 ltac:(lia)).
      pose proof (Z.mod_pos_bound (n * 1599 * 64) 25 ltac:(lia)). lia. }
    assert (HA1 : 4096 <= A < 2 ^ 53) by lia.
    assert (B12 : bpow (-12) = (/ 4096)%R).
    { change (-12) with (- (12)). rewrite (bpow_neg 12) by lia. reflexivity. }
    assert (B5 : bpow (-5) = (/ 32)%R).
    { change (-5) with (- (5)). rewrite (bpow_neg 5) by lia. reflexivity. }
    assert (B4 : bpow (-4) = (/ 16)%R).
    { change (-4) with (- (4)). rewrite (bpow_neg 4) by lia. reflexivity. }
    assert (RA : (IZR A * 25 <= IZR n * 102336 < (IZR A + 1) * 25)%R).
    { split.
      - replace (IZR A * 25)%R with (IZR (A * 25)) by (rewrite mult_IZR; reflexivity).
        replace (IZR n * 102336)%R with (IZR (n * 1599 * 64))
          by (rewrite !mult_IZR; ring).
        apply IZR_le. lia.
      - replace ((IZR A + 1) * 25)%R with (IZR ((A + 1) * 25))
          by (rewrite mult_IZR, plus_IZR; reflexivity).
        replace (IZR n * 102336)%R with (IZR (n * 1599 * 64))
          by (rewrite !mult_IZR; ring).
        apply IZR_lt. lia. }
    set (r := (IZR A * / 4096)%R).
    assert (Dr : dyadic r)
      by (apply (dyadic_intro A (-12)); [lia|rewrite B12; reflexivity]).
    assert (Dr1 : dyadic (r - 1)).
    { apply (dyadic_intro (A - 4096) (-12)); [lia|].
      rewrite B12, minus_IZR. unfold r. field. }
    assert (Hup : (W1 <= r - 1)%R).
    { apply (U1 (IZR (3197 * n) * / 32)%R r).
      - apply (dyadic_intro (3197 * n) (-5)); [lia|rewrite B5; reflexivity].
      - exact Dr.
      - exact Dr1.
      - rewrite mult_IZR. lra.
      - rewrite mult_IZR. unfold r. lra. }
    assert (Hlow : (r - 1 <= W2)%R).
    { apply (L2 (IZR (1599 * n) * / 16)%R r).
      - apply (dyadic_intro (1599 * n) (-4)); [lia|rewrite B4; reflexivity].
      - exact Dr.
      - exact Dr1.
      - rewrite mult_IZR. lra.
      - rewrite mult_IZR. unfold r. lra. }
    assert (a < b + 1); [|lia].
    apply lt_IZR. rewrite plus_IZR. lra.
  - (* p9999 <= rttCount - 1 *)
    assert (Hup : (W2 <= IZR n - 1)%R).
    { apply (U2 (IZR (100 * n)) (IZR n)).
      - apply (dyadic_intro (100 * n) 0); [lia|rewrite bpow_0; ring].
      - apply (dyadic_intro n 0); [lia|rewrite bpow_0; ring].
      - apply (dyadic_intro (n - 1) 0); [lia|rewrite bpow_0, minus_IZR; ring].
      - rewrite mult_IZR. lra.
      - rewrite mult_IZR. lra. }
    apply le_IZR. rewrite minus_IZR. lra.
Qed.

(** ** The latency batch *)

Lemma sliceAt_head x a : sliceAt (x :: a) 0 = Some x.
Proof. reflexivity. Qed.

Lemma pctIndex_single :
  pctIndex 2 50 = 0 /\ pctIndex 2 90 = 0 /\ pctIndex 2 95 = 0 /\ pctIndex 2 99 = 0
  /\ pctIndexF 2 f64_99_9 = Some 0 /\ pctIndexF 2 f64_99_99 = Some 0.
Proof. vm_compute. repeat split. Qed.

(** C5. With [rttCount = 1] the count used for indexing is 2, every
    percentile index is 0, and the batch reports the single sample as
    average, minimum, maximum and every percentile. *)
Theorem latencyBatch_single_sample (d : Z) :
  isInt64 d ->
  rttCountFixed 1 = 2
  /\ pctIndex (rttCountFixed 1) 50 = 0 /\ pctIndex (rttCountFixed 1) 99 = 0
  /\ pctIndexF (rttCountFixed 1) f64_99_9 = Some 0
  /\ pctIndexF (rttCountFixed 1) f64_99_99 = Some 0
  /\ latencyBatch 1 [d] = Some (mkLatencyResult (uint64 d) d d d d d d d d d).
Proof.
  intros Hd.
  destruct pctIndex_single as (H50 & H90 & H95 & H99 & H999 & H9999).
  change (rttCountFixed 1) with 2.
  repeat (split; [first [reflexivity | assumption]|]).
  unfold latencyBatch. change (rttCountFixed 1) with 2.
  rewrite H50, H90, H95, H99, H999, H9999.
  change (sumNanos [d]) with (int64 (0 + d)).
  rewrite Z.add_0_l, (int64_small d Hd), Z.quot_1_r.
  reflexivity.
Qed.

Lemma latencyBatch_single_sample_witness :
  isInt64 (ms 4)
  /\ latencyBatch 1 [ms 4]
     = Some (mkLatencyResult 4000000 4000000 4000000 4000000 4000000 4000000
                             4000000 4000000 4000000 4000000).
Proof.
  assert (H : isInt64 (ms 4)) by (unfold isInt64, minInt64, maxInt64, ms; lia).
  split; [exact H|].
  destruct (latencyBatch_single_sample (ms 4) H) as (_ & _ & _ & _ & _ & Hb).
  exact Hb.
Defined.

(** C7. The batch of five samples 9, 1, 5, 3, 7 ms: the indices are
    [(5*50/100)-1 = 1] and 3 for the others, and the batch reports
    min 1, max 9, avg 5, p50 3 and p90 = p95 = p99 = p999 = 7 ms. *)
Theorem latencyBatch_five_samples :
  pctIndex (rttCountFixed 5) 50 = 1
  /\ pctIndex (rttCountFixed 5) 90 = 3
  /\ pctIndex (rttCountFixed 5) 95 = 3
  /\ pctIndex (rttCountFixed 5) 99 = 3
  /\ pctIndexF (rttCountFixed 5) f64_99_9 = Some 3
  /\ SliceStable (map ms [9; 1; 5; 3; 7]) = map ms [1; 3; 5; 7; 9]
  /\ latencyBatch 5 (map ms [9; 1; 5; 3; 7])
     = Some (mkLatencyResult (ms 5) (ms 5) (ms 1) (ms 9) (ms 3) (ms 7) (ms 7) (ms 7)
                             (ms 7) (ms 7)).
Proof. vm_compute. repeat split. Qed.

(** *** Sorting and indexing *)

Lemma insertStable_le x l :
  Forall (Z.le x) l -> insertStable x l = x :: l.
Proof.
  intros H. destruct l as [|y l]; [reflexivity|].
  cbn [insertStable]. inversion H; subst. case_cmp.
Qed.

Lemma SliceStable_sorted_id l : StronglySorted Z.le l -> SliceStable l = l.
Proof.
  induction 1 as [|x l _ IH Hx]; [reflexivity|].
  cbn [SliceStable]. rewrite IH. apply insertStable_le, Hx.
Qed.

Lemma Forall_le_repeat_app x a b n m :
  x <= a -> x <= b -> Forall (Z.le x) (repeat a n ++ repeat b m).
Proof.
  intros Ha Hb. induction n as [|n IH]; cbn [repeat app].
  - induction m as [|m IHm]; cbn [repeat]; constructor; assumption.
  - constructor; assumption.
Qed.

Lemma two_values_sorted a b n m :
  a <= b -> StronglySorted Z.le (repeat a n ++ repeat b m).
Proof.
  intros Hab. induction n as [|n IH]; cbn [repeat app].
  - induction m as [|m IHm]; cbn [repeat]; constructor; [exact IHm|].
    apply (Forall_le_repeat_app b b b 0 m); lia.
  - constructor; [exact IH|]. apply Forall_le_repeat_app; lia.
Qed.

Lemma sliceAt_out_of_range a : forall i, Z.of_nat (length a) <= i -> sliceAt a i = None.
Proof.
  induction a as [|x a IH]; intros i Hi; [reflexivity|].
  cbn [sliceAt length] in *. case_cmp. apply IH. lia.
Qed.

Lemma sliceAt_repeat_app_l a n l : forall i,
  0 <= i < Z.of_nat n -> sliceAt (repeat a n ++ l) i = Some a.
Proof.
  induction n as [|n IH]; intros i Hi; [lia|].
  cbn [repeat app sliceAt]. case_cmp. apply IH. lia.
Qed.

Lemma sliceAt_repeat_app_r a n l : forall i,
  Z.of_nat n <= i -> sliceAt (repeat a n ++ l) i = sliceAt l (i - Z.of_nat n).
Proof.
  induction n as [|n IH]; intros i Hi.
  - cbn [repeat app]. f_equal. lia.
  - cbn [repeat app sliceAt]. case_cmp. rewrite IH by lia. f_equal. lia.
Qed.

Lemma sliceAt_repeat a n i : 0 <= i < Z.of_nat n -> sliceAt (repeat a n) i = Some a.
Proof.
  intros Hi. rewrite <- (app_nil_r (repeat a n)). apply sliceAt_repeat_app_l, Hi.
Qed.

Lemma insertStable_perm x l : Permutation (x :: l) (insertStable x l).
Proof.
  induction l as [|y l IH]; cbn [insertStable]; [reflexivity|].
  destruct (y <? x); [|reflexivity].
  rewrite perm_swap. apply perm_skip, IH.
Qed.

Lemma SliceStable_perm l : Permutation l (SliceStable l).
Proof.
  induction l as [|x l IH]; cbn [SliceStable]; [reflexivity|].
  rewrite <- insertStable_perm. apply perm_skip, IH.
Qed.

Lemma SliceStable_length l : length (SliceStable l) = length l.
Proof. symmetry. apply Permutation_length, SliceStable_perm. Qed.

Lemma insertStable_sorted x l :
  StronglySorted Z.le l -> StronglySorted Z.le (insertStable x l).
Proof.
  induction 1 as [|y l Hs IH Hy]; cbn [insertStable].
  - constructor; constructor.
  - destruct (Z.ltb_spec y x).
    + constructor; [exact IH|].
      apply (Permutation_Forall (insertStable_perm x l)).
      constructor; [lia|exact Hy].
    + constructor; [constructor; assumption|].
      constructor; [lia|].
      eapply Forall_impl; [exact Hy|]. intros z Hz. cbn beta in Hz. lia.
Qed.

Lemma SliceStable_sorted l : StronglySorted Z.le (SliceStable l).
Proof.
  induction l as [|x l IH]; cbn [SliceStable]; [constructor|].
  apply insertStable_sorted, IH.
Qed.

Lemma sliceAt_in_range a : forall i,
  0 <= i < Z.of_nat (length a) -> exists x, sliceAt a i = Some x.
Proof.
  induction a as [|y a IH]; intros i Hi; cbn [length sliceAt] in *; [lia|].
  case_cmp; [eexists; reflexivity|]. apply IH. lia.
Qed.

Lemma sliceAt_In a : forall i x, sliceAt a i = Some x -> In x a.
Proof.
  induction a as [|y a IH]; intros i x H; cbn [sliceAt] in H; [discriminate|].
  destruct (i <? 0); [discriminate|].
  destruct (i =? 0).
  - injection H as ->. left. reflexivity.
  - right. eapply IH, H.
Qed.

Lemma sliceAt_sorted_mono a :
  StronglySorted Z.le a ->
  forall i j x y, i <= j -> sliceAt a i = Some x -> sliceAt a j = Some y -> x <= y.
Proof.
  induction 1 as [|z a Hs IH Hz]; intros i j x y Hij Hi Hj;
    cbn [sliceAt] in Hi, Hj; [discriminate|].
  destruct (Z.ltb_spec i 0); [discriminate|].
  destruct (Z.ltb_spec j 0); [discriminate|].
  destruct (Z.eqb_spec i 0); destruct (Z.eqb_spec j 0).
  - injection Hi as <-. injection Hj as <-. lia.
  - injection Hi as <-. apply sliceAt_In in Hj.
    rewrite List.Forall_forall in Hz. apply Hz, Hj.
  - lia.
  - apply (IH (i - 1) (j - 1)); [lia|assumption|assumption].
Qed.

(** *** Large batches: the uint32 products wrap around *)

Lemma two_values_batch (n m : nat) :
  Z.of_nat n = 10000000 -> Z.of_nat m = 40000000 ->
  exists r,
    latencyBatch 50000000 (repeat (ms 1) n ++ repeat (ms 2) m) = Some r
    /\ p50 r = ms 2 /\ p90 r = ms 1 /\ p90 r < p50 r.
Proof.
  intros Hn Hm.
  assert (H50 : pctIndex (rttCountFixed 50000000) 50 = 24999999) by (vm_compute; reflexivity).
  assert (H90 : pctIndex (rttCountFixed 50000000) 90 = 2050326) by (vm_compute; reflexivity).
  assert (H95 : pctIndex (rttCountFixed 50000000) 95 = 4550326) by (vm_compute; reflexivity).
  assert (H99 : pctIndex (rttCountFixed 50000000) 99 = 6550326) by (vm_compute; reflexivity).
  assert (H999 : pctIndexF (rttCountFixed 50000000) f64_99_9 = Some 49949999)
    by (vm_compute; reflexivity).
  assert (H9999 : pctIndexF (rttCountFixed 50000000) f64_99_99 = Some 49994999)
    by (vm_compute; reflexivity).
  assert (Hmax : uint32 (50000000 - 1) = 49999999) by (vm_compute; reflexivity).
  unfold latencyBatch. rewrite H50, H90, H95, H99, H999, H9999, Hmax.
  rewrite (SliceStable_sorted_id (repeat (ms 1) n ++ repeat (ms 2) m))
    by (apply two_values_sorted; unfold ms; lia).
  remember (sumNanos (repeat (ms 1) n ++ repeat (ms 2) m)) as sum eqn:Es. clear Es.
  destruct (Z.eqb_spec 50000000 0) as [E|_]; [discriminate E|].
  rewrite (sliceAt_repeat_app_l (ms 1) n _ 0) by lia.
  rewrite (sliceAt_repeat_app_l (ms 1) n _ 2050326) by lia.
  rewrite (sliceAt_repeat_app_l (ms 1) n _ 4550326) by lia.
  rewrite (sliceAt_repeat_app_l (ms 1) n _ 6550326) by lia.
  rewrite (sliceAt_repeat_app_r (ms 1) n _ 49999999) by lia.
  rewrite (sliceAt_repeat_app_r (ms 1) n _ 24999999) by lia.
  rewrite !(sliceAt_repeat (ms 2) m) by lia.
  cbn [mbind option_bind].
  rewrite (sliceAt_repeat_app_r (ms 1) n _ 49949999) by lia.
  rewrite (sliceAt_repeat_app_r (ms 1) n _ 49994999) by lia.
  rewrite !(sliceAt_repeat (ms 2) m) by lia.
  cbn [mbind option_bind].
  eexists. split; [reflexivity|]. cbn [p50 p90]. unfold ms. lia.
Qed.

(** C6. The claim: [min <= p50 <= p90 <= ... <= max] for every completed
    batch.  The code at [rttCount = 50000000]: [rttCount*50] fits a uint32
    and gives index 24999999, [rttCount*90] wraps around and gives index
    2050326; the batch completes, and on [skewedSamples] it reports
    p50 = 2 ms above p90 = 1 ms. *)
Theorem latencyBatch_percentiles_out_of_order :
  pctIndex (rttCountFixed 50000000) 50 = 24999999
  /\ pctIndex (rttCountFixed 50000000) 90 = 2050326
  /\ exists r,
       latencyBatch 50000000 skewedSamples = Some r
       /\ p50 r = ms 2 /\ p90 r = ms 1 /\ p90 r < p50 r.
Proof.
  split; [vm_compute; reflexivity|]. split; [vm_compute; reflexivity|].
  unfold skewedSamples. apply two_values_batch; apply Z2Nat.id; lia.
Qed.

(** Whatever the samples, a batch of 43383509 panics at the p99 access. *)
Lemma large_batch_panics (l : list Z) :
  Z.of_nat (length l) = 43383509 -> latencyBatch 43383509 l = None.
Proof.
  intros Hlen.
  assert (H50 : pctIndex (rttCountFixed 43383509) 50 = 21691753) by (vm_compute; reflexivity).
  assert (H90 : pctIndex (rttCountFixed 43383509) 90 = 39045157) by (vm_compute; reflexivity).
  assert (H95 : pctIndex (rttCountFixed 43383509) 95 = 41214332) by (vm_compute; reflexivity).
  assert (H99 : pctIndex (rttCountFixed 43383509) 99 = 4294967295) by (vm_compute; reflexivity).
  assert (Hmax : uint32 (43383509 - 1) = 43383508) by (vm_compute; reflexivity).
  unfold latencyBatch. rewrite H50, H90, H95, H99, Hmax.
  pose proof (SliceStable_length l) as Hl.
  set (a := SliceStable l) in *.
  destruct (Z.eqb_spec 43383509 0) as [E|_]; [discriminate E|].
  assert (Hget : forall i, 0 <= i <= 43383508 -> exists x, sliceAt a i = Some x).
  { intros i Hi. apply sliceAt_in_range. lia. }
  destruct (Hget 0 ltac:(lia)) as [v0 ->].
  destruct (Hget 43383508 ltac:(lia)) as [v1 ->].
  destruct (Hget 21691753 ltac:(lia)) as [v2 ->].
  destruct (Hget 39045157 ltac:(lia)) as [v3 ->].
  destruct (Hget 41214332 ltac:(lia)) as [v4 ->].
  rewrite (sliceAt_out_of_range a 4294967295) by lia.
  reflexivity.
Qed.

(** C10. The claim: for every [rttCount >= 1] each index into the samples
    lies in [0, rttCount-1].  The code at [rttCount = 43383509], the first
    count whose product with 99 does not fit a uint32: the product wraps
    to 95, the p99 index is [0 - 1] in uint32, and the batch panics on it
    whatever the samples.  (With [rttCount = 0] it panics on the division,
    as the claim says.) *)
Theorem latencyBatch_index_out_of_range :
  uint32 (rttCountFixed 43383509 * 99) = 95
  /\ pctIndex (rttCountFixed 43383509) 99 = 4294967295
  /\ ~ (0 <= pctIndex (rttCountFixed 43383509) 99 <= 43383509 - 1)
  /\ latencyBatch 43383509 (repeat (ms 1) (Z.to_nat 43383509)) = None
  /\ latencyBatch 0 [] = None.
Proof.
  split; [vm_compute; reflexivity|].
  split; [vm_compute; reflexivity|].
  split; [vm_compute; intros [_ H]; apply H; reflexivity|].
  split; [|reflexivity].
  apply large_batch_panics. rewrite repeat_length. apply Z2Nat.id. lia.
Qed.

(** *** Batches whose products fit a uint32 *)

(** The integer percentile indices, when [rttCountFixed * pct] fits a
    uint32. *)
Lemma pctIndex_exact n pct :
  2 <= n -> 50 <= pct -> n * pct < 2 ^ 32 ->
  pctIndex n pct = n * pct / 100 - 1 /\ 0 <= pctIndex n pct.
Proof.
  intros Hn Hp Hfit. unfold pctIndex, uint32.
  rewrite (wrapU_small 32 (n * pct)) by nia.
  assert (H1 : 1 <= n * pct / 100) by (apply Z.div_le_lower_bound; nia).
  assert (H2 : n * pct / 100 <= n * pct) by (apply Z.div_le_upper_bound; nia).
  rewrite wrapU_small by lia. lia.
Qed.

Lemma pctIndex_mono n p q :
  2 <= n -> 50 <= p <= q -> n * q < 2 ^ 32 -> pctIndex n p <= pctIndex n q.
Proof.
  intros Hn Hpq Hfit.
  destruct (pctIndex_exact n p) as [-> _]; [lia|lia|nia|].
  destruct (pctIndex_exact n q) as [-> _]; [lia|lia|nia|].
  assert (n * p / 100 <= n * q / 100) by (apply Z.div_le_mono; nia). lia.
Qed.

Lemma pctIndex_99_bound n : 2 <= n -> n * 99 < 2 ^ 32 -> pctIndex n 99 <= n - 1.
Proof.
  intros Hn Hfit. destruct (pctIndex_exact n 99) as [-> _]; [lia|lia|lia|].
  assert (n * 99 / 100 <= n) by (apply Z.div_le_upper_bound; lia). lia.
Qed.

Lemma latencyBatch_chain_of_indices (rttCount : Z) (l : list Z) (i999 i9999 : Z) :
  1 <= rttCount < 2 ^ 32 ->
  Z.of_nat (length l) = rttCount ->
  pctIndexF (rttCountFixed rttCount) f64_99_9 = Some i999 ->
  pctIndexF (rttCountFixed rttCount) f64_99_99 = Some i9999 ->
  0 <= pctIndex (rttCountFixed rttCount) 50
    <= pctIndex (rttCountFixed rttCount) 90 ->
  pctIndex (rttCountFixed rttCount) 90 <= pctIndex (rttCountFixed rttCount) 95 ->
  pctIndex (rttCountFixed rttCount) 95 <= pctIndex (rttCountFixed rttCount) 99 ->
  pctIndex (rttCountFixed rttCount) 99 <= i999 ->
  i999 <= i9999 <= rttCount - 1 ->
  exists r, latencyBatch rttCount l = Some r /\ chain r.
Proof.
  intros Hn Hlen H999 H9999 H50 H90 H95 H99 Hf.
  unfold latencyBatch. rewrite H999, H9999.
  destruct (Z.eqb_spec rttCount 0) as [E|_]; [lia|].
  unfold uint32 at 1. rewrite (wrapU_small 32 (rttCount - 1)) by lia.
  pose proof (SliceStable_sorted l) as Hs.
  pose proof (SliceStable_length l) as Hl.
  set (a := SliceStable l) in *.
  assert (Hget : forall i, 0 <= i <= rttCount - 1 -> exists x, sliceAt a i = Some x).
  { intros i Hi. apply sliceAt_in_range. lia. }
  destruct (Hget 0 ltac:(lia)) as [vmin Emin].
  destruct (Hget (rttCount - 1) ltac:(lia)) as [vmax Emax].
  destruct (Hget (pctIndex (rttCountFixed rttCount) 50) ltac:(lia)) as [v50 E50].
  destruct (Hget (pctIndex (rttCountFixed rttCount) 90) ltac:(lia)) as [v90 E90].
  destruct (Hget (pctIndex (rttCountFixed rttCount) 95) ltac:(lia)) as [v95 E95].
  destruct (Hget (pctIndex (rttCountFixed rttCount) 99) ltac:(lia)) as [v99 E99].
  destruct (Hget i999 ltac:(lia)) as [v999 E999].
  destruct (Hget i9999 ltac:(lia)) as [v9999 E9999].
  rewrite Emin, Emax, E50, E90, E95, E99. cbn [mbind option_bind].
  rewrite E999. cbn [mbind option_bind]. rewrite E9999. cbn [mbind option_bind].
  eexists. split; [reflexivity|].
  unfold chain. cbn [min max p50 p90 p95 p99 p999 p9999].
  pose proof (sliceAt_sorted_mono a Hs) as Hmono.
  repeat split.
  - eapply Hmono; [|exact Emin|exact E50]; lia.
  - eapply Hmono; [|exact E50|exact E90]; lia.
  - eapply Hmono; [|exact E90|exact E95]; lia.
  - eapply Hmono; [|exact E95|exact E99]; lia.
  - eapply Hmono; [|exact E99|exact E999]; lia.
  - eapply Hmono; [|exact E999|exact E9999]; lia.
  - eapply Hmono; [|exact E9999|exact Emax]; lia.
Qed.

(** The chain of C6 and the bounds of C10 for every batch whose uint32
    products do not wrap around: all ten accesses are in range and the
    reported values are in order. *)
Theorem latencyBatch_chain_no_overflow (rttCount : Z) (l : list Z) :
  1 <= rttCount -> rttCount * 99 < 2 ^ 32 ->
  Z.of_nat (length l) = rttCount ->
  exists r, latencyBatch rttCount l = Some r /\ chain r.
Proof.
  intros Hn Hfit Hlen.
  destruct (Z.eq_dec rttCount 1) as [->|Hne].
  - destruct pctIndex_single as (H50 & H90 & H95 & H99 & H999 & H9999).
    apply (latencyBatch_chain_of_indices 1 l 0 0); change (rttCountFixed 1) with 2;
      rewrite ?H50, ?H90, ?H95, ?H99; try assumption; lia.
  - assert (Hfix : rttCountFixed rttCount = rttCount).
    { unfold rttCountFixed. destruct (Z.eqb_spec rttCount 1); [lia|reflexivity]. }
    destruct (pctIndexF_chain rttCount ltac:(lia)) as (i999 & i9999 & E999 & E9999 & H1 & H2 & H3).
    pose proof (pctIndex_exact rttCount 50 ltac:(lia) ltac:(lia) ltac:(lia)) as [_ H0].
    pose proof (pctIndex_exact rttCount 99 ltac:(lia) ltac:(lia) ltac:(lia)) as [H99 _].
    pose proof (pctIndex_mono rttCount 50 90 ltac:(lia) ltac:(lia) ltac:(lia)).
    pose proof (pctIndex_mono rttCount 90 95 ltac:(lia) ltac:(lia) ltac:(lia)).
    pose proof (pctIndex_mono rttCount 95 99 ltac:(lia) ltac:(lia) ltac:(lia)).
    apply (latencyBatch_chain_of_indices rttCount l i999 i9999); rewrite ?Hfix;
      try assumption; lia.
Qed.

(** The bounds of C10 index by index, under the same condition. *)
Theorem latency_indices_in_bounds (rttCount : Z) :
  1 <= rttCount -> rttCount * 99 < 2 ^ 32 ->
  let n := rttCountFixed rttCount in
  let inBounds i := 0 <= i <= rttCount - 1 in
  rttCount <> 0
  /\ inBounds (uint32 (rttCount - 1))
  /\ inBounds (pctIndex n 50) /\ inBounds (pctIndex n 90)
  /\ inBounds (pctIndex n 95) /\ inBounds (pctIndex n 99)
  /\ exists i999 i9999,
       pctIndexF n f64_99_9 = Some i999 /\ inBounds i999
       /\ pctIndexF n f64_99_99 = Some i9999 /\ inBounds i9999.
Proof.
  intros Hn Hfit n inBounds. unfold inBounds.
  assert (Hmax : uint32 (rttCount - 1) = rttCount - 1)
    by (apply wrapU_small; lia).
  rewrite Hmax.
  destruct (Z.eq_dec rttCount 1) as [->|Hne].
  - destruct pctIndex_single as (H50 & H90 & H95 & H99 & H999 & H9999).
    change n with 2. rewrite H50, H90, H95, H99, H999, H9999.
    repeat (split; [lia|]). exists 0, 0. repeat split; lia.
  - assert (Hfix : n = rttCount).
    { unfold n, rttCountFixed. destruct (Z.eqb_spec rttCount 1); [lia|reflexivity]. }
    rewrite Hfix.
    destruct (pctIndexF_chain rttCount ltac:(lia)) as (i999 & i9999 & E999 & E9999 & H1 & H2 & H3).
    pose proof (pctIndex_exact rttCount 50 ltac:(lia) ltac:(lia) ltac:(lia)) as [_ H0].
    pose proof (pctIndex_exact rttCount 99 ltac:(lia) ltac:(lia) ltac:(lia)) as [H99 _].
    pose proof (pctIndex_mono rttCount 50 90 ltac:(lia) ltac:(lia) ltac:(lia)).
    pose proof (pctIndex_mono rttCount 90 95 ltac:(lia) ltac:(lia) ltac:(lia)).
    pose proof (pctIndex_mono rttCount 95 99 ltac:(lia) ltac:(lia) ltac:(lia)).
    pose proof (pctIndex_99_bound rttCount ltac:(lia) Hfit).
    repeat (split; [lia|]). exists i999, i9999.
    split; [exact E999|]. split; [lia|]. split; [exact E9999|]. lia.
Qed.

(** ** The UDP packet handler *)

Section PacketHandlerFacts.

Variable Registry : Type.
Variable createOrGetTest :
  string -> EthrProtocol -> EthrTestType ->
  gmap loc ethrTest * Registry -> (option loc * bool) * (gmap loc ethrTest * Registry).

(** A datagram from a remote that is in the local map: the test is
    touched with the clock and the byte count. *)
Lemma handleDatagram_known (d : Datagram) (w : Worker Registry) (p : loc) :
  tests w !! dgServer d = Some p ->
  handleDatagram createOrGetTest d w
  = (mkWorker (tests w) (alter (touch (dgNow d) (dgN d)) p (store w)) (registry w),
     true).
Proof.
  intros H. unfold handleDatagram. rewrite H.
  rewrite bool_decide_true by (eexists; reflexivity). reflexivity.
Qed.

Lemma touch_fields now n t :
  lastAccess (touch now n t) = now
  /\ pps (testResult (touch now n t)) = uint64 (pps (testResult t) + 1)
  /\ bw (testResult (touch now n t)) = uint64 (bw (testResult t) + uint64 n).
Proof. repeat split. Qed.

(** A datagram from a remote that is not in the local map: the store is
    what [createOrGetTest] left, no test is touched. *)
Lemma handleDatagram_new (d : Datagram) (w : Worker Registry)
    (test' : option loc) (isNew : bool) (st : gmap loc ethrTest) (reg : Registry) :
  tests w !! dgServer d = None ->
  createOrGetTest (dgServer d) UDP All (store w, registry w) = (test', isNew, (st, reg)) ->
  handleDatagram createOrGetTest d w
  = (mkWorker (match test' with
               | Some p => <[dgServer d := p]> (tests w)
               | None => tests w
               end) st reg,
     negb (isNew && dgHandshakeErr d)).
Proof.
  intros H Hc. unfold handleDatagram. rewrite H, Hc.
  rewrite bool_decide_false by (intros [x Hx]; discriminate Hx).
  cbn [negb]. destruct (isNew && dgHandshakeErr d); reflexivity.
Qed.

End PacketHandlerFacts.

(** C1. The claim: for every datagram, also the first one from a new
    remote, the test has [lastAccess] set to the clock, [pps] one higher
    and [bw] higher by the byte count.  The code on a fresh handler: after
    the first datagram the test exists and is in the local map, with
    [pps = 0], [bw = 0] and the [lastAccess] it was created with; only the
    second datagram is counted. *)
Theorem first_datagram_not_counted :
  let created := mkEthrTest "10.0.0.7" UDP All (mkTestResult 0 0 0 0) 0 true in
  let w1 := fst (handleDatagram specCreateOrGetTest firstDatagram freshWorker) in
  let w2 := fst (handleDatagram specCreateOrGetTest secondDatagram w1) in
  snd (handleDatagram specCreateOrGetTest firstDatagram freshWorker) = true
  /\ tests w1 !! "10.0.0.7"%string = Some 1%positive
  /\ store w1 !! 1%positive = Some created
  /\ store w2 !! 1%positive
     = Some (mkEthrTest "10.0.0.7" UDP All (mkTestResult 100 0 1 0) 6000 true)
  /\ store (srvrRunUDPPacketHandler specCreateOrGetTest
              [Some firstDatagram; Some secondDatagram] freshWorker) !! 1%positive
     = Some (touch 6000 100 created).
Proof. vm_compute. repeat split. Qed.

(** * Further properties *)

(** ** calcHopData over a run of probes *)

Section CalcHopDataRuns.

Variable counterBits : Z.

Lemma aggregate_snoc h rs r :
  aggregate counterBits h (rs ++ [r])
  = calcHopData counterBits (aggregate counterBits h rs) (fst r) (snd r).
Proof. unfold aggregate. rewrite fold_left_app. reflexivity. Qed.

Lemma calcHopData_brackets h peer e :
  let r := calcHopData counterBits h peer e in
  Best r <= Best h /\ Worst h <= Worst r /\ Best r <= e <= Worst r.
Proof. cbn [calcHopData Best Worst]. case_cmp. Qed.

Lemma aggregate_brackets rs : forall h,
  let r := aggregate counterBits h rs in
  Best r <= Best h /\ Worst h <= Worst r
  /\ Forall (fun x => Best r <= snd x <= Worst r) rs.
Proof.
  induction rs as [|x rs IH]; intros h r.
  - subst r. cbn. repeat split; try lia. constructor.
  - subst r. rewrite aggregate_cons.
    destruct (IH (calcHopData counterBits h (fst x) (snd x))) as (Hb & Hw & Hall).
    destruct (calcHopData_brackets h (fst x) (snd x)) as (Hb1 & Hw1 & He).
    repeat split; try lia. constructor; [lia|exact Hall].
Qed.

Lemma aggregate_totals rs : forall h,
  0 <= Total h -> Total h + sumElapsed rs <= maxInt64 ->
  0 <= Rcvd h -> Rcvd h + Z.of_nat (length rs) < 2 ^ counterBits ->
  0 <= Worst h ->
  Forall (fun x => 0 <= snd x) rs ->
  let r := aggregate counterBits h rs in
  Total r = Total h + sumElapsed rs
  /\ Rcvd r = Rcvd h + Z.of_nat (length rs)
  /\ Worst r = Z.max (Worst h) (maxElapsed rs)
  /\ Sent r = Sent h /\ Lost r = Lost h.
Proof.
  induction rs as [|x rs IH]; intros h Ht Hsum Hr Hcnt Hw0 Hall r.
  - subst r. cbn. repeat split; lia.
  - subst r. rewrite aggregate_cons.
    inversion Hall as [|? ? Hx Hrest]; subst.
    cbn [sumElapsed fold_right] in Hsum. fold (sumElapsed rs) in Hsum.
    cbn [length] in Hcnt.
    assert (Hs0 : 0 <= sumElapsed rs).
    { clear -Hrest. induction Hrest as [|y l Hy _ IHl]; cbn; [lia|].
      fold (sumElapsed l). lia. }
    set (h1 := calcHopData counterBits h (fst x) (snd x)).
    assert (HT : Total h1 = Total h + snd x).
    { subst h1. cbn [calcHopData Total]. apply int64_small.
      unfold isInt64, minInt64, maxInt64 in *. lia. }
    assert (HR : Rcvd h1 = Rcvd h + 1).
    { subst h1. cbn [calcHopData Rcvd]. unfold incr. apply wrapU_small. lia. }
    assert (HW : Worst h1 = Z.max (Worst h) (snd x)).
    { subst h1. cbn [calcHopData Worst]. case_cmp. }
    assert (Hw1 : 0 <= Worst h1) by lia.
    pose proof (IH h1 ltac:(lia) ltac:(lia) ltac:(lia) ltac:(lia) Hw1 Hrest) as H.
    cbv zeta in H. destruct H as (E1 & E2 & E3 & E4 & E5).
    rewrite E1, E2, E3, E4, E5, HT, HR, HW.
    cbn [sumElapsed maxElapsed fold_right length].
    fold (sumElapsed rs). fold (maxElapsed rs).
    repeat split; lia.
Qed.

Lemma maxElapsed_bound rs :
  Forall (fun x => 0 <= snd x) rs ->
  sumElapsed rs <= maxElapsed rs * Z.of_nat (length rs).
Proof.
  induction 1 as [|x rs Hx _ IH]; [cbn; lia|].
  cbn [sumElapsed maxElapsed fold_right length].
  fold (sumElapsed rs). fold (maxElapsed rs).
  assert (0 <= maxElapsed rs).
  { clear. induction rs as [|y l IHl]; cbn; [lia|]. fold (maxElapsed l). lia. }
  nia.
Qed.

End CalcHopDataRuns.

(** X1. Whatever the data a hop starts from, after a run of successful
    probes [best] is not above and [worst] not below their initial values,
    every elapsed time of the run lies between [best] and [worst], and
    after at least one probe [best <= last <= worst], where [last] and
    [addr] are those of the most recent probe. *)
Theorem aggregate_best_last_worst (counterBits : Z) (h : HopData)
    (rs : list (string * Z)) :
  let r := aggregate counterBits h rs in
  Best r <= Best h /\ Worst h <= Worst r
  /\ Forall (fun x => Best r <= snd x <= Worst r) rs
  /\ (forall rs' x, rs = rs' ++ [x] ->
        Addr r = fst x /\ Last r = snd x /\ Best r <= Last r <= Worst r).
Proof.
  intros r. destruct (aggregate_brackets counterBits rs h) as (Hb & Hw & Hall).
  fold r in Hb, Hw, Hall.
  repeat split; try assumption.
  - subst r rs. rewrite aggregate_snoc. reflexivity.
  - subst r rs. rewrite aggregate_snoc. reflexivity.
  - subst r rs. rewrite aggregate_snoc.
    apply (calcHopData_brackets counterBits).
  - subst r rs. rewrite aggregate_snoc.
    apply (calcHopData_brackets counterBits).
Qed.

(** X2. From the zero value, a run of successful probes with non-negative
    elapsed times whose sum fits an int64 and whose number fits the
    counter: [total] is the sum of the elapsed times, [rcvd] their number,
    [worst] the largest of them, [sent] and [lost] stay 0, and the mean
    [total / rcvd] is at most [worst]. *)
Theorem aggregate_from_zero (counterBits : Z) (rs : list (string * Z)) :
  Forall (fun x => 0 <= snd x) rs ->
  sumElapsed rs <= maxInt64 ->
  Z.of_nat (length rs) < 2 ^ counterBits ->
  let r := aggregate counterBits zeroHopData rs in
  Total r = sumElapsed rs
  /\ Rcvd r = Z.of_nat (length rs)
  /\ Worst r = maxElapsed rs
  /\ Sent r = 0 /\ Lost r = 0
  /\ Total r <= Worst r * Rcvd r.
Proof.
  intros Hall Hsum Hcnt r.
  assert (Ha : 0 <= Total zeroHopData) by (cbn; lia).
  assert (Hb : Total zeroHopData + sumElapsed rs <= maxInt64) by (cbn; lia).
  assert (Hc : 0 <= Rcvd zeroHopData) by (cbn; lia).
  assert (Hd : Rcvd zeroHopData + Z.of_nat (length rs) < 2 ^ counterBits) by (cbn; lia).
  assert (He : 0 <= Worst zeroHopData) by (cbn; lia).
  pose proof (aggregate_totals counterBits rs zeroHopData Ha Hb Hc Hd He Hall) as H.
  cbv zeta in H. fold r in H. destruct H as (E1 & E2 & E3 & E4 & E5).
  cbn [zeroHopData Total Rcvd Worst Sent Lost] in E1, E2, E3, E4, E5.
  assert (H0 : 0 <= maxElapsed rs).
  { clear. induction rs as [|y l IHl]; cbn; [lia|]. fold (maxElapsed l). lia. }
  rewrite E1, E2, E3, E4, E5, Z.max_r by exact H0.
  repeat split; try lia. apply maxElapsed_bound, Hall.
Qed.

Lemma aggregate_from_zero_witness :
  let r := aggregate 32 zeroHopData
             [("10.0.0.1"%string, 5000000); ("10.0.0.1"%string, 3000000)] in
  Total r = 8000000 /\ Rcvd r = 2 /\ Worst r = 5000000.
Proof.
  assert (H1 : Forall (fun x : string * Z => 0 <= snd x)
                 [("10.0.0.1"%string, 5000000); ("10.0.0.1"%string, 3000000)])
    by (repeat constructor; cbn; lia).
  assert (H2 : sumElapsed [("10.0.0.1"%string, 5000000); ("10.0.0.1"%string, 3000000)]
               <= maxInt64) by (vm_compute; discriminate).
  assert (H3 : Z.of_nat (length [("10.0.0.1"%string, 5000000); ("10.0.0.1"%string, 3000000)])
               < 2 ^ 32) by (vm_compute; reflexivity).
  pose proof (aggregate_from_zero 32 _ H1 H2 H3) as H.
  cbv zeta in H. destruct H as (E1 & E2 & E3 & _).
  intros r. split; [exact E1|]. split; [exact E2|exact E3].
Defined.

(** ** probeHop: what a probe leaves alone *)

Section ProbeFrame.

Variable counterBits : Z.

Lemma finishProbe_cases h hopIP peerAddr elapsed isLast :
  let r := finishProbe counterBits h hopIP peerAddr elapsed isLast in
  (probeLost hopIP peerAddr = true
   /\ r = (incrLost counterBits h, Returned (Some ErrHopUnreachable) isLast))
  \/ (probeLost hopIP peerAddr = false
      /\ r = (calcHopData counterBits h peerAddr elapsed, Returned None isLast)).
Proof.
  unfold finishProbe. destruct (probeLost hopIP peerAddr); [left|right]; split; reflexivity.
Qed.

(** Every way [probeHop] can go, with the data it leaves. *)
Lemma probeHop_inv nt test hop hopIP env h :
  let r := probeHop counterBits nt test hop hopIP env h in
  let conn := dial env (DialAddr test) (LocalIP nt) (probeLocalPort nt hop) hop in
  (icmpNewConnFails env = true /\ r = (h, Returned (Some ErrIcmpConn) false))
  \/ (icmpNewConnFails env = false /\ conn = None
      /\ icmpReceiver (probeFingerprint nt test hop) (received env) = None
      /\ r = (incrSent counterBits h, Waiting))
  \/ (icmpNewConnFails env = false
      /\ exists peerAddr elapsed isLast,
           ((exists t, conn = Some t /\ isLast = true /\ peerAddr = RemoteIP test)
            \/ (conn = None /\ isLast = false
                /\ exists t, icmpReceiver (probeFingerprint nt test hop) (received env)
                             = Some (t, peerAddr)))
           /\ ((probeLost hopIP peerAddr = true
                /\ r = (incrLost counterBits (incrSent counterBits h),
                        Returned (Some ErrHopUnreachable) isLast))
               \/ (probeLost hopIP peerAddr = false
                   /\ r = (calcHopData counterBits (incrSent counterBits h) peerAddr elapsed,
                           Returned None isLast)))).
Proof.
  unfold probeHop. destruct (icmpNewConnFails env) eqn:Hc; cbv zeta.
  - left. split; reflexivity.
  - right.
    destruct (dial env (DialAddr test) (LocalIP nt) (probeLocalPort nt hop) hop)
      as [endTime|] eqn:Hd.
    + right. split; [reflexivity|].
      exists (RemoteIP test), (timeSub endTime (startTime env)), true.
      split; [left; exists endTime; repeat split|].
      apply finishProbe_cases.
    + destruct (icmpReceiver (probeFingerprint nt test hop) (received env))
        as [[endTime peerAddr]|] eqn:Hr.
      * right. split; [reflexivity|].
        exists peerAddr, (timeSub endTime (startTime env)), false.
        split; [right; repeat split; exists endTime; reflexivity|].
        apply finishProbe_cases.
      * left. repeat split.
Qed.

End ProbeFrame.

(** X3. A probe that returns an error leaves the hop's address, names,
    [last], [best], [worst], [total] and [rcvd] as they were.  When the
    ICMP listener cannot be created nothing at all changes and the probe
    is not the last one; when the hop is unreachable [sent] and [lost]
    have each gone up by one. *)
Theorem probeHop_error_keeps_measurements (counterBits : Z) (nt : NetTools)
    (test : Test) (hop : Z) (hopIP : string) (env : ProbeEnv) (h h' : HopData)
    (e : ProbeError) (isLast : bool) :
  probeHop counterBits nt test hop hopIP env h = (h', Returned (Some e) isLast) ->
  sameMeasurements h h' /\ Rcvd h' = Rcvd h
  /\ match e with
     | ErrIcmpConn => h' = h /\ isLast = false /\ icmpNewConnFails env = true
     | ErrHopUnreachable =>
         Sent h' = incr counterBits (Sent h) /\ Lost h' = incr counterBits (Lost h)
         /\ icmpNewConnFails env = false
     end.
Proof.
  intros H.
  pose proof (probeHop_inv counterBits nt test hop hopIP env h) as Hi.
  cbv zeta in Hi. rewrite H in Hi.
  destruct Hi as [[Hc Hr]|[(Hc & _ & _ & Hr)|(Hc & peer & el & il & _ & [[_ Hr]|[_ Hr]])]];
    inversion Hr; subst; unfold sameMeasurements; cbn; repeat split; assumption.
Qed.

Lemma probeHop_error_keeps_measurements_witness :
  let env := mkProbeEnv false 2000000 (fun _ _ _ _ => None)
               [mkIcmpRecv (ICMPv4 11) sampleQuoted "" 7000000] in
  Lost (fst (probeHop 32 sampleNetTools sampleTest 1 "" env sampleHop)) = 1
  /\ Worst (fst (probeHop 32 sampleNetTools sampleTest 1 "" env sampleHop)) = 5000000.
Proof.
  intros env.
  assert (H : probeHop 32 sampleNetTools sampleTest 1 "" env sampleHop
              = (fst (probeHop 32 sampleNetTools sampleTest 1 "" env sampleHop),
                 Returned (Some ErrHopUnreachable) false))
    by (vm_compute; reflexivity).
  pose proof (probeHop_error_keeps_measurements 32 _ _ _ _ _ _ _ _ _ H)
    as ((_ & _ & _ & _ & _ & Hw & _) & _ & _ & Hl & _).
  split; [exact Hl|exact Hw].
Defined.

(** X4. A probe reports that it reached the destination exactly when it
    got its ICMP listener and the dial succeeded; the ICMP replies play no
    part.  Such a probe returns no error exactly when the destination
    address is not empty and does not differ from a non-empty expected
    address, and then the hop's address is the destination address. *)
Theorem probeHop_isLast_iff (counterBits : Z) (nt : NetTools) (test : Test)
    (hop : Z) (hopIP : string) (env : ProbeEnv) (h : HopData) :
  let r := probeHop counterBits nt test hop hopIP env h in
  ((exists err, snd r = Returned err true)
   <-> icmpNewConnFails env = false
       /\ is_Some (dial env (DialAddr test) (LocalIP nt) (probeLocalPort nt hop) hop))
  /\ (snd r = Returned None true
      <-> icmpNewConnFails env = false
          /\ is_Some (dial env (DialAddr test) (LocalIP nt) (probeLocalPort nt hop) hop)
          /\ probeLost hopIP (RemoteIP test) = false)
  /\ (snd r = Returned None true -> Addr (fst r) = RemoteIP test).
Proof.
  intros r.
  pose proof (probeHop_inv counterBits nt test hop hopIP env h) as Hi.
  cbv zeta in Hi. fold r in Hi.
  assert (Hsome : forall (x : option Z), is_Some x -> x = None -> False)
    by (intros x [y ->]; discriminate).
  destruct Hi as [[Hc Hr]|[(Hc & Hd & _ & Hr)|(Hc & peer & el & il & Hway & Hres)]].
  - rewrite Hr, Hc. cbn [fst snd].
    repeat split; intros; destruct_and?; destruct_or?; try discriminate;
      repeat match goal with H : ex _ |- _ => destruct H end; discriminate.
  - rewrite Hr, Hd. cbn [fst snd].
    repeat split; intros; destruct_and?; try discriminate;
      repeat match goal with H : ex _ |- _ => destruct H end; try discriminate;
      exfalso; eapply Hsome; eauto.
  - destruct Hway as [(t & Hd & -> & ->)|(Hd & -> & t & Hrecv)].
    + rewrite Hd.
      destruct Hres as [[Hl Hr]|[Hl Hr]]; rewrite Hr, Hl; cbn [fst snd calcHopData Addr];
        repeat split; intros; destruct_and?; try discriminate; try assumption;
        try (eexists; reflexivity).
    + rewrite Hd.
      destruct Hres as [[Hl Hr]|[Hl Hr]]; rewrite Hr; cbn [fst snd];
        repeat split; intros; destruct_and?; try discriminate;
        repeat match goal with H : ex _ |- _ => destruct H end; try discriminate;
        exfalso; eapply Hsome; eauto.
Qed.

(** ** probeHops: the identity of a hop *)

Lemma probeHop_keeps_addr (counterBits : Z) (nt : NetTools) (test : Test) (hop : Z)
    (env : ProbeEnv) (h : HopData) :
  Addr h <> ""%string ->
  let r := probeHop counterBits nt test hop (Addr h) env h in
  Addr (fst r) = Addr h /\ Name (fst r) = Name h /\ FullName (fst r) = FullName h.
Proof.
  intros Hne r.
  pose proof (probeHop_inv counterBits nt test hop (Addr h) env h) as Hi.
  cbv zeta in Hi. fold r in Hi.
  destruct Hi as [[_ Hr]|[(_ & _ & _ & Hr)|(_ & peer & el & il & _ & [[_ Hr]|[Hl Hr]])]];
    rewrite Hr; cbn; repeat split.
  destruct (probeLost_spec (Addr h) peer) as [_ Hback].
  destruct (String.eqb_spec peer (Addr h)) as [E|E]; [exact E|].
  rewrite Hback in Hl; [discriminate|]. right. split; assumption.
Qed.

(** X5. The MTR loop on a hop whose address is known never changes the
    hop's address or names: a probe whose peer is another address counts
    as lost, it does not replace the address. *)
Theorem probeHops_keeps_identity (counterBits : Z) (nt : NetTools) (test : Test)
    (hop : Z) (envs : list ProbeEnv) (h : HopData) :
  Addr h <> ""%string ->
  let r := probeHops counterBits nt test hop envs h in
  Addr (fst r) = Addr h /\ Name (fst r) = Name h /\ FullName (fst r) = FullName h.
Proof.
  revert h. induction envs as [|env rest IH]; intros h Hne; cbn [probeHops].
  - repeat split.
  - pose proof (probeHop_keeps_addr counterBits nt test (hop + 1) env h Hne) as Hk.
    cbv zeta in Hk.
    destruct (probeHop counterBits nt test (hop + 1) (Addr h) env h) as [h' out].
    cbn [fst] in Hk. destruct Hk as (Ea & En & Ef).
    destruct out as [err isLast|].
    + assert (Hne' : Addr h' <> ""%string) by (rewrite Ea; exact Hne).
      specialize (IH h' Hne'). cbv zeta in IH.
      rewrite <- Ea, <- En, <- Ef. exact IH.
    + cbn [fst]. repeat split; assumption.
Qed.

Lemma probeHops_keeps_identity_witness :
  Addr (fst (probeHops 32 sampleNetTools sampleTest 0
               [sampleEnv; threeHopEnvs 2; sampleEnv] sampleHop)) = "10.0.0.1"%string.
Proof.
  assert (Hne : Addr sampleHop <> ""%string) by discriminate.
  pose proof (probeHops_keeps_identity 32 sampleNetTools sampleTest 0
                [sampleEnv; threeHopEnvs 2; sampleEnv] sampleHop Hne) as H.
  cbv zeta in H. destruct H as (Ea & _). exact Ea.
Defined.

(** X6. Over a run of the MTR loop on a hop that starts with
    [sent = rcvd + lost], as long as [sent] does not wrap around:
    [sent = rcvd + lost] whenever no probe is in flight, and
    [sent = rcvd + lost + 1] while the loop is stuck in a probe whose
    reply never comes. *)
Theorem probeHops_sent_rcvd_lost (counterBits : Z) (nt : NetTools) (test : Test)
    (hop : Z) (envs : list ProbeEnv) (h : HopData) :
  0 <= Rcvd h -> 0 <= Lost h -> Rcvd h + Lost h = Sent h ->
  Sent h + Z.of_nat (length envs) < 2 ^ counterBits ->
  let r := probeHops counterBits nt test hop envs h in
  Sent (fst r) = Rcvd (fst r) + Lost (fst r) + (if snd r then 1 else 0)
  /\ Sent h <= Sent (fst r) <= Sent h + Z.of_nat (length envs).
Proof.
  revert h. induction envs as [|env rest IH]; intros h H0 H1 H2 H3; cbn [probeHops].
  - cbn [fst snd length]. lia.
  - cbn [length] in H3 |- *.
    destruct (icmpNewConnFails env) eqn:Hconn.
    + unfold probeHop. rewrite Hconn.
      specialize (IH h H0 H1 H2 ltac:(lia)). cbv zeta in IH. lia.
    + pose proof (probeHop_step counterBits nt test (hop + 1) (Addr h) env h
                    Hconn H0 H1 H2 ltac:(lia)) as Hstep.
      cbv zeta in Hstep.
      destruct (probeHop counterBits nt test (hop + 1) (Addr h) env h) as [h' out].
      cbn [fst snd] in Hstep. destruct Hstep as (Hr & Hl & Hs & Heq).
      destruct out as [err isLast|].
      * specialize (IH h' Hr Hl ltac:(lia) ltac:(lia)). cbv zeta in IH. lia.
      * cbn [fst snd]. lia.
Qed.

Lemma probeHops_sent_rcvd_lost_witness :
  let r := probeHops 32 sampleNetTools sampleTest 0 [sampleEnv; sampleEnv] zeroHopData in
  Sent (fst r) = Rcvd (fst r) + Lost (fst r) + (if snd r then 1 else 0).
Proof.
  intros r.
  assert (H0 : 0 <= Rcvd zeroHopData) by (cbn; lia).
  assert (H1 : 0 <= Lost zeroHopData) by (cbn; lia).
  assert (H2 : Rcvd zeroHopData + Lost zeroHopData = Sent zeroHopData) by reflexivity.
  assert (H3 : Sent zeroHopData + Z.of_nat (length [sampleEnv; sampleEnv]) < 2 ^ 32)
    by (vm_compute; reflexivity).
  exact (proj1 (probeHops_sent_rcvd_lost 32 sampleNetTools sampleTest 0
                  [sampleEnv; sampleEnv] zeroHopData H0 H1 H2 H3)).
Defined.

(** ** The ICMP receiver *)

(** X7. The receiver accepts a message exactly when it is a TimeExceeded
    (type 11 of ICMPv4, type 3 of ICMPv6) whose quoted packet contains the
    fingerprint but does not start with it. *)
Theorem icmpAccepts_iff (b : list Z) (m : IcmpRecv) :
  icmpAccepts b m = true
  <-> (rType m = ICMPv4 11 \/ rType m = ICMPv6 3)
      /\ (exists pre post, rData m = pre ++ b ++ post)
      /\ ~ (exists post, rData m = b ++ post).
Proof.
  unfold icmpAccepts.
  assert (Ht : isTimeExceeded (rType m) = true
               <-> rType m = ICMPv4 11 \/ rType m = ICMPv6 3).
  { destruct (rType m) as [n|n]; cbn [isTimeExceeded]; rewrite Z.eqb_eq; split.
    - intros ->. left. reflexivity.
    - intros [H|H]; [injection H as ->; reflexivity|discriminate H].
    - intros ->. right. reflexivity.
    - intros [H|H]; [discriminate H|injection H as ->; reflexivity]. }
  destruct (isTimeExceeded (rType m)).
  - cbv zeta. rewrite bytesIndex_positive. intuition.
  - split; [discriminate|]. intros [H _]. apply Ht in H. discriminate H.
Qed.

(** X8. The receiving goroutine hands over the clock and the peer of the
    first message it accepts: the messages before it are the rejected
    ones, the messages after it are never read; and it hands over nothing
    exactly when every message is rejected. *)
Theorem icmpReceiver_first_accepted (b : list Z) (stream : list IcmpRecv) :
  (forall t p,
     icmpReceiver b stream = Some (t, p)
     <-> exists pre m post,
           stream = pre ++ m :: post
           /\ Forall (fun x => icmpAccepts b x = false) pre
           /\ icmpAccepts b m = true /\ t = rNow m /\ p = rPeer m)
  /\ (icmpReceiver b stream = None
      <-> Forall (fun x => icmpAccepts b x = false) stream).
Proof.
  induction stream as [|m0 rest [IHs IHn]].
  - split.
    + intros t p. split; [discriminate|].
      intros (pre & m & post & H & _). destruct pre; discriminate H.
    + split; [constructor|reflexivity].
  - cbn [icmpReceiver]. destruct (icmpAccepts b m0) eqn:Ea; split.
    + intros t p. split.
      * intros H. injection H as <- <-. exists [], m0, rest.
        repeat split; [constructor|exact Ea].
      * intros (pre & m & post & Hs & Hpre & Hm & -> & ->).
        destruct pre as [|x pre]; cbn in Hs; injection Hs as -> Hs.
        -- reflexivity.
        -- inversion Hpre as [|? ? Hx _]; subst. rewrite Ea in Hx. discriminate.
    + split; [discriminate|]. intros H. inversion H as [|? ? Hx _]; subst.
      rewrite Ea in Hx. discriminate.
    + intros t p. rewrite IHs. split.
      * intros (pre & m & post & -> & Hpre & Hm & Ht & Hp).
        exists (m0 :: pre), m, post. repeat split; try assumption.
        constructor; assumption.
      * intros (pre & m & post & Hs & Hpre & Hm & Ht & Hp).
        destruct pre as [|x pre]; cbn in Hs; injection Hs as -> Hs.
        -- rewrite Hm in Ea. discriminate.
        -- inversion Hpre; subst. exists pre, m, post. repeat split; assumption.
    + rewrite IHn. split.
      * intros H. constructor; assumption.
      * intros H. inversion H; assumption.
Qed.

(** ** Local ports and fingerprints across TTLs *)

Lemma probeLocalPort_range nt hop : 0 <= probeLocalPort nt hop < 2 ^ 16.
Proof. rewrite probeLocalPort_mod. apply Z.mod_pos_bound. lia. Qed.

Lemma PutUint16_inj v w :
  0 <= v < 2 ^ 16 -> 0 <= w < 2 ^ 16 -> PutUint16 v = PutUint16 w -> v = w.
Proof.
  intros Hv Hw H. rewrite !PutUint16_big_endian in H by assumption.
  injection H as Hd Hm.
  rewrite (Z.div_mod v 256), (Z.div_mod w 256) by lia. rewrite Hd, Hm. reflexivity.
Qed.

(** X9. Two TTLs give the same local port, and the same fingerprint, exactly
    when they differ by a multiple of 2^16: the probes of TTL 1 to 65535
    are pairwise distinguishable, and no more than those. *)
Theorem probeFingerprint_injective (nt : NetTools) (test : Test) (h1 h2 : Z) :
  (probeLocalPort nt h1 = probeLocalPort nt h2 <-> (h1 - h2) mod 2 ^ 16 = 0)
  /\ (probeFingerprint nt test h1 = probeFingerprint nt test h2
      <-> (h1 - h2) mod 2 ^ 16 = 0).
Proof.
  assert (Hp : probeLocalPort nt h1 = probeLocalPort nt h2 <-> (h1 - h2) mod 2 ^ 16 = 0).
  { rewrite !probeLocalPort_mod, Z.cong_iff_0.
    match goal with |- (?a mod _ = 0) <-> _ => replace a with (h1 - h2) by lia end.
    reflexivity. }
  split; [exact Hp|]. rewrite <- Hp. unfold probeFingerprint. cbv zeta. split.
  - intros H. apply PutUint16_inj; try apply probeLocalPort_range.
    unfold PutUint16 in *. cbn [app] in H. injection H as H1 H2.
    rewrite H1, H2. reflexivity.
  - intros ->. reflexivity.
Qed.

(** ** lookupHopName *)

Lemma string_append_cons (c : ascii) (s t : string) :
  (String c s ++ t)%string = String c (s ++ t).
Proof. reflexivity. Qed.

Lemma string_append_nil (t : string) : ("" ++ t)%string = t.
Proof. reflexivity. Qed.

Lemma string_length_append (s t : string) :
  String.length (s ++ t) = (String.length s + String.length t)%nat.
Proof.
  induction s as [|c s IH]; [reflexivity|].
  rewrite string_append_cons. cbn [String.length]. rewrite IH. reflexivity.
Qed.

Lemma substring_length (s : string) : forall n,
  String.length (String.substring 0 n s) = Nat.min n (String.length s).
Proof.
  induction s as [|c s IH]; intros [|n]; cbn; try reflexivity.
  rewrite IH. reflexivity.
Qed.

Lemma substring_append (s t : string) :
  String.substring 0 (String.length s) (s ++ t) = s.
Proof.
  induction s as [|c s IH].
  - rewrite string_append_nil. destruct t; reflexivity.
  - rewrite string_append_cons. cbn [String.length String.substring].
    rewrite IH. reflexivity.
Qed.

Lemma lastIsDot_iff (name : string) :
  lastIsDot name = true <-> exists s, name = (s ++ ".")%string.
Proof.
  unfold lastIsDot. split.
  - induction name as [|c name IH]; [discriminate|].
    destruct name as [|d name].
    + cbn. destruct (Ascii.eqb_spec c "."%char) as [->|]; [|discriminate].
      intros _. exists ""%string. reflexivity.
    + intros H. destruct IH as [s Hs].
      * cbn [String.length] in H |- *.
        replace (S (S (String.length name)) - 1)%nat with (S (String.length name)) in H by lia.
        cbn [String.get] in H.
        replace (S (String.length name) - 1)%nat with (String.length name) by lia.
        exact H.
      * exists (String c s). rewrite string_append_cons, Hs. reflexivity.
  - intros [s ->]. rewrite string_length_append. cbn [String.length].
    replace (String.length s + 1 - 1)%nat with (String.length s) by lia.
    induction s as [|c s IH]; [reflexivity|].
    rewrite string_append_cons. cbn [String.length String.get].
    destruct (String.length s) eqn:El.
    + destruct s; [reflexivity|discriminate El].
    + exact IH.
Qed.

(** X10. [lookupHopName] gives two empty names when the address is empty,
    the lookup fails or finds nothing.  Otherwise the full name is the
    first name found, without one trailing dot if it has one, and the
    short name is the full name when that has at most 16 characters, else
    its first 16 characters followed by three dots: never more than 19
    characters. *)
Theorem lookupHopName_shape (lookupAddr : string -> option (list string))
    (addr : string) :
  let tname := fst (lookupHopName lookupAddr addr) in
  let name := snd (lookupHopName lookupAddr addr) in
  (String.length tname <= 19)%nat
  /\ ((String.length name <= 16)%nat -> tname = name)
  /\ ((16 < String.length name)%nat ->
      tname = (String.substring 0 16 name ++ "...")%string
      /\ String.length tname = 19%nat)
  /\ (addr = ""%string \/ lookupAddr addr = None \/ lookupAddr addr = Some [] ->
      tname = ""%string /\ name = ""%string)
  /\ (forall first others, addr <> ""%string ->
        lookupAddr addr = Some (first :: others) ->
        (forall s, first = (s ++ ".")%string -> name = s)
        /\ ((forall s, first <> (s ++ ".")%string) -> name = first)).
Proof.
  intros tname name. subst tname name. unfold lookupHopName.
  destruct (String.eqb_spec addr "") as [->|Hne].
  { cbn. repeat split; try reflexivity; try lia; intros; try lia; congruence. }
  destruct (lookupAddr addr) as [[|first others]|] eqn:Hl.
  1,3: cbn; repeat split; try reflexivity; try lia; intros; try lia;
       try congruence; destruct_or?; congruence.
  cbv zeta.
  set (name := if (0 <? String.length first)%nat && lastIsDot first
               then String.substring 0 (String.length first - 1) first else first).
  cbn [fst snd].
  assert (Hshort : (String.length
                      (if (16 <? String.length name)%nat
                       then (String.substring 0 16 name ++ "...")%string else name)
                    <= 19)%nat
                   /\ ((16 < String.length name)%nat ->
                       String.length (String.substring 0 16 name ++ "...")%string = 19%nat)).
  { split.
    - destruct (Nat.ltb_spec 16 (String.length name)) as [Hlt|Hle]; [|lia].
      rewrite string_length_append, substring_length. cbn [String.length]. lia.
    - intros Hlt. rewrite string_length_append, substring_length. cbn [String.length]. lia. }
  destruct Hshort as [Hs1 Hs2].
  split; [exact Hs1|]. split.
  { intros Hle. destruct (Nat.ltb_spec 16 (String.length name)); [lia|reflexivity]. }
  split.
  { intros Hlt. destruct (Nat.ltb_spec 16 (String.length name)); [|lia].
    split; [reflexivity|apply Hs2, Hlt]. }
  split.
  { intros [H|[H|H]]; congruence. }
  intros first' others' _ Hf. injection Hf as <- <-. split.
  - intros s Hs. subst name.
    assert (Hd : lastIsDot first = true) by (apply lastIsDot_iff; exists s; exact Hs).
    rewrite Hd. subst first. rewrite string_length_append. cbn [String.length].
    replace (0 <? String.length s + 1)%nat with true
      by (symmetry; apply Nat.ltb_lt; lia).
    cbn [andb]. replace (String.length s + 1 - 1)%nat with (String.length s) by lia.
    apply substring_append.
  - intros Hnd. subst name.
    destruct (lastIsDot first) eqn:Hd.
    + apply lastIsDot_iff in Hd as [s Hs]. exfalso. exact (Hnd s Hs).
    + rewrite andb_false_r. reflexivity.
Qed.

(** ** discoverHops: every outcome *)

Section DiscoverOutcome.

Variable counterBits : Z.
Variable nt : NetTools.
Variable test : Test.
Variable lookupAddr : string -> option (list string).
Variable envs : Z -> ProbeEnv.

Lemma insert_next_entry (k remaining : nat) (e : HopData) :
  e = hopEntry counterBits nt test lookupAddr envs (Z.of_nat k + 1) ->
  <[k := e]> (map (hopEntry counterBits nt test lookupAddr envs) (seqZ 1 (Z.of_nat k))
              ++ replicate (S remaining) zeroHopData)
  = map (hopEntry counterBits nt test lookupAddr envs) (seqZ 1 (Z.of_nat (S k)))
    ++ replicate remaining zeroHopData.
Proof.
  intros ->. rewrite seqZ_S, map_app. cbn [map replicate].
  rewrite <- app_assoc. cbn [app].
  rewrite insert_app_r_alt by (rewrite length_map, length_seqZ; lia).
  rewrite length_map, length_seqZ.
  replace (k - Z.to_nat (Z.of_nat k))%nat with O by lia.
  cbn. replace (1 + Z.of_nat k) with (Z.of_nat k + 1) by lia. reflexivity.
Qed.

Lemma take_entries (k remaining : nat) :
  take k (map (hopEntry counterBits nt test lookupAddr envs) (seqZ 1 (Z.of_nat k))
          ++ replicate remaining zeroHopData)
  = map (hopEntry counterBits nt test lookupAddr envs) (seqZ 1 (Z.of_nat k)).
Proof.
  apply take_app_length'. rewrite length_map, length_seqZ. lia.
Qed.

(** The loop from index [k], on an array that holds the entries of the
    TTLs up to [k]. *)
Lemma discoverLoop_outcome (remaining : nat) : forall (k : nat),
  let i := Z.of_nat k in
  let hops0 := map (hopEntry counterBits nt test lookupAddr envs) (seqZ 1 i)
               ++ replicate remaining zeroHopData in
  let loop := discoverLoop counterBits nt test lookupAddr envs remaining i hops0 in
  (exists n : nat, (k < n <= k + remaining)%nat
     /\ reaches counterBits nt test envs (Z.of_nat n)
     /\ (forall j, i < j < Z.of_nat n -> notLast counterBits nt test envs j)
     /\ loop = Reached (map (hopEntry counterBits nt test lookupAddr envs) (seqZ 1 (Z.of_nat n))))
  \/ (exists (n : nat) hops, (k < n <= k + remaining)%nat
        /\ hangs counterBits nt test envs (Z.of_nat n)
        /\ (forall j, i < j < Z.of_nat n -> notLast counterBits nt test envs j)
        /\ loop = Blocked hops)
  \/ ((forall j, i < j <= i + Z.of_nat remaining -> notLast counterBits nt test envs j)
      /\ exists hops, loop = Exhausted hops).
Proof.
  induction remaining as [|remaining IH]; intros k i hops0 loop.
  - right. right. split; [intros j Hj; lia|]. eexists. reflexivity.
  - subst loop. cbn [discoverLoop].
    destruct (probeHop counterBits nt test (i + 1) "" (envs (i + 1)) zeroHopData)
      as [hopData outcome] eqn:Hp.
    destruct outcome as [err isLast|].
    + assert (He : (match err with
                    | None =>
                        let '(tname, name) := lookupHopName lookupAddr (Addr hopData) in
                        setNames hopData tname name
                    | Some _ => hopData
                    end) = hopEntry counterBits nt test lookupAddr envs (i + 1)).
      { unfold hopEntry. rewrite Hp. destruct err; reflexivity. }
      rewrite He. subst hops0 i. rewrite Nat2Z.id.
      rewrite (insert_next_entry k remaining _ eq_refl).
      destruct isLast.
      * left. exists (S k). split; [lia|]. split.
        { exists hopData, err. rewrite Nat2Z.inj_succ, <- Z.add_1_r. exact Hp. }
        split; [intros j Hj; lia|].
        replace (Z.to_nat (Z.of_nat k + 1)) with (S k) by lia.
        rewrite take_entries. reflexivity.
      * assert (Hnl : notLast counterBits nt test envs (Z.of_nat k + 1))
          by (exists hopData, err; exact Hp).
        replace (Z.of_nat k + 1) with (Z.of_nat (S k)) by lia.
        destruct (IH (S k))
          as [(n & Hn & Hr & Hb & Hl)|[(n & hs & Hn & Hh & Hb & Hl)|(Hb & hs & Hl)]].
        -- left. exists n. split; [lia|]. split; [exact Hr|]. split; [|exact Hl].
           intros j Hj. destruct (Z.eq_dec j (Z.of_nat k + 1)) as [->|]; [exact Hnl|].
           apply Hb. lia.
        -- right. left. exists n, hs. split; [lia|]. split; [exact Hh|]. split; [|exact Hl].
           intros j Hj. destruct (Z.eq_dec j (Z.of_nat k + 1)) as [->|]; [exact Hnl|].
           apply Hb. lia.
        -- right. right. split; [|exists hs; exact Hl].
           intros j Hj. destruct (Z.eq_dec j (Z.of_nat k + 1)) as [->|]; [exact Hnl|].
           apply Hb. lia.
    + right. left. exists (S k), hops0. split; [lia|]. split.
      * exists hopData. rewrite Nat2Z.inj_succ, <- Z.add_1_r. exact Hp.
      * split; [intros j Hj; lia|reflexivity].
Qed.

Lemma discoverHops_cases (maxHops : Z) :
  let res := discoverHops counterBits nt test lookupAddr envs maxHops in
  (maxHops < 0 /\ res = DiscPanic)
  \/ (exists n, 1 <= n <= maxHops
        /\ reaches counterBits nt test envs n
        /\ (forall j, 1 <= j < n -> notLast counterBits nt test envs j)
        /\ res = DiscReturn (map (hopEntry counterBits nt test lookupAddr envs) (seqZ 1 n)) None)
  \/ (exists n, 1 <= n <= maxHops
        /\ hangs counterBits nt test envs n
        /\ (forall j, 1 <= j < n -> notLast counterBits nt test envs j)
        /\ res = DiscBlocked)
  \/ (0 <= maxHops
      /\ (forall j, 1 <= j <= maxHops -> notLast counterBits nt test envs j)
      /\ res = DiscReturn [] (Some ErrNotExist)).
Proof.
  intros res. subst res. unfold discoverHops.
  destruct (Z.ltb_spec maxHops 0) as [Hneg|Hpos]; [left; split; [exact Hneg|reflexivity]|].
  right. unfold runDiscoverLoop.
  pose proof (discoverLoop_outcome (Z.to_nat maxHops) O) as H.
  cbv zeta in H. change (Z.of_nat 0) with 0 in H.
  change (map (hopEntry counterBits nt test lookupAddr envs) (seqZ 1 0))
    with (@nil HopData) in H.
  cbn [app] in H.
  destruct H as [(n & Hn & Hr & Hb & Hl)|[(n & hs & Hn & Hh & Hb & Hl)|(Hb & hs & Hl)]];
    rewrite Hl.
  - left. exists (Z.of_nat n). split; [lia|]. split; [exact Hr|]. split; [|reflexivity].
    intros j Hj. apply Hb. lia.
  - right. left. exists (Z.of_nat n). split; [lia|]. split; [exact Hh|]. split; [|reflexivity].
    intros j Hj. apply Hb. lia.
  - right. right. split; [lia|]. split; [|reflexivity]. intros j Hj. apply Hb. lia.
Qed.

End DiscoverOutcome.

(** X11. Every outcome of [discoverHops].  A negative [maxHops] panics.
    Otherwise the TTLs are probed in order from 1: at the first TTL whose
    probe reaches the destination the call returns, without error, one
    entry per TTL probed so far, each the data of that TTL's own probe
    from a zero HopData (with the names when the probe had no error); at
    the first TTL whose probe never gets a reply the call never returns;
    and when every TTL up to [maxHops] returns without reaching the
    destination the call returns no hops and the NotExist error. *)
Theorem discoverHops_outcomes (counterBits : Z) (nt : NetTools) (test : Test)
    (lookupAddr : string -> option (list string)) (envs : Z -> ProbeEnv)
    (maxHops : Z) :
  let res := discoverHops counterBits nt test lookupAddr envs maxHops in
  let entry := hopEntry counterBits nt test lookupAddr envs in
  (maxHops < 0 /\ res = DiscPanic)
  \/ (exists n, 1 <= n <= maxHops
        /\ reaches counterBits nt test envs n
        /\ (forall j, 1 <= j < n -> notLast counterBits nt test envs j)
        /\ res = DiscReturn (map entry (seqZ 1 n)) None)
  \/ (exists n, 1 <= n <= maxHops
        /\ hangs counterBits nt test envs n
        /\ (forall j, 1 <= j < n -> notLast counterBits nt test envs j)
        /\ res = DiscBlocked)
  \/ (0 <= maxHops
      /\ (forall j, 1 <= j <= maxHops -> notLast counterBits nt test envs j)
      /\ res = DiscReturn [] (Some ErrNotExist)).
Proof. apply discoverHops_cases. Qed.

(** ** The hops of a completed trace and their probers *)

Section TraceHops.

Variable counterBits : Z.
Variable nt : NetTools.
Variable test : Test.
Variable lookupAddr : string -> option (list string).
Variable envs : Z -> ProbeEnv.

Lemma setNames_addr h tname name : Addr (setNames h tname name) = Addr h.
Proof. reflexivity. Qed.

(** A discovered entry has an address exactly when its probe returned no
    error. *)
Lemma hopEntry_addr (ttl : Z) :
  Addr (hopEntry counterBits nt test lookupAddr envs ttl) <> ""%string
  <-> exists h isLast,
        probeHop counterBits nt test ttl "" (envs ttl) zeroHopData
        = (h, Returned None isLast).
Proof.
  unfold hopEntry.
  pose proof (probeHop_inv counterBits nt test ttl "" (envs ttl) zeroHopData) as Hi.
  cbv zeta in Hi.
  destruct Hi as [[_ Hr]|[(_ & _ & _ & Hr)|(_ & peer & el & il & _ & [[Hl Hr]|[Hl Hr]])]];
    rewrite Hr.
  - cbn. split; [congruence|]. intros (h & il & H). discriminate H.
  - cbn. split; [congruence|]. intros (h & il & H). discriminate H.
  - cbn. split; [congruence|]. intros (h & il' & H). discriminate H.
  - destruct (lookupHopName lookupAddr
                (Addr (calcHopData counterBits (incrSent counterBits zeroHopData) peer el)))
      as [tname name].
    rewrite setNames_addr. cbn [calcHopData Addr]. split.
    + intros _. eexists _, il. reflexivity.
    + intros _ ->. destruct (probeLost_spec "" "") as [_ Hb].
      rewrite Hb in Hl; [discriminate|]. left. reflexivity.
Qed.

(** The entry of a TTL whose probe reached the destination carries the
    destination's address. *)
Lemma hopEntry_reached (ttl : Z) :
  reaches counterBits nt test envs ttl ->
  Addr (hopEntry counterBits nt test lookupAddr envs ttl) = RemoteIP test.
Proof.
  intros (h & err & Hp). unfold hopEntry.
  pose proof (probeHop_inv counterBits nt test ttl "" (envs ttl) zeroHopData) as Hi.
  cbv zeta in Hi. rewrite Hp in Hi. rewrite Hp.
  destruct Hi as [[_ Hr]|[(_ & _ & _ & Hr)|(_ & peer & el & il & Hway & Hres)]];
    try discriminate Hr.
  destruct Hway as [(t & _ & -> & ->)|(_ & -> & _)].
  - destruct Hres as [[Hl Hr]|[Hl Hr]]; injection Hr as -> ->.
    + cbn. apply probeLost_spec in Hl as [Hl|[Hl _]]; [symmetry; exact Hl|congruence].
    + destruct (lookupHopName lookupAddr
                  (Addr (calcHopData counterBits (incrSent counterBits zeroHopData)
                           (RemoteIP test) el))) as [tname name].
      reflexivity.
  - destruct Hres as [[_ Hr]|[_ Hr]]; discriminate Hr.
Qed.

Lemma mtrProbersFrom_In (hops : list HopData) : forall s i,
  In i (mtrProbersFrom s hops)
  <-> exists (k : nat) h, hops !! k = Some h /\ i = s + Z.of_nat k /\ Addr h <> ""%string.
Proof.
  induction hops as [|h0 rest IH]; intros s i; cbn [mtrProbersFrom].
  - split; [intros []|]. intros (k & h & Hk & _). destruct k; discriminate Hk.
  - destruct (String.eqb_spec (Addr h0) "") as [E|E]; cbn [negb In]; rewrite ?IH; split.
    + intros (k & h & Hk & -> & Hne). exists (S k), h. repeat split; [exact Hk|lia|exact Hne].
    + intros (k & h & Hk & -> & Hne). destruct k as [|k].
      * injection Hk as ->. contradiction.
      * exists k, h. repeat split; [exact Hk|lia|exact Hne].
    + intros [<-|(k & h & Hk & -> & Hne)].
      * exists O, h0. repeat split; [lia|exact E].
      * exists (S k), h. repeat split; [exact Hk|lia|exact Hne].
    + intros (k & h & Hk & -> & Hne). destruct k as [|k].
      * left. lia.
      * right. exists k, h. repeat split; [exact Hk|lia|exact Hne].
Qed.

Lemma entries_lookup (n : Z) (k : nat) :
  Z.of_nat k < n ->
  map (hopEntry counterBits nt test lookupAddr envs) (seqZ 1 n) !! k
  = Some (hopEntry counterBits nt test lookupAddr envs (Z.of_nat k + 1)).
Proof.
  intros Hk. change (map ?f ?l) with (f <$> l). rewrite list_lookup_fmap.
  rewrite lookup_seqZ_lt by exact Hk. cbn. f_equal. f_equal. lia.
Qed.

End TraceHops.

(** X12. When [discoverHops] returns without error, the list has between
    1 and [maxHops] entries; entry [j - 1] is the data of the probe of TTL
    [j]; the probe of the last TTL reached the destination and no earlier
    one did; and the last entry's address is the destination's. *)
Theorem discoverHops_success_shape (counterBits : Z) (nt : NetTools) (test : Test)
    (lookupAddr : string -> option (list string)) (envs : Z -> ProbeEnv)
    (maxHops : Z) (hops : list HopData) :
  discoverHops counterBits nt test lookupAddr envs maxHops = DiscReturn hops None ->
  let n := Z.of_nat (length hops) in
  1 <= n <= maxHops
  /\ (forall k : nat, Z.of_nat k < n ->
        hops !! k = Some (hopEntry counterBits nt test lookupAddr envs (Z.of_nat k + 1)))
  /\ reaches counterBits nt test envs n
  /\ (forall j, 1 <= j < n -> notLast counterBits nt test envs j)
  /\ (exists h, last hops = Some h /\ Addr h = RemoteIP test).
Proof.
  intros H n.
  pose proof (discoverHops_cases counterBits nt test lookupAddr envs maxHops) as Hc.
  cbv zeta in Hc. rewrite H in Hc.
  destruct Hc as [[_ Hr]|[(m & Hm & Hreach & Hb & Hr)|[(m & _ & _ & _ & Hr)|(_ & _ & Hr)]]];
    try discriminate Hr.
  injection Hr as ->.
  assert (Hn : n = m).
  { subst n. rewrite length_map, length_seqZ. lia. }
  rewrite Hn. split; [exact Hm|]. split.
  { intros k Hk. apply entries_lookup. exact Hk. }
  split; [exact Hreach|]. split; [exact Hb|].
  exists (hopEntry counterBits nt test lookupAddr envs m). split.
  - rewrite last_lookup, length_map, length_seqZ.
    replace (Init.Nat.pred (Z.to_nat m)) with (Z.to_nat (m - 1)) by lia.
    rewrite entries_lookup by lia. f_equal. f_equal. lia.
  - apply hopEntry_reached. exact Hreach.
Qed.

Lemma discoverHops_success_shape_witness :
  exists hops,
    discoverHops 32 sampleNetTools sampleTest reverseNames threeHopEnvs 30
    = DiscReturn hops None
    /\ Z.of_nat (length hops) = 3
    /\ exists h, last hops = Some h /\ Addr h = "93.184.216.34"%string.
Proof.
  eexists. split; [vm_compute; reflexivity|].
  match goal with
  | |- Z.of_nat (length ?hops) = _ /\ _ =>
      assert (H : discoverHops 32 sampleNetTools sampleTest reverseNames threeHopEnvs 30
                  = DiscReturn hops None) by (vm_compute; reflexivity);
      pose proof (discoverHops_success_shape 32 sampleNetTools sampleTest reverseNames
                    threeHopEnvs 30 hops H) as Hs
  end.
  cbv zeta in Hs. destruct Hs as (_ & _ & _ & _ & Hlast).
  split; [reflexivity|exact Hlast].
Defined.

(** X13. In MTR mode, after a discovery that returned without error, a
    prober is started for index [i] exactly when the discovery probe of
    TTL [i + 1] was one of those made and returned no error: hops that
    did not answer are not probed again.  Without MTR mode, or after a
    failed discovery, no prober is started. *)
Theorem startedProbers_spec (counterBits : Z) (nt : NetTools) (test : Test)
    (lookupAddr : string -> option (list string)) (envs : Z -> ProbeEnv)
    (mtrMode : bool) (maxHops : Z) (probers : list Z) :
  startedProbers counterBits nt test lookupAddr envs mtrMode maxHops = Some probers ->
  forall i,
    In i probers
    <-> mtrMode = true
        /\ exists hops,
             discoverHops counterBits nt test lookupAddr envs maxHops
             = DiscReturn hops None
             /\ 0 <= i < Z.of_nat (length hops)
             /\ exists h isLast,
                  probeHop counterBits nt test (i + 1) "" (envs (i + 1)) zeroHopData
                  = (h, Returned None isLast).
Proof.
  unfold startedProbers. intros H i.
  pose proof (discoverHops_cases counterBits nt test lookupAddr envs maxHops) as Hc.
  cbv zeta in Hc.
  destruct Hc as [[_ Hr]|[(m & Hm & Hreach & Hb & Hr)|[(m & _ & _ & _ & Hr)|(_ & _ & Hr)]]];
    rewrite Hr in H |- *; try discriminate H.
  - destruct mtrMode; cbn [negb] in H; injection H as <-.
    + rewrite mtrProbersFrom_In. split.
      * intros (k & h & Hk & -> & Hne). split; [reflexivity|].
        eexists. split; [reflexivity|].
        assert (Hlt : Z.of_nat k < m).
        { apply lookup_lt_Some in Hk. rewrite length_map, length_seqZ in Hk. lia. }
        rewrite length_map, length_seqZ. split; [lia|].
        rewrite entries_lookup in Hk by exact Hlt. injection Hk as <-.
        apply hopEntry_addr in Hne. rewrite Z.add_0_l. exact Hne.
      * intros (_ & hops & Hh & Hi & Hp). injection Hh as <-.
        rewrite length_map, length_seqZ in Hi.
        exists (Z.to_nat i), (hopEntry counterBits nt test lookupAddr envs (i + 1)).
        split; [|split; [lia|]].
        -- rewrite entries_lookup by lia. f_equal. f_equal. lia.
        -- apply hopEntry_addr. exact Hp.
    + split; [intros []|]. intros (Hf & _). discriminate Hf.
  - injection H as <-. split; [intros []|]. intros (_ & hops & Hh & _). discriminate Hh.
Qed.

Lemma startedProbers_spec_witness :
  startedProbers 32 sampleNetTools sampleTest reverseNames threeHopEnvs true 30
  = Some [0; 1; 2]
  /\ exists h isLast,
       probeHop 32 sampleNetTools sampleTest (1 + 1) "" (threeHopEnvs (1 + 1)) zeroHopData
       = (h, Returned None isLast).
Proof.
  assert (H : startedProbers 32 sampleNetTools sampleTest reverseNames threeHopEnvs true 30
              = Some [0; 1; 2]) by (vm_compute; reflexivity).
  split; [exact H|].
  pose proof (startedProbers_spec 32 sampleNetTools sampleTest reverseNames threeHopEnvs
                true 30 [0; 1; 2] H 1) as [Hfw _].
  destruct Hfw as (_ & hops & _ & _ & Hp); [right; left; reflexivity|exact Hp].
Defined.

(** ** The latency batch: what it reports *)

Lemma sumNanos_from (l : list Z) : forall a,
  fold_left (fun sum d => int64 (sum + d)) l (int64 a) = int64 (a + sumZ l).
Proof.
  induction l as [|d l IH]; intros a; cbn [fold_left sumZ fold_right].
  - f_equal. lia.
  - rewrite int64_add_l, IH. fold (sumZ l). f_equal. lia.
Qed.

Lemma sumNanos_sumZ (l : list Z) : sumNanos l = int64 (sumZ l).
Proof. unfold sumNanos. apply (sumNanos_from l 0). Qed.

Lemma sumZ_perm (l1 l2 : list Z) : Permutation l1 l2 -> sumZ l1 = sumZ l2.
Proof.
  induction 1 as [|x l1 l2 _ IH|x y l|l1 l2 l3 _ IH1 _ IH2].
  - reflexivity.
  - unfold sumZ in *. cbn [fold_right]. rewrite IH. reflexivity.
  - unfold sumZ. cbn [fold_right]. lia.
  - congruence.
Qed.

Lemma sorted_perm_eq (l1 : list Z) : forall l2,
  StronglySorted Z.le l1 -> StronglySorted Z.le l2 -> Permutation l1 l2 -> l1 = l2.
Proof.
  induction l1 as [|x l1 IH]; intros l2 H1 H2 Hp.
  - apply Permutation_nil in Hp. subst. reflexivity.
  - destruct l2 as [|y l2]; [apply Permutation_sym, Permutation_nil in Hp; discriminate|].
    inversion H1 as [|? ? Hs1 Hx]; subst. inversion H2 as [|? ? Hs2 Hy]; subst.
    assert (Hxy : x = y).
    { rewrite List.Forall_forall in Hx, Hy.
      assert (Hin1 : In y (x :: l1))
        by (eapply Permutation_in; [symmetry; exact Hp|left; reflexivity]).
      assert (Hin2 : In x (y :: l2)) by (eapply Permutation_in; [exact Hp|left; reflexivity]).
      destruct Hin1 as [E|Hin1]; [exact E|]. destruct Hin2 as [E|Hin2]; [symmetry; exact E|].
      specialize (Hx y Hin1). specialize (Hy x Hin2). lia. }
    subst y. f_equal. apply IH; try assumption.
    eapply Permutation_cons_inv. exact Hp.
Qed.

Lemma SliceStable_perm_eq (l1 l2 : list Z) :
  Permutation l1 l2 -> SliceStable l1 = SliceStable l2.
Proof.
  intros Hp. apply sorted_perm_eq; try apply SliceStable_sorted.
  rewrite <- (SliceStable_perm l1), <- (SliceStable_perm l2). exact Hp.
Qed.

(** X14. A batch is a function of the samples as a multiset: the order in
    which the round trips were measured changes nothing in the result,
    nor in whether the batch panics. *)
Theorem latencyBatch_permutation (rttCount : Z) (l1 l2 : list Z) :
  Permutation l1 l2 -> latencyBatch rttCount l1 = latencyBatch rttCount l2.
Proof.
  intros Hp. unfold latencyBatch.
  rewrite (SliceStable_perm_eq l1 l2 Hp), !sumNanos_sumZ, (sumZ_perm l1 l2 Hp).
  reflexivity.
Qed.

Lemma latencyBatch_permutation_witness :
  latencyBatch 3 [ms 3; ms 1; ms 2] = latencyBatch 3 [ms 1; ms 2; ms 3].
Proof.
  apply latencyBatch_permutation.
  apply Permutation_sym, perm_trans with [ms 1; ms 3; ms 2].
  - apply perm_skip, perm_swap.
  - apply perm_swap.
Defined.

(** What a batch that does not panic has read. *)
Lemma latencyBatch_inv (rttCount : Z) (l : list Z) (r : LatencyResult) :
  latencyBatch rttCount l = Some r ->
  let a := SliceStable l in
  rttCount <> 0
  /\ avg r = Z.quot (sumNanos l) rttCount
  /\ stored r = uint64 (avg r)
  /\ sliceAt a 0 = Some (min r)
  /\ sliceAt a (uint32 (rttCount - 1)) = Some (max r)
  /\ Forall (fun v => exists i, sliceAt a i = Some v) (reported r).
Proof.
  unfold latencyBatch. cbv zeta.
  set (a := SliceStable l).
  destruct (Z.eqb_spec rttCount 0) as [|Hn]; [discriminate|].
  destruct (sliceAt a 0) as [vmin|] eqn:E0; [|discriminate].
  destruct (sliceAt a (uint32 (rttCount - 1))) as [vmax|] eqn:E1; [|discriminate].
  destruct (sliceAt a (pctIndex (rttCountFixed rttCount) 50)) as [v50|] eqn:E2; [|discriminate].
  destruct (sliceAt a (pctIndex (rttCountFixed rttCount) 90)) as [v90|] eqn:E3; [|discriminate].
  destruct (sliceAt a (pctIndex (rttCountFixed rttCount) 95)) as [v95|] eqn:E4; [|discriminate].
  destruct (sliceAt a (pctIndex (rttCountFixed rttCount) 99)) as [v99|] eqn:E5; [|discriminate].
  cbn [mbind option_bind].
  destruct (pctIndexF (rttCountFixed rttCount) f64_99_9) as [i999|]; [|discriminate].
  cbn [mbind option_bind].
  destruct (sliceAt a i999) as [v999|] eqn:E6; [|discriminate].
  cbn [mbind option_bind].
  destruct (pctIndexF (rttCountFixed rttCount) f64_99_99) as [i9999|]; [|discriminate].
  cbn [mbind option_bind].
  destruct (sliceAt a i9999) as [v9999|] eqn:E7; [|discriminate].
  cbn [mbind option_bind]. intros H. injection H as <-.
  cbn [avg stored min max reported p50 p90 p95 p99 p999 p9999].
  repeat split; try assumption.
  repeat constructor; eexists; eassumption.
Qed.

Lemma In_sliceAt (a : list Z) : forall x,
  In x a -> exists i, 0 <= i < Z.of_nat (length a) /\ sliceAt a i = Some x.
Proof.
  induction a as [|y a IH]; intros x Hin; [destruct Hin|].
  destruct Hin as [->|Hin].
  - exists 0. cbn [length sliceAt]. split; [lia|reflexivity].
  - destruct (IH x Hin) as (i & Hi & Hs). exists (i + 1).
    cbn [length sliceAt]. split; [lia|].
    destruct (Z.ltb_spec (i + 1) 0); [lia|].
    destruct (Z.eqb_spec (i + 1) 0); [lia|].
    replace (i + 1 - 1) with i by lia. exact Hs.
Qed.

Lemma sliceAt_Some_range (a : list Z) : forall i x,
  sliceAt a i = Some x -> 0 <= i < Z.of_nat (length a).
Proof.
  intros i x H.
  destruct (Z.le_gt_cases (Z.of_nat (length a)) i) as [Hge|Hlt].
  - rewrite sliceAt_out_of_range in H by exact Hge. discriminate.
  - split; [|exact Hlt]. destruct a as [|y a]; [discriminate|].
    cbn [sliceAt] in H. destruct (Z.ltb_spec i 0); [discriminate|lia].
Qed.

Lemma sumZ_bounds (l : list Z) (lo hi : Z) :
  Forall (fun x => lo <= x <= hi) l ->
  lo * Z.of_nat (length l) <= sumZ l <= hi * Z.of_nat (length l).
Proof.
  induction 1 as [|x l Hx _ IH]; cbn [sumZ fold_right length]; [lia|].
  fold (sumZ l). nia.
Qed.

Lemma quot_between (s n lo hi : Z) :
  0 < n -> lo * n <= s <= hi * n -> lo <= Z.quot s n <= hi.
Proof.
  intros Hn Hs.
  destruct (Z.le_gt_cases 0 s) as [Hpos|Hneg].
  - rewrite Z.quot_div_nonneg by lia.
    split; [apply Z.div_le_lower_bound; lia|].
    apply Z.lt_succ_r, Z.div_lt_upper_bound; nia.
  - assert (Hq : Z.quot s n = - (Z.quot (- s) n)) by (rewrite Z.quot_opp_l by lia; lia).
    rewrite Hq, Z.quot_div_nonneg by lia.
    assert (H1 : (- s) / n <= - lo) by (apply Z.lt_succ_r, Z.div_lt_upper_bound; nia).
    assert (H2 : - hi <= (- s) / n) by (apply Z.div_le_lower_bound; nia).
    lia.
Qed.

(** X15. Whenever a batch of [rttCount] samples does not panic, also when
    its index arithmetic has wrapped around: every value it reports is
    one of the samples; [min] is the least and [max] the greatest sample,
    so every sample and every reported percentile lies between them; and
    when the sum of the samples fits an int64 the average lies between
    them too. *)
Theorem latencyBatch_reports_samples (rttCount : Z) (l : list Z) (r : LatencyResult) :
  latencyBatch rttCount l = Some r ->
  Z.of_nat (length l) = rttCount -> rttCount < 2 ^ 32 ->
  Forall (fun v => In v l) (reported r)
  /\ Forall (fun x => min r <= x <= max r) l
  /\ Forall (fun v => min r <= v <= max r) (reported r)
  /\ (isInt64 (sumZ l) -> min r <= avg r <= max r).
Proof.
  intros H Hlen Hfit.
  pose proof (latencyBatch_inv rttCount l r H) as Hi. cbv zeta in Hi.
  destruct Hi as (Hn & Havg & _ & Hmin & Hmax & Hrep).
  pose proof (SliceStable_sorted l) as Hs.
  pose proof (SliceStable_perm l) as Hp.
  pose proof (SliceStable_length l) as Hl.
  assert (Hpos : 1 <= rttCount) by lia.
  assert (Hu : uint32 (rttCount - 1) = rttCount - 1) by (apply wrapU_small; lia).
  rewrite Hu in Hmax.
  assert (Hbetween : forall x, In x (SliceStable l) -> min r <= x <= max r).
  { intros x Hin. destruct (In_sliceAt _ x Hin) as (i & Hi & Hx). split.
    - apply (sliceAt_sorted_mono _ Hs 0 i); [lia|exact Hmin|exact Hx].
    - apply (sliceAt_sorted_mono _ Hs i (rttCount - 1)); [lia|exact Hx|exact Hmax]. }
  assert (Hall : Forall (fun x => min r <= x <= max r) l).
  { apply List.Forall_forall. intros x Hin. apply Hbetween.
    eapply Permutation_in; [exact Hp|exact Hin]. }
  split; [|split; [exact Hall|split]].
  - eapply Forall_impl; [exact Hrep|]. intros v [i Hv]. cbn beta.
    eapply Permutation_in; [symmetry; exact Hp|]. eapply sliceAt_In, Hv.
  - eapply Forall_impl; [exact Hrep|]. intros v [i Hv]. cbn beta.
    apply Hbetween. eapply sliceAt_In, Hv.
  - intros Hsum. rewrite Havg, sumNanos_sumZ, int64_small by exact Hsum.
    apply quot_between; [lia|]. rewrite <- Hlen. apply sumZ_bounds, Hall.
Qed.

Lemma latencyBatch_reports_samples_witness :
  exists r, latencyBatch 3 [ms 3; ms 1; ms 2] = Some r
            /\ min r = ms 1 /\ max r = ms 3 /\ min r <= avg r <= max r.
Proof.
  eexists. split; [vm_compute; reflexivity|].
  match goal with
  | |- min ?r = _ /\ _ =>
      assert (H : latencyBatch 3 [ms 3; ms 1; ms 2] = Some r) by (vm_compute; reflexivity);
      pose proof (latencyBatch_reports_samples 3 [ms 3; ms 1; ms 2] r H eq_refl eq_refl)
        as (_ & _ & _ & Havg)
  end.
  split; [reflexivity|]. split; [reflexivity|].
  apply Havg. vm_compute. split; discriminate.
Defined.

(** X16. A batch of [rttCount >= 1] samples whose largest index product
    [rttCount * 99] fits a uint32 never panics and reports its values in
    order: min <= p50 <= p90 <= p95 <= p99 <= p99.9 <= p99.99 <= max. *)
Theorem latencyBatch_ordered (rttCount : Z) (l : list Z) :
  1 <= rttCount -> rttCount * 99 < 2 ^ 32 ->
  Z.of_nat (length l) = rttCount ->
  exists r, latencyBatch rttCount l = Some r /\ chain r.
Proof. apply latencyBatch_chain_no_overflow. Qed.

Lemma latencyBatch_ordered_witness :
  exists r, latencyBatch 3 [ms 3; ms 1; ms 2] = Some r /\ chain r.
Proof.
  apply (latencyBatch_ordered 3 [ms 3; ms 1; ms 2]); [lia|reflexivity|reflexivity].
Defined.

(** ** The TCP bandwidth test *)

Lemma fillBuffer_spec (n : nat) : forall (i : Z) (buff : list Z),
  0 <= i -> i + Z.of_nat n < 2 ^ 32 ->
  length buff = (Z.to_nat i + n)%nat ->
  fillBuffer n i buff = take (Z.to_nat i) buff ++ map uint8 (seqZ i (Z.of_nat n)).
Proof.
  induction n as [|n IH]; intros i buff Hi Hfit Hlen; cbn [fillBuffer].
  - cbn. rewrite app_nil_r, take_ge by lia. reflexivity.
  - assert (Hu : uint32 (i + 1) = i + 1) by (apply wrapU_small; lia).
    rewrite Hu, IH by (rewrite ?length_insert; lia).
    replace (Z.to_nat (i + 1)) with (S (Z.to_nat i)) by lia.
    rewrite (take_S_r _ _ (uint8 i)) by (apply list_lookup_insert_eq; lia).
    rewrite take_insert_ge by lia.
    rewrite (seqZ_cons i (Z.of_nat (S n))) by lia. cbn [map].
    rewrite <- app_assoc. cbn [app].
    replace (Z.succ i) with (i + 1) by lia.
    replace (Z.pred (Z.of_nat (S n))) with (Z.of_nat n) by lia. reflexivity.
Qed.

(** X17. The buffer of the bandwidth test has [BufferSize] bytes and byte
    [i] is [i mod 256]: the ramp 0, 1, ..., 255, 0, 1, ... *)
Theorem bandwidthBuffer_ramp (size : Z) :
  0 <= size < 2 ^ 32 ->
  Z.of_nat (length (bandwidthBuffer size)) = size
  /\ forall i, 0 <= i < size ->
       bandwidthBuffer size !! Z.to_nat i = Some (i mod 256).
Proof.
  intros Hs. unfold bandwidthBuffer.
  rewrite fillBuffer_spec by (rewrite ?length_replicate; lia).
  change (Z.to_nat 0) with O. rewrite take_0, Z2Nat.id by lia. cbn [app]. split.
  - rewrite length_map, length_seqZ. lia.
  - intros i Hi. change (map uint8 ?l) with (uint8 <$> l).
    rewrite list_lookup_fmap, lookup_seqZ_lt by lia. cbn.
    f_equal. unfold uint8, wrapU. f_equal. lia.
Qed.

Lemma bandwidthBuffer_ramp_witness :
  bandwidthBuffer 300 !! Z.to_nat 258 = Some 2.
Proof.
  assert (H : 0 <= 300 < 2 ^ 32) by lia.
  destruct (bandwidthBuffer_ramp 300 H) as [_ Hr].
  exact (Hr 258 ltac:(lia)).
Defined.

Lemma addBw_addBw (a b : Z) (t : ethrTest) :
  addBw a (addBw b t) = addBw (b + a) t.
Proof.
  unfold addBw. cbn. f_equal. f_equal. unfold uint64.
  rewrite wrapU_add_l. f_equal. lia.
Qed.

Lemma bandwidthLoop_spec (p : loc) (reverse : bool) (buff : list Z) (size : Z)
    (ios : list bool) : forall (st : gmap loc ethrTest) (t : ethrTest),
  st !! p = Some t ->
  let ev := if reverse then EvWrite buff else EvReadFull (Z.of_nat (length buff)) in
  let k := successes ios in
  let failed := existsb negb ios in
  exists st',
    bandwidthLoop p reverse buff size ios st
    = (st', replicate (Z.to_nat k + (if failed then 1 else 0)) ev,
       if failed then TestReturned else TestRunning)
    /\ (forall q, q <> p -> st' !! q = st !! q)
    /\ (k = 0 -> st' = st)
    /\ (0 < k -> st' !! p = Some (addBw (k * uint64 size) t)).
Proof.
  induction ios as [|ok rest IH]; intros st t Ht ev k failed.
  - exists st. subst k failed. cbn. repeat split; try reflexivity. lia.
  - cbn [bandwidthLoop]. fold ev. destruct ok.
    + set (st1 := alter (addBw (uint64 size)) p st).
      assert (Ht1 : st1 !! p = Some (addBw (uint64 size) t)).
      { subst st1. rewrite lookup_alter_eq, Ht. reflexivity. }
      destruct (IH st1 _ Ht1) as (st' & Hl & Hq & H0 & Hk).
      rewrite Hl. exists st'.
      assert (Hk0 : 0 <= successes rest).
      { clear. induction rest as [|[] r IHr]; cbn [successes]; lia. }
      assert (Hf : failed = existsb negb rest) by reflexivity.
      subst k. cbn [successes]. rewrite Hf.
      replace (Z.to_nat (1 + successes rest)) with (S (Z.to_nat (successes rest))) by lia.
      cbn [Nat.add replicate]. repeat split.
      * intros q Hne. rewrite Hq by exact Hne. subst st1.
        apply lookup_alter_ne. congruence.
      * lia.
      * intros _. destruct (Z.eq_dec (successes rest) 0) as [E|E].
        -- rewrite (H0 E), E, Ht1. f_equal. f_equal. lia.
        -- rewrite Hk by lia. rewrite addBw_addBw. f_equal. f_equal. lia.
    + exists st. subst k failed. cbn [successes Z.to_nat Nat.add].
      cbn [existsb negb orb]. repeat split; try reflexivity. lia.
Qed.

(** X18. The bandwidth test on a test that is in the store, with [k] the
    number of calls that succeed before the first failure: [bw] has grown
    by [k * BufferSize] modulo 2^64 and nothing else in the store has
    changed; with [Reverse] every call is a write of the ramp buffer and
    without it every call is a read of [BufferSize] bytes; [k] calls are
    made, and one more when a call fails, which is when the test
    returns. *)
Theorem srvrRunTCPBandwidthTest_accounting (p : loc) (clientParam : EthrClientParam)
    (ios : list bool) (st : gmap loc ethrTest) (t : ethrTest) :
  st !! p = Some t ->
  0 <= BufferSize clientParam < 2 ^ 32 ->
  let k := successes ios in
  let failed := existsb negb ios in
  let ev := if Reverse clientParam
            then EvWrite (bandwidthBuffer (BufferSize clientParam))
            else EvReadFull (BufferSize clientParam) in
  exists st' t',
    srvrRunTCPBandwidthTest p clientParam ios st
    = (st', replicate (Z.to_nat k + (if failed then 1 else 0)) ev,
       if failed then TestReturned else TestRunning)
    /\ st' !! p = Some t'
    /\ bw (testResult t') = (if k =? 0 then bw (testResult t)
                             else uint64 (bw (testResult t) + k * BufferSize clientParam))
    /\ sameButBw t t'
    /\ forall q, q <> p -> st' !! q = st !! q.
Proof.
  intros Ht Hs k failed ev. unfold srvrRunTCPBandwidthTest. cbv zeta.
  pose proof (bandwidthLoop_spec p (Reverse clientParam)
                (bandwidthBuffer (BufferSize clientParam)) (BufferSize clientParam)
                ios st t Ht) as H.
  cbv zeta in H. destruct H as (st' & Hl & Hq & H0 & Hk).
  destruct (bandwidthBuffer_ramp _ Hs) as [Hlen _]. rewrite Hlen in Hl.
  fold ev k failed in Hl.
  assert (Hk0 : 0 <= k).
  { subst k. clear. induction ios as [|[] r IHr]; cbn [successes]; lia. }
  destruct (Z.eqb_spec k 0) as [E|E].
  - exists st', t. rewrite (H0 E) in *. repeat split; try assumption; reflexivity.
  - exists st', (addBw (k * uint64 (BufferSize clientParam)) t).
    split; [exact Hl|]. split; [apply Hk; lia|]. split.
    + cbn. unfold uint64. rewrite (wrapU_small 64 (BufferSize clientParam)) by lia.
      reflexivity.
    + split; [repeat split|exact Hq].
Qed.

Lemma srvrRunTCPBandwidthTest_accounting_witness :
  let t := mkEthrTest "10.0.0.7" TCP All (mkTestResult 0 1 0 0) 0 true in
  exists st' t',
    fst (fst (srvrRunTCPBandwidthTest 1%positive (mkClientParam 1024 0 false)
                [true; true; true; false] {[1%positive := t]})) = st'
    /\ st' !! 1%positive = Some t' /\ bw (testResult t') = 3072.
Proof.
  intros t.
  assert (Ht : ({[1%positive := t]} : gmap loc ethrTest) !! 1%positive = Some t)
    by reflexivity.
  assert (Hs : 0 <= BufferSize (mkClientParam 1024 0 false) < 2 ^ 32) by (cbn; lia).
  pose proof (srvrRunTCPBandwidthTest_accounting 1%positive (mkClientParam 1024 0 false)
                [true; true; true; false] _ t Ht Hs) as H.
  cbv zeta in H. destruct H as (st' & t' & Hrun & Hp & Hbw & _).
  exists st', t'. split; [rewrite Hrun; reflexivity|]. split; [exact Hp|].
  rewrite Hbw. reflexivity.
Defined.

(** ** The TCP latency test *)

Lemma roundTripTimes_length (n : nat) : forall rts,
  (length (roundTripTimes n rts) <= n)%nat.
Proof.
  induction n as [|n IH]; intros [|[| |payload e2] rest]; cbn [roundTripTimes length]; try lia.
  specialize (IH rest). lia.
Qed.

(** A batch whose round trips all complete has overwritten every entry
    of [latencyNumbers]. *)
Lemma latencyRounds_done (n : nat) : forall (i : Z) (rts : list RoundTrip)
    (bytes nums : list Z) evs bytes' nums',
  0 <= i -> i + Z.of_nat n < 2 ^ 32 ->
  length nums = (Z.to_nat i + n)%nat ->
  latencyRounds n i rts bytes nums = (evs, RoundsDone bytes' nums') ->
  nums' = take (Z.to_nat i) nums ++ roundTripTimes n rts
  /\ length (roundTripTimes n rts) = n.
Proof.
  induction n as [|n IH]; intros i rts bytes nums evs bytes' nums' Hi Hfit Hlen H.
  - cbn in H. injection H as <- <- <-. cbn [roundTripTimes].
    rewrite app_nil_r, take_ge by lia. split; reflexivity.
  - cbn [latencyRounds] in H. destruct rts as [|[| |payload e2] rest]; try discriminate H.
    assert (Hu : uint32 (i + 1) = i + 1) by (apply wrapU_small; lia).
    rewrite Hu in H.
    destruct (latencyRounds n (i + 1) rest payload (<[Z.to_nat i:=e2]> nums))
      as [evs1 e1] eqn:Hr.
    injection H as <- ->.
    assert (G1 : 0 <= i + 1) by lia.
    assert (G2 : i + 1 + Z.of_nat n < 2 ^ 32) by lia.
    assert (G3 : length (<[Z.to_nat i:=e2]> nums) = (Z.to_nat (i + 1) + n)%nat)
      by (rewrite length_insert; lia).
    destruct (IH _ _ _ _ _ _ _ G1 G2 G3 Hr) as [Hn Hl].
    cbn [roundTripTimes length]. split; [|lia].
    rewrite Hn. replace (Z.to_nat (i + 1)) with (S (Z.to_nat i)) by lia.
    rewrite (take_S_r _ _ e2) by (apply list_lookup_insert_eq; lia).
    rewrite take_insert_ge by lia. rewrite <- app_assoc. reflexivity.
Qed.

Lemma latencyRounds_no_emit (n : nat) : forall (i : Z) (rts : list RoundTrip)
    (bytes nums : list Z) (r : LatencyResult),
  ~ In (EvEmitLatencyResults r) (fst (latencyRounds n i rts bytes nums)).
Proof.
  induction n as [|n IH]; intros i rts bytes nums r; cbn [latencyRounds].
  - intros [].
  - destruct rts as [|[| |payload e2] rest]; cbn [fst In].
    + tauto.
    + intros [H|[]]. discriminate H.
    + intros [H|[H|[]]]; discriminate H.
    + specialize (IH (uint32 (i + 1)) rest payload (<[Z.to_nat i:=e2]> nums) r).
      destruct (latencyRounds n (uint32 (i + 1)) rest payload (<[Z.to_nat i:=e2]> nums))
        as [evs e].
      cbn [fst In] in IH |- *. intros [H|[H|H]]; try discriminate H. exact (IH H).
Qed.

Lemma swapLatency_same (t : ethrTest) : swapLatency (latency (testResult t)) t = t.
Proof. destruct t as [? ? ? []]. reflexivity. Qed.

Lemma swapLatency_swapLatency (v w : Z) (t : ethrTest) :
  swapLatency v (swapLatency w t) = swapLatency v t.
Proof. reflexivity. Qed.

Lemma latencyLoop_spec (p : loc) (rttCount : Z) (script : list LatencyBatchIO) :
  1 <= rttCount -> rttCount * 99 < 2 ^ 32 ->
  forall (bytes nums : list Z) (st : gmap loc ethrTest) (t : ethrTest),
    Z.of_nat (length nums) = rttCount ->
    st !! p = Some t ->
    let res := latencyLoop p rttCount script bytes nums st in
    snd res <> TestPanicked
    /\ (forall r, In (EvEmitLatencyResults r) (snd (fst res)) ->
          chain r
          /\ exists b, In b script
                       /\ latencyBatch rttCount (batchSamples rttCount b) = Some r)
    /\ (forall q, q <> p -> fst (fst res) !! q = st !! q)
    /\ exists v, fst (fst res) !! p = Some (swapLatency v t).
Proof.
  intros Hn Hfit.
  induction script as [|b rest IH]; intros bytes nums st t Hlen Ht res.
  - subst res. cbn [latencyLoop fst snd]. split; [discriminate|].
    split; [intros r []|]. split; [reflexivity|].
    exists (latency (testResult t)). rewrite swapLatency_same. exact Ht.
  - subst res. cbn [latencyLoop].
    assert (Hsame : exists v, st !! p = Some (swapLatency v t)).
    { exists (latency (testResult t)). rewrite swapLatency_same. exact Ht. }
    destruct (syncRead b) as [payload|].
    2:{ cbn [fst snd]. split; [discriminate|]. split; [|split; [reflexivity|exact Hsame]].
        intros r [H|[]]. discriminate H. }
    pose proof (latencyRounds_no_emit (Z.to_nat rttCount) 0 (roundTrips b) payload nums)
      as Hne.
    destruct (latencyRounds (Z.to_nat rttCount) 0 (roundTrips b) payload nums)
      as [evs [bytes' numbers| |]] eqn:Hr; cbn [fst] in Hne.
    2,3: cbn [fst snd]; (split; [discriminate|]);
         (split; [|split; [reflexivity|exact Hsame]]);
         intros r [H|Hin]; [discriminate H|destruct (Hne r Hin)].
    assert (H0 : 0 <= 0) by lia.
    assert (H1 : 0 + Z.of_nat (Z.to_nat rttCount) < 2 ^ 32) by lia.
    assert (H2 : length nums = (Z.to_nat 0 + Z.to_nat rttCount)%nat) by lia.
    destruct (latencyRounds_done _ _ _ _ _ _ _ _ H0 H1 H2 Hr) as [Hnum Hl].
    change (Z.to_nat 0) with O in Hnum. rewrite take_0 in Hnum. cbn [app] in Hnum.
    fold (batchSamples rttCount b) in Hnum, Hl. subst numbers.
    assert (H3 : Z.of_nat (length (batchSamples rttCount b)) = rttCount) by lia.
    destruct (latencyBatch_chain_no_overflow rttCount (batchSamples rttCount b) Hn Hfit H3)
      as (r & Hb & Hc).
    rewrite Hb.
    set (st1 := alter (swapLatency (stored r)) p st).
    assert (Ht1 : st1 !! p = Some (swapLatency (stored r) t)).
    { subst st1. rewrite lookup_alter_eq, Ht. reflexivity. }
    assert (H4 : Z.of_nat (length (SliceStable (batchSamples rttCount b))) = rttCount)
      by (rewrite SliceStable_length; exact H3).
    specialize (IH bytes' (SliceStable (batchSamples rttCount b)) st1 _ H4 Ht1).
    cbv zeta in IH.
    destruct (latencyLoop p rttCount rest bytes' (SliceStable (batchSamples rttCount b)) st1)
      as [[st' evs'] e].
    cbn [fst snd] in IH |- *. destruct IH as (He & Hres & Hq & v & Hv).
    split; [exact He|]. split; [|split].
    + intros r0 [H|Hin]; [discriminate H|].
      apply in_app_or in Hin as [Hin|[Hin|Hin]].
      * destruct (Hne r0 Hin).
      * injection Hin as <-. split; [exact Hc|]. exists b. split; [left; reflexivity|exact Hb].
      * destruct (Hres r0 Hin) as (Hc0 & b0 & Hb0 & Hl0).
        split; [exact Hc0|]. exists b0. split; [right; exact Hb0|exact Hl0].
    + intros q Hneq. rewrite Hq by exact Hneq. subst st1. apply lookup_alter_ne. congruence.
    + exists v. rewrite Hv. reflexivity.
Qed.

(** X19. The latency test with [RttCount >= 1] and [RttCount * 99] below
    2^32, on a test that is in the store, never panics.  Every result it
    emits is the batch result of the elapsed times of one iteration's own
    [RttCount] round trips, nothing of an earlier batch is left in the
    array, and its values are in order.  In the store only the [latency]
    of the connection's test can have changed. *)
Theorem srvrRunTCPLatencyTest_results (p : loc) (clientParam : EthrClientParam)
    (script : list LatencyBatchIO) (st : gmap loc ethrTest) (t : ethrTest) :
  1 <= RttCount clientParam -> RttCount clientParam * 99 < 2 ^ 32 ->
  st !! p = Some t ->
  let res := srvrRunTCPLatencyTest p clientParam script st in
  snd res <> TestPanicked
  /\ (forall r, In (EvEmitLatencyResults r) (snd (fst res)) ->
        chain r
        /\ exists b, In b script
                     /\ latencyBatch (RttCount clientParam)
                                     (batchSamples (RttCount clientParam) b) = Some r)
  /\ (forall q, q <> p -> fst (fst res) !! q = st !! q)
  /\ exists v, fst (fst res) !! p = Some (swapLatency v t).
Proof.
  intros Hn Hfit Ht. unfold srvrRunTCPLatencyTest. cbv zeta.
  apply latencyLoop_spec; try assumption.
  rewrite length_replicate. lia.
Qed.

Lemma srvrRunTCPLatencyTest_results_witness :
  let t := mkEthrTest "10.0.0.7" TCP All (mkTestResult 0 1 0 0) 0 true in
  let batch1 := mkBatchIO (Some [7]) [RtOk [7] (ms 3); RtOk [7] (ms 1); RtOk [7] (ms 2)] in
  let batch2 := mkBatchIO (Some [7]) [RtOk [7] (ms 5); RtOk [7] (ms 4); RtReadErr] in
  let res := srvrRunTCPLatencyTest 1%positive (mkClientParam 1 3 false)
               [batch1; batch2] {[1%positive := t]} in
  snd res = TestReturned
  /\ exists v, fst (fst res) !! 1%positive = Some (swapLatency v t).
Proof.
  intros t batch1 batch2 res. split; [vm_compute; reflexivity|].
  assert (H1 : 1 <= RttCount (mkClientParam 1 3 false)) by (cbn; lia).
  assert (H2 : RttCount (mkClientParam 1 3 false) * 99 < 2 ^ 32) by (cbn; lia).
  assert (Ht : ({[1%positive := t]} : gmap loc ethrTest) !! 1%positive = Some t)
    by reflexivity.
  pose proof (srvrRunTCPLatencyTest_results 1%positive (mkClientParam 1 3 false)
                [batch1; batch2] _ t H1 H2 Ht) as H.
  cbv zeta in H. destruct H as (_ & _ & _ & Hv). exact Hv.
Defined.

(** ** The TCP connection handler *)

Lemma onlyResults_refl p st : onlyResults p st st.
Proof.
  split; [reflexivity|]. intros t Ht. exists t. repeat split; assumption.
Qed.

Lemma onlyResults_alter p st st' (f : ethrTest -> ethrTest) :
  (forall t, sameIdentity t (f t) /\ lastAccess (f t) = lastAccess t
             /\ cps (testResult (f t)) = cps (testResult t)
             /\ pps (testResult (f t)) = pps (testResult t)) ->
  onlyResults p (alter f p st) st' -> onlyResults p st st'.
Proof.
  intros Hf [Hq Hp]. split.
  - intros q Hne. rewrite Hq by exact Hne. apply lookup_alter_ne. congruence.
  - intros t Ht. destruct (Hp (f t)) as (t' & Ht' & (I1 & I2 & I3 & I4) & Hl & Hc & Hpp).
    { rewrite lookup_alter_eq, Ht. reflexivity. }
    destruct (Hf t) as ((J1 & J2 & J3 & J4) & Jl & Jc & Jp).
    exists t'. unfold sameIdentity. repeat split; congruence.
Qed.

Lemma bandwidthLoop_frame p reverse buff size ios : forall st,
  let res := bandwidthLoop p reverse buff size ios st in
  onlyResults p st (fst (fst res)) /\ noCleanup (snd (fst res))
  /\ snd res <> TestPanicked.
Proof.
  induction ios as [|ok rest IH]; intros st res; subst res; cbn [bandwidthLoop].
  - cbn [fst snd]. split; [apply onlyResults_refl|]. split; [constructor|discriminate].
  - destruct ok.
    + specialize (IH (alter (addBw (uint64 size)) p st)). cbv zeta in IH.
      destruct (bandwidthLoop p reverse buff size rest (alter (addBw (uint64 size)) p st))
        as [[st' evs] e].
      cbn [fst snd] in IH |- *. destruct IH as (Ho & Hn & He).
      split; [|split; [|exact He]].
      * eapply onlyResults_alter; [|exact Ho]. intros t. repeat split.
      * constructor; [destruct reverse; reflexivity|exact Hn].
    + cbn [fst snd]. split; [apply onlyResults_refl|]. split; [|discriminate].
      constructor; [destruct reverse; reflexivity|constructor].
Qed.

Lemma latencyRounds_noCleanup (n : nat) : forall i rts bytes nums,
  noCleanup (fst (latencyRounds n i rts bytes nums)).
Proof.
  induction n as [|n IH]; intros i rts bytes nums; cbn [latencyRounds].
  - constructor.
  - destruct rts as [|[| |payload e2] rest]; cbn [fst]; repeat constructor.
    specialize (IH (uint32 (i + 1)) rest payload (<[Z.to_nat i:=e2]> nums)).
    destruct (latencyRounds n (uint32 (i + 1)) rest payload (<[Z.to_nat i:=e2]> nums)).
    cbn [fst] in *. repeat constructor. exact IH.
Qed.

Lemma latencyLoop_frame p rttCount script : forall bytes nums st,
  let res := latencyLoop p rttCount script bytes nums st in
  onlyResults p st (fst (fst res)) /\ noCleanup (snd (fst res)).
Proof.
  induction script as [|b rest IH]; intros bytes nums st res; subst res;
    cbn [latencyLoop].
  - cbn [fst snd]. split; [apply onlyResults_refl|constructor].
  - destruct (syncRead b) as [payload|].
    2:{ cbn [fst snd]. split; [apply onlyResults_refl|repeat constructor]. }
    pose proof (latencyRounds_noCleanup (Z.to_nat rttCount) 0 (roundTrips b) payload nums)
      as Hnc.
    destruct (latencyRounds (Z.to_nat rttCount) 0 (roundTrips b) payload nums)
      as [evs [bytes' numbers| |]]; cbn [fst] in Hnc.
    2,3: cbn [fst snd]; split; [apply onlyResults_refl|constructor; [reflexivity|exact Hnc]].
    destruct (latencyBatch rttCount numbers) as [r|].
    + specialize (IH bytes' (SliceStable numbers) (alter (swapLatency (stored r)) p st)).
      cbv zeta in IH.
      destruct (latencyLoop p rttCount rest bytes' (SliceStable numbers)
                  (alter (swapLatency (stored r)) p st)) as [[st' evs'] e].
      cbn [fst snd] in IH |- *. destruct IH as (Ho & Hn). split.
      * eapply onlyResults_alter; [|exact Ho]. intros t. repeat split.
      * constructor; [reflexivity|]. apply Forall_app. split; [exact Hnc|].
        constructor; [reflexivity|exact Hn].
    + cbn [fst snd]. split; [|constructor; [reflexivity|exact Hnc]].
      destruct (rttCount =? 0); [apply onlyResults_refl|].
      eapply onlyResults_alter; [|apply onlyResults_refl]. intros t. repeat split.
Qed.

Section TcpHandlerFacts.

Variable Registry : Type.
Variable createOrGetTest :
  string -> EthrProtocol -> EthrTestType ->
  gmap loc ethrTest * Registry -> (option loc * bool) * (gmap loc ethrTest * Registry).
Variable safeDeleteTest :
  loc -> gmap loc ethrTest * Registry -> gmap loc ethrTest * Registry.
Variable gobDecode : list Z -> option EthrMsg.
Variable EthrSyn : Z.
Variable testParam : EthrClientParam.

Lemma handshake_noCleanup decoded ack writeErr :
  noCleanup (snd (handshakeWithClient EthrSyn decoded ack writeErr)).
Proof.
  unfold handshakeWithClient. destruct decoded as [m|]; [|constructor].
  destruct (msgType m =? EthrSyn); cbn; repeat constructor.
Qed.

(** The body of the handler counts the connection and otherwise leaves
    the store to the test routines. *)
Lemma tcpConnBody_frame (c : TcpConn) (p : loc) (st : gmap loc ethrTest) :
  let res := tcpConnBody gobDecode EthrSyn testParam c p st in
  onlyResults p (alter (addCps 1) p st) (fst (fst res))
  /\ noCleanup (snd (fst res)).
Proof.
  intros res. subst res. unfold tcpConnBody.
  destruct (connRead c) as [buffer|].
  2:{ cbn [fst snd]. split; [apply onlyResults_refl|repeat constructor]. }
  pose proof (handshake_noCleanup (gobDecode buffer) (connAck c) (connAckWriteErr c)) as Hh.
  destruct (handshakeWithClient EthrSyn (gobDecode buffer) (connAck c) (connAckWriteErr c))
    as [[res err] hs].
  cbn [snd] in Hh.
  assert (Hdone : onlyResults p (alter (addCps 1) p st) (alter (addCps 1) p st)
                  /\ noCleanup (EvRead :: hs)).
  { split; [apply onlyResults_refl|constructor; [reflexivity|exact Hh]]. }
  destruct err as [e|]; [exact Hdone|].
  destruct res as [[testID clientParam]|]; [|exact Hdone].
  destruct (Protocol testID); try exact Hdone.
  destruct (Type_ testID); try exact Hdone.
  - unfold srvrRunTCPBandwidthTest. cbv zeta.
    pose proof (bandwidthLoop_frame p (Reverse testParam)
                  (bandwidthBuffer (BufferSize testParam)) (BufferSize testParam)
                  (connBandwidthIos c) (alter (addCps 1) p st)) as Hb.
    cbv zeta in Hb.
    destruct (bandwidthLoop p (Reverse testParam) (bandwidthBuffer (BufferSize testParam))
                (BufferSize testParam) (connBandwidthIos c) (alter (addCps 1) p st))
      as [[st' evs] e].
    cbn [fst snd] in Hb |- *. destruct Hb as (Ho & Hn & _).
    split; [exact Ho|]. constructor; [reflexivity|]. apply Forall_app. split; assumption.
  - unfold srvrRunTCPLatencyTest. cbv zeta.
    pose proof (latencyLoop_frame p (RttCount testParam) (connLatencyScript c)
                  (replicate (Z.to_nat (BufferSize testParam)) 0)
                  (replicate (Z.to_nat (RttCount testParam)) 0)
                  (alter (addCps 1) p st)) as Hl.
    cbv zeta in Hl.
    destruct (latencyLoop p (RttCount testParam) (connLatencyScript c)
                (replicate (Z.to_nat (BufferSize testParam)) 0)
                (replicate (Z.to_nat (RttCount testParam)) 0) (alter (addCps 1) p st))
      as [[st' evs] e].
    cbn [fst snd] in Hl |- *. destruct Hl as (Ho & Hn).
    split; [exact Ho|]. constructor; [reflexivity|]. apply Forall_app.
    split; [exact Hh|]. constructor; [reflexivity|exact Hn].
Qed.

End TcpHandlerFacts.

(** X20. A connection that obtains a test is counted exactly once in that
    test's [cps], before anything is read from it and whatever happens
    afterwards (read error, invalid handshake, any test type, a test that
    fails or panics).  Until the deferred [safeDeleteTest] the handler
    changes nothing else in the store but [bw] and [latency] of that
    test. *)
Theorem srvrHandleNewTcpConn_counts_connection (Registry : Type)
    (createOrGetTest :
       string -> EthrProtocol -> EthrTestType ->
       gmap loc ethrTest * Registry -> (option loc * bool) * (gmap loc ethrTest * Registry))
    (safeDeleteTest : loc -> gmap loc ethrTest * Registry -> gmap loc ethrTest * Registry)
    (gobDecode : list Z -> option EthrMsg) (EthrSyn : Z) (testParam : EthrClientParam)
    (c : TcpConn) (s : gmap loc ethrTest * Registry) (server : string) (p : loc)
    (isNew : bool) (st : gmap loc ethrTest) (reg : Registry) (t : ethrTest) :
  connRemote c = Some server -> connLocalOk c = true ->
  createOrGetTest server TCP All s = (Some p, isNew, (st, reg)) ->
  st !! p = Some t ->
  exists st1 t1 evs e,
    srvrHandleNewTcpConn createOrGetTest safeDeleteTest gobDecode EthrSyn testParam c s
    = (match e with
       | TestRunning => (st1, reg)
       | _ => safeDeleteTest p (st1, reg)
       end, evs, e)
    /\ st1 !! p = Some t1
    /\ cps (testResult t1) = uint64 (cps (testResult t) + 1)
    /\ pps (testResult t1) = pps (testResult t)
    /\ sameIdentity t t1 /\ lastAccess t1 = lastAccess t
    /\ forall q, q <> p -> st1 !! q = st !! q.
Proof.
  intros Hr Hl Hc Ht. unfold srvrHandleNewTcpConn. rewrite Hr, Hl, Hc. cbn [negb fst snd].
  pose proof (tcpConnBody_frame gobDecode EthrSyn testParam c p st) as Hf.
  cbv zeta in Hf.
  destruct (tcpConnBody gobDecode EthrSyn testParam c p st) as [[st1 evs] e].
  cbn [fst snd] in Hf. destruct Hf as [[Hq Hp] _].
  destruct (Hp (addCps 1 t)) as (t1 & Ht1 & (I1 & I2 & I3 & I4) & Hla & Hcps & Hpps).
  { rewrite lookup_alter_eq, Ht. reflexivity. }
  exists st1, t1. unfold runDeferred.
  destruct e; [eexists _, TestReturned|eexists _, TestPanicked|eexists _, TestRunning];
    (split; [reflexivity|]); (split; [exact Ht1|]);
    (split; [rewrite Hcps; reflexivity|]); (split; [rewrite Hpps; reflexivity|]);
    (split; [unfold sameIdentity; repeat split; assumption|]);
    (split; [rewrite Hla; reflexivity|]);
    intros q Hne; rewrite Hq by exact Hne; apply lookup_alter_ne; congruence.
Qed.

Lemma srvrHandleNewTcpConn_counts_connection_witness :
  let t := mkEthrTest "10.0.0.7" TCP All (mkTestResult 0 4 0 0) 0 true in
  let s : gmap loc ethrTest * SpecRegistry :=
    ({[1%positive := t]}, [(("10.0.0.7"%string, (TCP, All)), 1%positive)]) in
  exists st1 t1 evs e,
    srvrHandleNewTcpConn specCreateOrGetTest sampleSafeDeleteTest sampleDecode 1
      (mkClientParam 4 3 false) sampleConn s
    = (match e with
       | TestRunning => (st1, snd s)
       | _ => sampleSafeDeleteTest 1%positive (st1, snd s)
       end, evs, e)
    /\ st1 !! 1%positive = Some t1 /\ cps (testResult t1) = 5.
Proof.
  intros t s.
  assert (Hr : connRemote sampleConn = Some "10.0.0.7"%string) by reflexivity.
  assert (Hl : connLocalOk sampleConn = true) by reflexivity.
  assert (Hc : specCreateOrGetTest "10.0.0.7" TCP All s
               = (Some 1%positive, false, (fst s, snd s))) by reflexivity.
  assert (Ht : fst s !! 1%positive = Some t) by reflexivity.
  destruct (srvrHandleNewTcpConn_counts_connection SpecRegistry specCreateOrGetTest
              sampleSafeDeleteTest sampleDecode 1 (mkClientParam 4 3 false) sampleConn s
              "10.0.0.7" 1%positive false (fst s) (snd s) t Hr Hl Hc Ht)
    as (st1 & t1 & evs & e & Hrun & Ht1 & Hcps & _).
  exists st1, t1, evs, e. split; [exact Hrun|]. split; [exact Ht1|].
  rewrite Hcps. reflexivity.
Defined.

(** X21. The clean-up of a connection.  Without a test (the remote or
    local address does not split, or the registry gives none) the handler
    only closes the connection.  With a test [p], once the handler
    returns or panics its last three steps are a sleep of 2 s,
    [safeDeleteTest p] and the close, in this order, so the connection is
    held open for 2 s after the test ends; nothing of the clean-up
    happens earlier, or while the test is still running. *)
Theorem srvrHandleNewTcpConn_cleanup (Registry : Type)
    (createOrGetTest :
       string -> EthrProtocol -> EthrTestType ->
       gmap loc ethrTest * Registry -> (option loc * bool) * (gmap loc ethrTest * Registry))
    (safeDeleteTest : loc -> gmap loc ethrTest * Registry -> gmap loc ethrTest * Registry)
    (gobDecode : list Z -> option EthrMsg) (EthrSyn : Z) (testParam : EthrClientParam)
    (c : TcpConn) (s : gmap loc ethrTest * Registry) :
  let res := srvrHandleNewTcpConn createOrGetTest safeDeleteTest gobDecode EthrSyn
               testParam c s in
  match obtainedTest createOrGetTest c s with
  | None => snd (fst res) = [EvClose] /\ snd res = TestReturned
  | Some p =>
      exists body,
        noCleanup body
        /\ snd (fst res)
           = body ++ match snd res with
                     | TestRunning => []
                     | _ => [EvSleep 2000000000; EvSafeDeleteTest p; EvClose]
                     end
  end.
Proof.
  intros res. subst res. unfold obtainedTest, srvrHandleNewTcpConn.
  destruct (connRemote c) as [server|]; [|split; reflexivity].
  destruct (connLocalOk c); cbn [negb]; [|split; reflexivity].
  destruct (createOrGetTest server TCP All s) as [[test isNew] s1].
  cbn [fst snd]. destruct test as [p|]; [|split; reflexivity].
  pose proof (tcpConnBody_frame gobDecode EthrSyn testParam c p (fst s1)) as Hf.
  cbv zeta in Hf.
  destruct (tcpConnBody gobDecode EthrSyn testParam c p (fst s1)) as [[st1 evs] e].
  cbn [fst snd] in Hf. destruct Hf as [_ Hn].
  exists ((if isNew then [EvEmitTestHdr] else []) ++ evs). split.
  - apply Forall_app. split; [destruct isNew; repeat constructor|exact Hn].
  - unfold runDeferred. destruct e; cbn [fst snd]; rewrite <- app_assoc; reflexivity.
Qed.

(** X22. A connection with a test whose first message is read but is not
    a SYN that decodes: nothing is written to it, no test runs, and the
    handler still counts it in [cps], holds it for 2 s and hands the test
    to [safeDeleteTest].  When the first message is a SYN for anything
    but a TCP bandwidth or latency test, the same happens after the ACK
    has been written. *)
Theorem srvrHandleNewTcpConn_without_test_run (Registry : Type)
    (createOrGetTest :
       string -> EthrProtocol -> EthrTestType ->
       gmap loc ethrTest * Registry -> (option loc * bool) * (gmap loc ethrTest * Registry))
    (safeDeleteTest : loc -> gmap loc ethrTest * Registry -> gmap loc ethrTest * Registry)
    (gobDecode : list Z -> option EthrMsg) (EthrSyn : Z) (testParam : EthrClientParam)
    (c : TcpConn) (s : gmap loc ethrTest * Registry) (server : string) (p : loc)
    (isNew : bool) (st : gmap loc ethrTest) (reg : Registry) (buffer : list Z) :
  connRemote c = Some server -> connLocalOk c = true ->
  createOrGetTest server TCP All s = (Some p, isNew, (st, reg)) ->
  connRead c = Some buffer ->
  let run := srvrHandleNewTcpConn createOrGetTest safeDeleteTest gobDecode EthrSyn
               testParam c s in
  let hdr := if isNew then [EvEmitTestHdr] else [] in
  let cleanup := [EvSleep 2000000000; EvSafeDeleteTest p; EvClose] in
  let s' := safeDeleteTest p (alter (addCps 1) p st, reg) in
  (gobDecode buffer = None \/ (exists m, gobDecode buffer = Some m /\ msgType m <> EthrSyn) ->
   run = (s', hdr ++ [EvRead] ++ cleanup, TestReturned))
  /\ (forall m, gobDecode buffer = Some m -> msgType m = EthrSyn ->
        Protocol (synTestID m) <> TCP
        \/ (Type_ (synTestID m) <> Bandwidth /\ Type_ (synTestID m) <> Latency) ->
        run = (s', hdr ++ [EvRead; EvWrite (connAck c)] ++ cleanup, TestReturned)).
Proof.
  intros Hr Hl Hc Hb run hdr cleanup s'. subst run.
  unfold srvrHandleNewTcpConn. rewrite Hr, Hl, Hc. cbn [negb fst snd].
  unfold tcpConnBody. rewrite Hb. unfold handshakeWithClient. split.
  - intros [Hd|(m & Hd & Hm)]; rewrite Hd.
    + reflexivity.
    + destruct (Z.eqb_spec (msgType m) EthrSyn); [contradiction|]. reflexivity.
  - intros m Hd Hm Hty. rewrite Hd, Hm, Z.eqb_refl. cbn [negb].
    destruct (connAckWriteErr c).
    + reflexivity.
    + destruct (Protocol (synTestID m)), (Type_ (synTestID m)); try reflexivity;
        destruct Hty as [Hp|[Hb1 Hb2]]; congruence.
Qed.

Lemma srvrHandleNewTcpConn_without_test_run_witness :
  srvrHandleNewTcpConn specCreateOrGetTest sampleSafeDeleteTest sampleDecode 1
    (mkClientParam 4 3 false) garbageConn (∅, [])
  = (sampleSafeDeleteTest 1%positive
       (alter (addCps 1) 1%positive
          {[1%positive := mkEthrTest "10.0.0.7" TCP All (mkTestResult 0 0 0 0) 0 true]},
        [(("10.0.0.7"%string, (TCP, All)), 1%positive)]),
     [EvEmitTestHdr] ++ [EvRead] ++ [EvSleep 2000000000; EvSafeDeleteTest 1%positive; EvClose],
     TestReturned).
Proof.
  assert (Hr : connRemote garbageConn = Some "10.0.0.7"%string) by reflexivity.
  assert (Hl : connLocalOk garbageConn = true) by reflexivity.
  assert (Hc : specCreateOrGetTest "10.0.0.7" TCP All (∅, [])
               = (Some 1%positive, true,
                  ({[1%positive := mkEthrTest "10.0.0.7" TCP All (mkTestResult 0 0 0 0) 0 true]},
                   [(("10.0.0.7"%string, (TCP, All)), 1%positive)])))
    by (vm_compute; reflexivity).
  assert (Hb : connRead garbageConn = Some [9; 9]) by reflexivity.
  pose proof (srvrHandleNewTcpConn_without_test_run SpecRegistry specCreateOrGetTest
                sampleSafeDeleteTest sampleDecode 1 (mkClientParam 4 3 false) garbageConn
                (∅, []) "10.0.0.7" 1%positive true _ _ [9; 9] Hr Hl Hc Hb) as H.
  cbv zeta in H. destruct H as [Hinv _]. apply Hinv. left. reflexivity.
Defined.

(** ** The UDP packet handler over a run *)

Lemma uint64_add_r (x n : Z) : uint64 (x + uint64 n) = uint64 (x + n).
Proof. unfold uint64, wrapU. apply Zplus_mod_idemp_r. Qed.

Lemma uint64_add_l (x n : Z) : uint64 (uint64 x + n) = uint64 (x + n).
Proof. apply wrapU_add_l. Qed.

Section PacketRuns.

Variable Registry : Type.
Variable createOrGetTest :
  string -> EthrProtocol -> EthrTestType ->
  gmap loc ethrTest * Registry -> (option loc * bool) * (gmap loc ethrTest * Registry).

(** One datagram, when [createOrGetTest] leaves the tests that are in the
    store as they are. *)
Lemma handleDatagram_keeps (d : Datagram) (w : Worker Registry) :
  (forall server s r s',
     createOrGetTest server UDP All s = (r, s') ->
     forall q t, fst s !! q = Some t -> fst s' !! q = Some t) ->
  let w' := fst (handleDatagram createOrGetTest d w) in
  tests w ⊆ tests w'
  /\ forall q t, store w !! q = Some t ->
       exists t', store w' !! q = Some t'
                  /\ sameIdentity t t'
                  /\ cps (testResult t') = cps (testResult t)
                  /\ latency (testResult t') = latency (testResult t).
Proof.
  intros Hframe w'. subst w'.
  destruct (tests w !! dgServer d) as [p|] eqn:Hk.
  - rewrite (handleDatagram_known Registry createOrGetTest d w p Hk). cbn [fst tests store].
    split; [reflexivity|]. intros q t Hq.
    destruct (decide (q = p)) as [->|Hne].
    + eexists. split; [rewrite lookup_alter_eq, Hq; reflexivity|]. repeat split.
    + exists t. split; [rewrite lookup_alter_ne by congruence; exact Hq|]. repeat split.
  - destruct (createOrGetTest (dgServer d) UDP All (store w, registry w))
      as [[test' isNew] [st reg]] eqn:Hc.
    rewrite (handleDatagram_new Registry createOrGetTest d w test' isNew st reg Hk Hc).
    cbn [fst tests store]. split.
    + destruct test' as [p|]; [|reflexivity]. apply insert_subseteq. exact Hk.
    + intros q t Hq. exists t. split; [|repeat split].
      apply (Hframe _ _ _ _ Hc q t). exact Hq.
Qed.

End PacketRuns.

Section HandlerWithReaper.

Variable Registry : Type.
Variable createOrGetTest :
  string -> EthrProtocol -> EthrTestType ->
  gmap loc ethrTest * Registry -> (option loc * bool) * (gmap loc ethrTest * Registry).
Variable safeDeleteTest :
  loc -> gmap loc ethrTest * Registry -> gmap loc ethrTest * Registry.

(** An iteration of the reaper that does not reach line 291 leaves the
    local map and the registry alone and can only mark a test inactive. *)
Lemma reapTest_marks_only (k : string) (p : loc) (now1 now2 : Z) (w : Worker Registry) :
  reapDeletes p now2 w = false ->
  let w1 := reapTest safeDeleteTest k p now1 now2 w in
  tests w1 = tests w /\ registry w1 = registry w
  /\ forall q tq, store w !! q = Some tq ->
       store w1 !! q = Some tq \/ store w1 !! q = Some (setInactive tq).
Proof.
  unfold reapDeletes, reapTest. intros Hd.
  destruct (store w !! p) as [v|] eqn:Hv.
  - rewrite Hd. cbn [tests registry store]. split; [reflexivity|]. split; [reflexivity|].
    intros q tq Hq.
    destruct (timeSub now1 (lastAccess v) >? 200 * 1000000); [|left; exact Hq].
    destruct (decide (q = p)) as [->|Hne].
    + right. rewrite lookup_insert_eq. congruence.
    + left. rewrite lookup_insert_ne by congruence. exact Hq.
  - split; [reflexivity|]. split; [reflexivity|]. intros q tq Hq. left. exact Hq.
Qed.

Lemma known_remote_with_reaper (k : string) (p : loc) (steps : list HandlerStep) :
  Forall (readsFrom k) steps ->
  forall (w w' : Worker Registry) (t : ethrTest) (running : bool),
    tests w !! k = Some p -> store w !! p = Some t ->
    srvrRunUDPPacketHandlerWithReaper createOrGetTest safeDeleteTest steps true w
    = (w', running, []) ->
    running = true /\ tests w' = tests w /\ registry w' = registry w
    /\ (exists t',
          store w' !! p = Some t'
          /\ remoteIP t' = remoteIP t /\ protocol t' = protocol t
          /\ testType t' = testType t
          /\ cps (testResult t') = cps (testResult t)
          /\ latency (testResult t') = latency (testResult t)
          /\ (isActive t' = true -> isActive t = true)
          /\ match datagramsOf steps with
             | [] =>
                 pps (testResult t') = pps (testResult t)
                 /\ bw (testResult t') = bw (testResult t)
                 /\ lastAccess t' = lastAccess t
             | ds =>
                 pps (testResult t') = uint64 (pps (testResult t) + Z.of_nat (length ds))
                 /\ bw (testResult t') = uint64 (bw (testResult t) + sumZ (map dgN ds))
                 /\ Some (lastAccess t') = dgNow <$> last ds
             end)
    /\ forall q tq, q <> p -> store w !! q = Some tq ->
         store w' !! q = Some tq \/ store w' !! q = Some (setInactive tq).
Proof.
  induction 1 as [|s steps Hs _ IH]; intros w w' t running Hk Hp Hrun.
  - cbn in Hrun. injection Hrun as <- <-.
    split; [reflexivity|]. split; [reflexivity|]. split; [reflexivity|]. split.
    + exists t. cbn [datagramsOf]. repeat split; try assumption; tauto.
    + intros q tq _ Hq. left. exact Hq.
  - destruct s as [r|k' now1 now2].
    + destruct Hs as (d & -> & Hd).
      cbn [srvrRunUDPPacketHandlerWithReaper] in Hrun.
      rewrite (handleDatagram_known Registry createOrGetTest d w p) in Hrun
        by (rewrite Hd; exact Hk).
      set (w1 := mkWorker (tests w) (alter (touch (dgNow d) (dgN d)) p (store w))
                          (registry w)) in Hrun.
      assert (Hp1 : store w1 !! p = Some (touch (dgNow d) (dgN d) t)).
      { subst w1. cbn [store]. rewrite lookup_alter_eq, Hp. reflexivity. }
      destruct (IH w1 w' _ running Hk Hp1 Hrun)
        as (Hr & Ht & Hreg & (t' & Ht' & I1 & I2 & I3 & I4 & I5 & I6 & Hcnt) & Hoth).
      split; [exact Hr|]. split; [exact Ht|]. split; [exact Hreg|]. split.
      * exists t'. split; [exact Ht'|].
        split; [exact I1|]. split; [exact I2|]. split; [exact I3|].
        split; [exact I4|]. split; [exact I5|]. split; [exact I6|].
        cbn [datagramsOf].
        destruct (datagramsOf steps) as [|d2 ds].
        -- destruct Hcnt as (Hpps & Hbw & Hla).
           cbn [length map sumZ fold_right last].
           rewrite Hpps, Hbw, Hla. cbn [touch pps bw testResult lastAccess].
           split; [f_equal; lia|]. split; [|reflexivity].
           rewrite uint64_add_r. f_equal. lia.
        -- destruct Hcnt as (Hpps & Hbw & Hla). split; [|split].
           ++ rewrite Hpps. cbn [touch pps testResult]. rewrite uint64_add_l.
              f_equal. cbn [length]. lia.
           ++ rewrite Hbw. cbn [touch bw testResult]. rewrite uint64_add_l.
              cbn [map sumZ fold_right].
              rewrite <- Z.add_assoc, (Z.add_comm (uint64 _)).
              rewrite Z.add_assoc, uint64_add_r. f_equal. lia.
           ++ rewrite Hla. reflexivity.
      * intros q tq Hne Hq. apply Hoth; [exact Hne|].
        subst w1. cbn [store]. rewrite lookup_alter_ne by congruence. exact Hq.
    + cbn [srvrRunUDPPacketHandlerWithReaper] in Hrun. cbn [datagramsOf].
      destruct (tests w !! k') as [p'|] eqn:Hk'.
      2:{ exact (IH w w' t running Hk Hp Hrun). }
      destruct (srvrRunUDPPacketHandlerWithReaper createOrGetTest safeDeleteTest steps true
                  (reapTest safeDeleteTest k' p' now1 now2 w))
        as [[w2 running2] deleted] eqn:Hrest.
      destruct (reapDeletes p' now2 w) eqn:Hdel; [discriminate Hrun|].
      injection Hrun as -> -> ->.
      pose proof (reapTest_marks_only k' p' now1 now2 w Hdel) as Hm. cbv zeta in Hm.
      destruct Hm as (Hm1 & Hm2 & Hm3).
      set (w1 := reapTest safeDeleteTest k' p' now1 now2 w) in *.
      assert (Hk1 : tests w1 !! k = Some p) by (rewrite Hm1; exact Hk).
      assert (Hsame : forall a : ethrTest,
                remoteIP (setInactive a) = remoteIP a
                /\ protocol (setInactive a) = protocol a
                /\ testType (setInactive a) = testType a
                /\ testResult (setInactive a) = testResult a
                /\ lastAccess (setInactive a) = lastAccess a) by (intros a; repeat split).
      destruct (Hm3 p t Hp) as [Hp1|Hp1];
        destruct (IH w1 w' _ running Hk1 Hp1 Hrest)
          as (Hr & Ht & Hreg & (t' & Ht' & I1 & I2 & I3 & I4 & I5 & I6 & Hcnt) & Hoth).
      * split; [exact Hr|]. split; [congruence|]. split; [congruence|]. split.
        -- exists t'. repeat (split; [assumption|]). exact Hcnt.
        -- intros q tq Hne Hq. destruct (Hm3 q tq Hq) as [Hq1|Hq1];
             destruct (Hoth q _ Hne Hq1) as [H|H]; auto.
      * split; [exact Hr|]. split; [congruence|]. split; [congruence|]. split.
        -- exists t'. split; [exact Ht'|].
           split; [exact I1|]. split; [exact I2|]. split; [exact I3|].
           split; [exact I4|]. split; [exact I5|].
           split; [intros Ha; specialize (I6 Ha); discriminate I6|].
           exact Hcnt.
        -- intros q tq Hne Hq. destruct (Hm3 q tq Hq) as [Hq1|Hq1];
             destruct (Hoth q _ Hne Hq1) as [H|H]; auto.
Qed.

End HandlerWithReaper.

(** X23. The function as a whole, with the reaper running beside the
    packet loop, in any order of their steps.  When the packet loop reads
    nothing but datagrams from one remote that is in the local map, and
    the reaper hands no test to [safeDeleteTest] during the run (nothing
    it visits has been idle for more than 2 s): the packet loop is still
    running, the local map and the registry are unchanged, the remote's
    test has [pps] higher by the number of datagrams and [bw] higher by
    the sum of their byte counts (modulo 2^64), [lastAccess] is the clock
    of the last datagram, and its remote, protocol, type, [cps] and
    [latency] are unchanged.  All the reaper can have done is to mark
    tests inactive: no test has become active, and every other test is
    as it was or marked inactive. *)
Theorem srvrRunUDPPacketHandlerWithReaper_known_remote (Registry : Type)
    (createOrGetTest :
       string -> EthrProtocol -> EthrTestType ->
       gmap loc ethrTest * Registry -> (option loc * bool) * (gmap loc ethrTest * Registry))
    (safeDeleteTest : loc -> gmap loc ethrTest * Registry -> gmap loc ethrTest * Registry)
    (k : string) (p : loc) (steps : list HandlerStep) (w w' : Worker Registry)
    (t : ethrTest) (running : bool) :
  tests w !! k = Some p -> store w !! p = Some t ->
  Forall (readsFrom k) steps ->
  srvrRunUDPPacketHandlerWithReaper createOrGetTest safeDeleteTest steps true w
  = (w', running, []) ->
  running = true /\ tests w' = tests w /\ registry w' = registry w
  /\ (exists t',
        store w' !! p = Some t'
        /\ remoteIP t' = remoteIP t /\ protocol t' = protocol t
        /\ testType t' = testType t
        /\ cps (testResult t') = cps (testResult t)
        /\ latency (testResult t') = latency (testResult t)
        /\ (isActive t' = true -> isActive t = true)
        /\ match datagramsOf steps with
           | [] =>
               pps (testResult t') = pps (testResult t)
               /\ bw (testResult t') = bw (testResult t)
               /\ lastAccess t' = lastAccess t
           | ds =>
               pps (testResult t') = uint64 (pps (testResult t) + Z.of_nat (length ds))
               /\ bw (testResult t') = uint64 (bw (testResult t) + sumZ (map dgN ds))
               /\ Some (lastAccess t') = dgNow <$> last ds
           end)
  /\ forall q tq, q <> p -> store w !! q = Some tq ->
       store w' !! q = Some tq \/ store w' !! q = Some (setInactive tq).
Proof.
  intros Hk Hp Hall Hrun.
  exact (known_remote_with_reaper Registry createOrGetTest safeDeleteTest k p steps
           Hall w w' t running Hk Hp Hrun).
Qed.

Lemma srvrRunUDPPacketHandlerWithReaper_known_remote_witness :
  let w := fst (handleDatagram specCreateOrGetTest firstDatagram freshWorker) in
  let run := srvrRunUDPPacketHandlerWithReaper specCreateOrGetTest sampleSafeDeleteTest
               pausedTraffic true w in
  snd run = []
  /\ exists t',
       store (fst (fst run)) !! 1%positive = Some t'
       /\ pps (testResult t') = 2 /\ bw (testResult t') = 160
       /\ lastAccess t' = 400000000 /\ isActive t' = false.
Proof.
  intros w run.
  assert (Hk : tests w !! "10.0.0.7"%string = Some 1%positive) by (vm_compute; reflexivity).
  assert (Hp : store w !! 1%positive
               = Some (mkEthrTest "10.0.0.7" UDP All (mkTestResult 0 0 0 0) 0 true))
    by (vm_compute; reflexivity).
  assert (Hall : Forall (readsFrom "10.0.0.7") pausedTraffic).
  { repeat constructor; eexists; split; reflexivity. }
  assert (Hrun : run = (fst (fst run), snd (fst run), [])) by (vm_compute; reflexivity).
  pose proof (srvrRunUDPPacketHandlerWithReaper_known_remote SpecRegistry
                specCreateOrGetTest sampleSafeDeleteTest "10.0.0.7" 1%positive
                pausedTraffic w _ _ _ Hk Hp Hall Hrun) as H.
  destruct H as (_ & _ & _ & (t' & Ht' & _ & _ & _ & _ & _ & _ & Hpps & Hbw & Hla) & _).
  split; [vm_compute; reflexivity|].
  exists t'. split; [exact Ht'|]. split; [rewrite Hpps; reflexivity|].
  split; [rewrite Hbw; reflexivity|].
  cbn in Hla. injection Hla as Hla. split; [exact Hla|].
  assert (Hlook : store (fst (fst run)) !! 1%positive
                  = Some (mkEthrTest "10.0.0.7" UDP All (mkTestResult 160 0 2 0)
                                     400000000 false)) by (vm_compute; reflexivity).
  pose proof (eq_trans (eq_sym Ht') Hlook) as E. injection E as ->. reflexivity.
Defined.

(** X24. Whenever [createOrGetTest] leaves the tests that are in the
    store as they are, the packet loop, over any reads: never removes or
    redirects an entry of its local map, keeps every test of the store,
    and never changes a test's remote, protocol, type, [isActive], [cps]
    or [latency].  In particular traffic never makes an inactive test
    active again. *)
Theorem srvrRunUDPPacketHandler_keeps (Registry : Type)
    (createOrGetTest :
       string -> EthrProtocol -> EthrTestType ->
       gmap loc ethrTest * Registry -> (option loc * bool) * (gmap loc ethrTest * Registry))
    (reads : list (option Datagram)) (w : Worker Registry) :
  (forall server s r s',
     createOrGetTest server UDP All s = (r, s') ->
     forall q t, fst s !! q = Some t -> fst s' !! q = Some t) ->
  let w' := srvrRunUDPPacketHandler createOrGetTest reads w in
  tests w ⊆ tests w'
  /\ forall q t, store w !! q = Some t ->
       exists t', store w' !! q = Some t'
                  /\ sameIdentity t t'
                  /\ cps (testResult t') = cps (testResult t)
                  /\ latency (testResult t') = latency (testResult t).
Proof.
  intros Hframe. revert w.
  assert (Hrefl : forall w : Worker Registry,
            tests w ⊆ tests w
            /\ forall q t, store w !! q = Some t ->
                 exists t', store w !! q = Some t' /\ sameIdentity t t'
                            /\ cps (testResult t') = cps (testResult t)
                            /\ latency (testResult t') = latency (testResult t)).
  { intros w. split; [reflexivity|]. intros q t Hq. exists t. repeat split. exact Hq. }
  induction reads as [|[d|] rest IH]; intros w w'; subst w';
    cbn [srvrRunUDPPacketHandler]; try apply Hrefl.
  pose proof (handleDatagram_keeps Registry createOrGetTest d w Hframe) as Hstep.
  cbv zeta in Hstep.
  destruct (handleDatagram createOrGetTest d w) as [w1 continue].
  cbn [fst] in Hstep. destruct Hstep as [Hsub Hst].
  destruct continue.
  - specialize (IH w1). cbv zeta in IH. destruct IH as [Hsub' Hst']. split.
    + etransitivity; eassumption.
    + intros q t Hq. destruct (Hst q t Hq) as (t1 & Hq1 & (I1 & I2 & I3 & I4) & Hc1 & Hl1).
      destruct (Hst' q t1 Hq1) as (t2 & Hq2 & (J1 & J2 & J3 & J4) & Hc2 & Hl2).
      exists t2. split; [exact Hq2|]. unfold sameIdentity. repeat split; congruence.
  - split; assumption.
Qed.

Lemma specCreateOrGetTest_keeps (server : string) (proto : EthrProtocol)
    (ty : EthrTestType) (s : gmap loc ethrTest * SpecRegistry) r s' :
  specCreateOrGetTest server proto ty s = (r, s') ->
  forall q t, fst s !! q = Some t -> fst s' !! q = Some t.
Proof.
  destruct s as [st reg]. unfold specCreateOrGetTest.
  destruct (findTest (server, (proto, ty)) reg) as [p|].
  - intros H. injection H as <- <-. tauto.
  - intros H. injection H as <- <-. intros q t Hq. cbn [fst] in *.
    rewrite lookup_insert_ne; [exact Hq|].
    intros <-. unfold freshLoc in Hq.
    apply (is_fresh (dom st)). apply elem_of_dom. eexists. exact Hq.
Qed.

Lemma srvrRunUDPPacketHandler_keeps_witness :
  let t := mkEthrTest "10.0.0.7" UDP All (mkTestResult 0 0 0 0) 0 false in
  let w : Worker SpecRegistry :=
    mkWorker {["10.0.0.7"%string := 1%positive]} {[1%positive := t]}
             [(("10.0.0.7"%string, (UDP, All)), 1%positive)] in
  exists t',
    store (srvrRunUDPPacketHandler specCreateOrGetTest
             [Some firstDatagram; Some secondDatagram] w) !! 1%positive = Some t'
    /\ isActive t' = false.
Proof.
  intros t w.
  pose proof (srvrRunUDPPacketHandler_keeps SpecRegistry specCreateOrGetTest
                [Some firstDatagram; Some secondDatagram] w
                (fun server s r s' => specCreateOrGetTest_keeps server UDP All s r s')) as H.
  cbv zeta in H. destruct H as [_ H].
  destruct (H 1%positive t eq_refl) as (t' & Ht' & (_ & _ & _ & Ha) & _).
  exists t'. split; [exact Ht'|exact Ha].
Defined.

(** ** The reaper *)

Lemma timeSub_mono (t1 t2 u : Z) : t1 <= t2 -> timeSub t1 u <= timeSub t2 u.
Proof.
  intros H. unfold timeSub, minInt64, maxInt64. cbv zeta. case_cmp.
Qed.

(** X25. The reaper on one entry of the local map whose test is in the
    store, with a clock that does not go back between its two readings.
    Idle for at most 200 ms: nothing changes.  Idle for more than 200 ms
    and at most 2 s: the test is marked inactive and nothing else
    changes.  Idle for more than 2 s: the entry leaves the local map and
    [safeDeleteTest] gets the test, marked inactive when it was idle for
    more than 200 ms at the first reading. *)
Theorem reapTest_thresholds (Registry : Type)
    (safeDeleteTest : loc -> gmap loc ethrTest * Registry -> gmap loc ethrTest * Registry)
    (k : string) (p : loc) (now1 now2 : Z) (w : Worker Registry) (v : ethrTest) :
  store w !! p = Some v -> now1 <= now2 ->
  let idle1 := timeSub now1 (lastAccess v) in
  let idle2 := timeSub now2 (lastAccess v) in
  let w' := reapTest safeDeleteTest k p now1 now2 w in
  let marked := <[p := setInactive v]> (store w) in
  (idle2 <= 200000000 -> w' = w)
  /\ (200000000 < idle1 -> idle2 <= 2000000000 ->
      w' = mkWorker (tests w) marked (registry w))
  /\ (2000000000 < idle2 ->
      tests w' = delete k (tests w)
      /\ (store w', registry w')
         = safeDeleteTest p (if 200000000 <? idle1 then marked else store w, registry w)).
Proof.
  intros Hv Hnow idle1 idle2 w' marked.
  assert (Hmono : idle1 <= idle2) by (apply timeSub_mono; exact Hnow).
  subst w'. unfold reapTest. rewrite Hv. fold idle1 idle2 marked.
  change (200 * 1000000) with 200000000. change (2 * 1000000000) with 2000000000.
  rewrite !Z.gtb_ltb.
  split; [|split].
  - intros H. destruct (Z.ltb_spec 200000000 idle1); [lia|].
    destruct (Z.ltb_spec 2000000000 idle2); [lia|]. destruct w; reflexivity.
  - intros H1 H2. destruct (Z.ltb_spec 200000000 idle1); [|lia].
    destruct (Z.ltb_spec 2000000000 idle2); [lia|]. reflexivity.
  - intros H. destruct (Z.ltb_spec 2000000000 idle2); [|lia].
    destruct (safeDeleteTest p (if 200000000 <? idle1 then marked else store w, registry w))
      as [st' reg']. split; reflexivity.
Qed.

Lemma reapTest_thresholds_witness :
  let v := mkEthrTest "10.0.0.7" UDP All (mkTestResult 160 0 2 0) 7000 true in
  let w : Worker SpecRegistry :=
    mkWorker {["10.0.0.7"%string := 1%positive]} {[1%positive := v]}
             [(("10.0.0.7"%string, (UDP, All)), 1%positive)] in
  reapTest sampleSafeDeleteTest "10.0.0.7" 1%positive 300007000 300007100 w
  = mkWorker (tests w) (<[1%positive := setInactive v]> (store w)) (registry w).
Proof.
  intros v w.
  assert (Hv : store w !! 1%positive = Some v) by reflexivity.
  assert (Hnow : 300007000 <= 300007100) by lia.
  pose proof (reapTest_thresholds SpecRegistry sampleSafeDeleteTest "10.0.0.7" 1%positive
                300007000 300007100 w v Hv Hnow) as H.
  cbv zeta in H. destruct H as (_ & Hmid & _).
  apply Hmid; vm_compute; [reflexivity|discriminate].
Defined.

(** X26. A sweep of the reaper never adds an entry to the local map nor
    redirects one, and it leaves the entries of the keys it does not
    visit as they are: all it does to the local map is to remove entries
    of visited keys. *)
Theorem reapSweep_local_map (Registry : Type)
    (safeDeleteTest : loc -> gmap loc ethrTest * Registry -> gmap loc ethrTest * Registry)
    (visits : list (string * (Z * Z))) (w : Worker Registry) :
  let w' := reapSweep safeDeleteTest visits w in
  tests w' ⊆ tests w
  /\ forall k, ~ In k (map fst visits) -> tests w' !! k = tests w !! k.
Proof.
  revert w. induction visits as [|[k [now1 now2]] rest IH]; intros w w'; subst w';
    cbn [reapSweep map In fst].
  - split; reflexivity.
  - destruct (tests w !! k) as [p|] eqn:Hk.
    + specialize (IH (reapTest safeDeleteTest k p now1 now2 w)). cbv zeta in IH.
      destruct IH as [Hsub Hkeep].
      assert (Hstep : tests (reapTest safeDeleteTest k p now1 now2 w) ⊆ tests w
                      /\ forall k', k' <> k ->
                           tests (reapTest safeDeleteTest k p now1 now2 w) !! k'
                           = tests w !! k').
      { unfold reapTest. destruct (store w !! p) as [v|]; [|split; reflexivity].
        destruct (timeSub now2 (lastAccess v) >? 2 * 1000000000).
        - destruct (safeDeleteTest p _) as [st' reg']. cbn [tests]. split.
          + apply delete_subseteq.
          + intros k' Hne. apply lookup_delete_ne. congruence.
        - cbn [tests]. split; reflexivity. }
      destruct Hstep as [Hs1 Hs2]. split.
      * etransitivity; eassumption.
      * intros k' Hnot. rewrite Hkeep by tauto. apply Hs2. intros ->. tauto.
    + specialize (IH w). cbv zeta in IH. destruct IH as [Hsub Hkeep].
      split; [exact Hsub|]. intros k' Hnot. apply Hkeep. tauto.
Qed.
